(** * StudentsFetcher: a shallow embedding of [script_from_prompt.py]

    The script scrapes per-seat examination results, resumes from a
    previously written spreadsheet and rewrites that spreadsheet.  This
    development embeds its pure core: seat enumeration, the prior-result
    loader, the fetch-and-parse worker with its retry loop, the
    completion-order drain of [run], and the combine-and-write phase.

    Conventions.
    - Python [int] is [Z]; Python [str] is [string], a character being a
      code point below 256, compared by code point.
    - A spreadsheet cell, a dict key and a dict value are a [value]
      ([None], an [int] or a [str]); floats, dates and booleans are left
      out of the model.
    - The interpreter converts between [int] and [str] up to 4300 digits
      (its default [int_max_str_digits]); [int] of a longer literal is a
      [ValueError].
    - A [dict] is an association list in insertion order, a [set] of seat
      strings is a [gset string].
    - Effects (log lines, sleeps, console lines) are returned as traces;
      the text of a message is kept as the bytes of the source file.
    - The spreadsheet file is the sheet [openpyxl] reads from it.  What
      [xlsxwriter] stores of a cell is described for the cells it stores
      exactly ([exact_cell], [storable], [read_back]); [ws.write] raises
      on an integer beyond the range of a double. *)

From Stdlib Require Import ZArith Ascii.
From stdpp Require Import base tactics option list list_numbers sorting gmap strings.

#[local] Set Warnings "-clear-no-such-hyp".
Local Open Scope Z_scope.

(* ===================================================================== *)
(** ** Characters and strings of Python *)
(* ===================================================================== *)

Definition code_point (c : ascii) : Z := Z.of_N (N_of_ascii c).

(** [c.isspace()] on the code points below 256. *)
Definition is_space (c : ascii) : bool :=
  let n := code_point c in
  ((9 <=? n) && (n <=? 13)) || ((28 <=? n) && (n <=? 32))
  || (n =? 133) || (n =? 160).

(** [c.isdigit()] as used by [\d] and by [int]: the decimal digits. *)
Definition digit_val (c : ascii) : option Z :=
  let n := code_point c in
  if (48 <=? n) && (n <=? 57) then Some (n - 48) else None.

Definition is_digit (c : ascii) : bool :=
  match digit_val c with Some _ => true | None => false end.

Definition digit_char (d : Z) : ascii := ascii_of_N (Z.to_N (48 + d)).

(** [c.lower()]: the Latin capital letters, ASCII and Latin-1. *)
Definition lower_char (c : ascii) : ascii :=
  let n := code_point c in
  if ((65 <=? n) && (n <=? 90))
     || ((192 <=? n) && (n <=? 222) && negb (n =? 215))
  then ascii_of_N (Z.to_N (n + 32)) else c.

Fixpoint lower (s : string) : string :=
  match s with
  | EmptyString => EmptyString
  | String c r => String (lower_char c) (lower r)
  end.

Fixpoint all_chars (p : ascii -> bool) (s : string) : bool :=
  match s with
  | EmptyString => true
  | String c r => p c && all_chars p r
  end.

Definition str_empty (s : string) : bool :=
  match s with EmptyString => true | String _ _ => false end.

Fixpoint lstrip (s : string) : string :=
  match s with
  | EmptyString => EmptyString
  | String c r => if is_space c then lstrip r else s
  end.

Fixpoint rstrip (s : string) : string :=
  match s with
  | EmptyString => EmptyString
  | String c r =>
      let r' := rstrip r in
      if is_space c && str_empty r' then EmptyString else String c r'
  end.

(** [s.strip()] *)
Definition strip (s : string) : string := rstrip (lstrip s).

(** The white space [int] skips around a literal: the ASCII white space
    of C and, above 127, the white space of Unicode.  The separators 28
    to 31, which [str.strip] removes, are not skipped. *)
Definition is_int_space (c : ascii) : bool :=
  let n := code_point c in
  ((9 <=? n) && (n <=? 13)) || (n =? 32) || (n =? 133) || (n =? 160).

Fixpoint lstrip_by (p : ascii -> bool) (s : string) : string :=
  match s with
  | EmptyString => EmptyString
  | String c r => if p c then lstrip_by p r else s
  end.

Fixpoint rstrip_by (p : ascii -> bool) (s : string) : string :=
  match s with
  | EmptyString => EmptyString
  | String c r =>
      let r' := rstrip_by p r in
      if p c && str_empty r' then EmptyString else String c r'
  end.

Definition strip_by (p : ascii -> bool) (s : string) : string :=
  rstrip_by p (lstrip_by p s).

Fixpoint starts_with (p s : string) : bool :=
  match p, s with
  | EmptyString, _ => true
  | String a p', String b s' => if ascii_dec a b then starts_with p' s' else false
  | String _ _, EmptyString => false
  end.

(** [p in s] for strings. *)
Fixpoint contains (p s : string) : bool :=
  starts_with p s ||
  match s with
  | EmptyString => false
  | String _ s' => contains p s'
  end.

(** [s.split(sep)[0]] for a one-character separator. *)
Fixpoint before_first (sep : ascii) (s : string) : string :=
  match s with
  | EmptyString => EmptyString
  | String c r => if ascii_dec c sep then EmptyString else String c (before_first sep r)
  end.

Fixpoint take_digits (s : string) : string :=
  match s with
  | EmptyString => EmptyString
  | String c r => if is_digit c then String c (take_digits r) else EmptyString
  end.

(** [re.search(r"(\d+)", s)]: the leftmost maximal run of digits,
    [None] when the text has no digit. *)
Fixpoint re_search_digits (s : string) : option string :=
  match s with
  | EmptyString => None
  | String c r => if is_digit c then Some (take_digits s) else re_search_digits r
  end.

Fixpoint repeat_char (c : ascii) (n : nat) : string :=
  match n with
  | O => EmptyString
  | S k => String c (repeat_char c k)
  end.

(** [s.zfill(width)]: pads on the left with zeros up to [width], after
    a leading sign when there is one; a string already that long is
    returned unchanged. *)
Definition zfill (width : nat) (s : string) : string :=
  if (width <=? String.length s)%nat then s
  else
    let fill := repeat_char "0" (width - String.length s) in
    match s with
    | String c r =>
        if ascii_dec c "+" then String c (fill +:+ r)
        else if ascii_dec c "-" then String c (fill +:+ r)
        else fill +:+ s
    | EmptyString => fill
    end.

(* ===================================================================== *)
(** ** Integers of Python: [str(n)] and [int(s)] *)
(* ===================================================================== *)

(** The decimal digits of a natural number, most significant first.
    [fuel] bounds the number of digits; [digits_fuel] provides enough. *)
Fixpoint digits (fuel : nat) (n : Z) : string :=
  match fuel with
  | O => EmptyString
  | S f =>
      if n <? 10 then String (digit_char n) EmptyString
      else digits f (n / 10) +:+ String (digit_char (n mod 10)) EmptyString
  end.

Definition digits_fuel (n : Z) : nat := S (Z.to_nat (Z.log2 n)).

(** [str(n)] for an [int]. *)
Definition str_int (n : Z) : string :=
  if n <? 0 then String "-" (digits (digits_fuel (- n)) (- n))
  else digits (digits_fuel n) n.

(** The digit part of an [int] literal given to [int()]: decimal digits,
    single underscores allowed between two digits. *)
Fixpoint parse_digits (s : string) (acc : Z) (after_digit : bool) : option Z :=
  match s with
  | EmptyString => if after_digit then Some acc else None
  | String c r =>
      match digit_val c with
      | Some d => parse_digits r (10 * acc + d) true
      | None =>
          if ascii_dec c "_" then
            if after_digit then parse_digits r acc false else None
          else None
      end
  end.

(** The value of an integer literal as [int] reads it: white space
    around it, an optional sign, the digits.  [None]: no such literal. *)
Definition int_literal (s : string) : option Z :=
  match strip_by is_int_space s with
  | String c r =>
      if ascii_dec c "-" then Z.opp <$> parse_digits r 0 false
      else if ascii_dec c "+" then parse_digits r 0 false
      else parse_digits (String c r) 0 false
  | EmptyString => None
  end.

(** The interpreter's limit on the digits of a converted integer. *)
Definition MAX_STR_DIGITS : Z := 4300.

(** The least magnitude [str] refuses to print. *)
Definition str_limit : Z := 10 ^ MAX_STR_DIGITS.

Fixpoint digit_count (s : string) : nat :=
  match s with
  | EmptyString => O
  | String c r => if is_digit c then S (digit_count r) else digit_count r
  end.

(** [int(s)] for a [str]: [None] stands for [ValueError], raised for a
    string that is no integer literal and for a literal of more than
    [MAX_STR_DIGITS] digits. *)
Definition int_of_str (s : string) : option Z :=
  if Z.of_nat (digit_count s) <=? MAX_STR_DIGITS then int_literal s else None.

(** [str(n)] for an [int], under the same limit: [None] stands for
    [ValueError]. *)
Definition str_of_int (n : Z) : option string :=
  if Z.abs n <? str_limit then Some (str_int n) else None.

(** Values held by spreadsheet cells and by records. *)
Inductive value : Type :=
  | VNone
  | VInt (n : Z)
  | VStr (s : string).

Global Instance value_eq_dec : EqDecision value.
Proof. solve_decision. Defined.

(** [str(v)] *)
Definition py_str (v : value) : string :=
  match v with
  | VNone => "None"
  | VInt n => str_int n
  | VStr s => s
  end.

(** [int(v)]: [None] stands for the exception ([TypeError] on [None],
    [ValueError] on a string [int] does not accept). *)
Definition py_int (v : value) : option Z :=
  match v with
  | VNone => None
  | VInt n => Some n
  | VStr s => int_of_str s
  end.

(** Truth value of [v] in a condition. *)
Definition truthy (v : value) : bool :=
  match v with
  | VNone => false
  | VInt n => negb (n =? 0)
  | VStr s => negb (str_empty s)
  end.

(* ===================================================================== *)
(** ** Configuration *)
(* ===================================================================== *)

Definition START_SEAT : Z := 261370.
Definition END_SEAT : Z := 55602.
Definition RETRIES : nat := 2.
Definition OUTPUT_XLSX : string := "grades.xlsx".

(* ===================================================================== *)
(** ** Seat enumeration *)
(* ===================================================================== *)

(** [range(a, b)]: empty when [b <= a]. *)
Definition py_range (a b : Z) : list Z := seqZ a (b - a).

(** [str(s).zfill(6)] *)
Definition seat_str (s : Z) : string := zfill 6 (str_int s).

(** The comprehension of [run]:
    [[str(s).zfill(6) for s in range(start, end + 1)
      if str(s).zfill(6) not in seen_codes]]. *)
Definition seats (start end_ : Z) (seen_codes : gset string) : list string :=
  seat_str <$> filter (fun s => seat_str s ∉ seen_codes) (py_range start (end_ + 1)).

(* ===================================================================== *)
(** ** Records: Python dicts in insertion order *)
(* ===================================================================== *)

Definition record : Type := list (value * value).

(** [d.get(k)] *)
Fixpoint dict_get (d : record) (k : value) : option value :=
  match d with
  | [] => None
  | (k', v) :: r => if decide (k' = k) then Some v else dict_get r k
  end.

(** [d[k] = v]: an existing key keeps its position, a new key is appended. *)
Fixpoint dict_set (d : record) (k v : value) : record :=
  match d with
  | [] => [(k, v)]
  | (k', v') :: r =>
      if decide (k' = k) then (k', v) :: r else (k', v') :: dict_set r k v
  end.

(** [dict(pairs)] *)
Definition dict_of_pairs (pairs : list (value * value)) : record :=
  fold_left (fun d kv => dict_set d kv.1 kv.2) pairs [].

(** [d.keys()] *)
Definition keys (d : record) : list value := d.*1.

Definition k_name : value := VStr "name".
Definition k_code : value := VStr "code".

(* ===================================================================== *)
(** ** The spreadsheet file *)
(* ===================================================================== *)

(** What [openpyxl] hands back for the active sheet: row 1 and the rows
    from row 2 on, as tuples of cell values. *)
Record sheet : Type := Sheet {
  header_row : list value;
  data_rows : list (list value)
}.

(** The cells that come back from the file exactly as they were written.
    The file stores a number as an IEEE double, so an integer is exact up
    to [2 ^ 53] in magnitude.  A string is stored as text unless
    [ws.write] takes it for a formula or a link, and text of up to 32767
    characters is kept; [plain_text] is the printable ASCII text that is
    clear of all of these. *)
Definition printable (c : ascii) : bool :=
  let n := code_point c in (32 <=? n) && (n <=? 126).

Definition plain_text (s : string) : bool :=
  negb (str_empty s) && (Z.of_nat (String.length s) <=? 32767)
  && all_chars printable s
  && negb (starts_with "=" s) && negb (starts_with "{" s)
  && negb (contains ":" s) && negb (contains "_x" s).

Definition exact_cell (v : value) : bool :=
  match v with
  | VNone => true
  | VInt n => Z.abs n <=? 2 ^ 53
  | VStr s => plain_text s
  end.

(** The cells whose reading back [stored_cell] describes: the exact ones
    and the empty string. *)
Definition storable (v : value) : bool :=
  exact_cell v || bool_decide (v = VStr EmptyString).

(** What is read back from a [storable] cell [xlsxwriter] wrote: an empty
    string is written as a blank cell and read as [None]; an exact cell
    is read as written.  The other cells (an integer beyond [2 ^ 53], a
    string written as a link or a formula) come back changed, in ways
    this development does not describe: what is stated about a sheet
    read back is stated for [storable] cells. *)
Definition stored_cell (v : value) : value :=
  match v with
  | VStr EmptyString => VNone
  | _ => v
  end.

(** [ws.write] of an [int] first makes it a [float]: an [OverflowError]
    for an integer that rounds beyond the largest double. *)
Definition ws_write_raises (v : value) : bool :=
  match v with
  | VInt n => 2 ^ 1024 - 2 ^ 970 <=? Z.abs n
  | _ => false
  end.

(* ===================================================================== *)
(** ** 1) Loading the existing data *)
(* ===================================================================== *)

(** [h and str(h).strip().lower() == "code"] *)
Definition is_code_header (h : value) : bool :=
  truthy h && bool_decide (lower (strip (py_str h)) = "code").

(** The search loop over [enumerate(header_row)], from index [idx] on. *)
Fixpoint find_code_col (hs : list value) (idx : nat) : option nat :=
  match hs with
  | [] => None
  | h :: r => if is_code_header h then Some idx else find_code_col r (S idx)
  end.

(** The loader's state: [existing] and [seen_codes]. *)
Record loaded : Type := Loaded {
  existing : list record;
  seen_codes : gset string
}.

Definition nothing_loaded : loaded := Loaded [] ∅.

(** One iteration of the loop over the data rows. *)
Definition load_row (hdr : list value) (code_col : nat) (st : loaded)
    (row : list value) : loaded :=
  if (length row <=? code_col)%nat then st
  else
    match row !! code_col with
    | None | Some VNone => st
    | Some code_val =>
        match py_int code_val ≫= str_of_int with
        | None => st
        | Some s =>
            Loaded (existing st ++ [dict_of_pairs (zip hdr row)])
                   ({[ zfill 6 s ]} ∪ seen_codes st)
        end
    end.

Definition warn_no_code_column : string :=
  "⚠️  Could not find a 'code' column in existing file—resuming all seats.".

Definition loaded_message (n : nat) : string :=
  "Loaded " +:+ str_int (Z.of_nat n) +:+ " existing records, skipping those seats.".

(** The whole of step 1; [None] is the case where [OUTPUT_XLSX] does not
    exist.  Returns the state and the lines printed. *)
Definition load_existing (file : option sheet) : loaded * list string :=
  match file with
  | None => (nothing_loaded, [])
  | Some sh =>
      match find_code_col (header_row sh) 0 with
      | None => (nothing_loaded, [warn_no_code_column])
      | Some code_col =>
          let st := fold_left (load_row (header_row sh) code_col)
                              (data_rows sh) nothing_loaded in
          (st, [loaded_message (length (existing st))])
      end
  end.

(* ===================================================================== *)
(** ** The parsed response: the part of BeautifulSoup the worker uses *)
(* ===================================================================== *)

(** A parsed document: text nodes and tags with attributes and contents. *)
#[warnings="-register-all"]
Inductive node : Type :=
  | Text (s : string)
  | Elem (tag : string) (attrs : list (string * string)) (contents : list node).

(** All nodes below [n], in document order. *)
Fixpoint descendants (n : node) : list node :=
  match n with
  | Text _ => []
  | Elem _ _ cs =>
      (fix go (l : list node) : list node :=
         match l with
         | [] => []
         | c :: r => c :: descendants c ++ go r
         end) cs
  end.

Definition has_tag (name : string) (n : node) : bool :=
  match n with
  | Text _ => false
  | Elem t _ _ => bool_decide (t = name)
  end.

Fixpoint attr_get (attrs : list (string * string)) (k : string) : option string :=
  match attrs with
  | [] => None
  | (k', v) :: r => if decide (k' = k) then Some v else attr_get r k
  end.

Definition has_id (i : string) (n : node) : bool :=
  match n with
  | Text _ => false
  | Elem _ attrs _ => bool_decide (attr_get attrs "id" = Some i)
  end.

(** [n.find_all(name)] *)
Definition find_all (name : string) (n : node) : list node :=
  List.filter (has_tag name) (descendants n).

(** [n.find(name)] *)
Definition find (name : string) (n : node) : option node :=
  head (find_all name n).

(** The strings below [n], in document order. *)
Definition all_strings (n : node) : list string :=
  omap (fun d => match d with Text s => Some s | Elem _ _ _ => None end)
       (descendants n).

Definition concat_str (l : list string) : string :=
  fold_right String.append EmptyString l.

(** [n.get_text()] *)
Definition get_text (n : node) : string := concat_str (all_strings n).

(** [n.get_text(strip=True)]: every string is stripped, the empty ones
    are left out. *)
Definition get_text_strip (n : node) : string :=
  concat_str (List.filter (fun s => negb (str_empty s)) (strip <$> all_strings n)).

(** [n.string]: the single string of a tag, through single-child tags. *)
Fixpoint node_string (n : node) : option string :=
  match n with
  | Text s => Some s
  | Elem _ _ [c] => node_string c
  | Elem _ _ _ => None
  end.

(** [lambda t: t and "code" in t.lower()] applied to [span.string]. *)
Definition code_label (n : node) : bool :=
  match node_string n with
  | Some t => negb (str_empty t) && contains "code" (lower t)
  | None => false
  end.

(** [soup.find("section", id="student_result")] *)
Definition find_section (soup : node) : option node :=
  head (List.filter (fun n => has_tag "section" n && has_id "student_result" n)
                    (descendants soup)).

(** [sec.find("span", string=lambda t: t and "code" in t.lower())] *)
Definition find_code_span (sec : node) : option node :=
  head (List.filter (fun n => has_tag "span" n && code_label n) (descendants sec)).

(* ===================================================================== *)
(** ** 2) The fetch-and-parse worker *)
(* ===================================================================== *)

(** What one [session.get] followed by [resp.text()] and the parser gives:
    an exception (network error, timeout, parser error) with its message,
    or the parsed document. *)
Inductive response : Type :=
  | Failed (err : string)
  | Page (soup : node).

(** The remote side: the answer to attempt number [i] for a seat. *)
Definition network : Type := string -> nat -> response.

(** What the body of the [try] does: it returns ([None] or a record) or
    raises. *)
Inductive attempt : Type :=
  | Return (item : option record)
  | Raise (err : string).

(** The rows of the table: for each [tr] the stripped texts of its [td]. *)
Definition table_rows (table : node) : list (list string) :=
  (fun tr => get_text_strip <$> find_all "td" tr) <$> find_all "tr" table.

(** One iteration of [for tr in table.find_all("tr")]. *)
Definition add_row (data : record) (cols : list string) : record :=
  match cols with
  | [c0; c1] => dict_set data (VStr (strip (before_first "/" c0))) (VStr c1)
  | _ => data
  end.

Definition invalid_literal (s : string) : string :=
  "invalid literal for int() with base 10: '" +:+ s +:+ "'".

Definition digit_limit_message (n : nat) : string :=
  "Exceeds the limit (4300 digits) for integer string conversion: value has "
  +:+ str_int (Z.of_nat n)
  +:+ " digits; use sys.set_int_max_str_digits() to increase the limit".

(** The digits [int] counts before it looks at the limit: those of the
    leading run of digits and single underscores; [None] when that run
    is already malformed. *)
Fixpoint scan_literal (s : string) (after_underscore : bool) (count : nat)
    : option nat :=
  match s with
  | EmptyString => if after_underscore then None else Some count
  | String c r =>
      if is_digit c then scan_literal r false (S count)
      else if ascii_dec c "_" then
        if after_underscore then None else scan_literal r true count
      else if after_underscore then None else Some count
  end.

Definition literal_body (s : string) : string :=
  match lstrip_by is_int_space s with
  | String c r => if ascii_dec c "-" then r else if ascii_dec c "+" then r else String c r
  | EmptyString => EmptyString
  end.

(** The message of the [ValueError] of [int(s)]. *)
Definition int_error (s : string) : string :=
  match literal_body s with
  | String c r =>
      if ascii_dec c "_" then invalid_literal s
      else
        match scan_literal (String c r) false O with
        | Some n =>
            if MAX_STR_DIGITS <? Z.of_nat n then digit_limit_message n
            else invalid_literal s
        | None => invalid_literal s
        end
  | EmptyString => invalid_literal s
  end.

(** The lines from [span = sec.find(...)] to [code = int(m.group(1))]:
    the code the response asserts, or else the requested one.  The right
    side is the [ValueError] of [int]. *)
Definition resolve_code (requested : Z) (sec : node) : Z + string :=
  match find_code_span sec with
  | Some span =>
      match re_search_digits (get_text span) with
      | Some m =>
          match int_of_str m with
          | Some c => inl c
          | None => inr (int_error m)
          end
      | None => inl requested
      end
  | None => inl requested
  end.

(** The statements of the [try] block after the response was parsed. *)
Definition parse_page (seat_str : string) (soup : node) : attempt :=
  match find_section soup with
  | None => Return None
  | Some sec =>
      let name :=
        match find "h2" sec with
        | Some name_tag => get_text_strip name_tag
        | None => EmptyString
        end in
      match int_of_str seat_str with
      | None => Raise (int_error seat_str)
      | Some requested =>
          match resolve_code requested sec with
          | inr err => Raise err
          | inl code =>
              match find "table" sec with
              | None => Return None
              | Some table =>
                  Return (Some (fold_left add_row (table_rows table)
                                          [(k_name, VStr name); (k_code, VInt code)]))
              end
          end
      end
  end.

Definition try_once (net : network) (seat_str : string) (i : nat) : attempt :=
  match net seat_str i with
  | Failed err => Raise err
  | Page soup => parse_page seat_str soup
  end.

(** The effects of a worker, in order. *)
Inductive event : Type :=
  | EvGet (seat_str : string)
  | EvLogError (msg : string)
  | EvSleep (milliseconds : Z).

Definition log_attempt (seat_str err : string) : event :=
  EvLogError (seat_str +:+ " → " +:+ err).

Definition log_failed (seat_str : string) : event :=
  EvLogError (seat_str +:+ " → failed after retries").

(** [for _ in range(retries)] from attempt [i] on, and the two statements
    after the loop. *)
Fixpoint fetch_loop (net : network) (seat_str : string) (i retries : nat)
    : option record * list event :=
  match retries with
  | O => (None, [log_failed seat_str])
  | S r =>
      match try_once net seat_str i with
      | Return item => (item, [EvGet seat_str])
      | Raise err =>
          let rest := fetch_loop net seat_str (S i) r in
          (rest.1, EvGet seat_str :: log_attempt seat_str err :: EvSleep 500 :: rest.2)
      end
  end.

Definition fetch_one (net : network) (seat_str : string) : option record * list event :=
  fetch_loop net seat_str 0 RETRIES.

(* ===================================================================== *)
(** ** 3) Running the tasks *)
(* ===================================================================== *)

(** The [[OK]] line of a record. *)
Definition ok_line (code name : value) : string :=
  "[OK]   " +:+ zfill 6 (py_str code) +:+ " → " +:+ py_str name.

(** The loop over [asyncio.as_completed(tasks)]: [items] are the values
    of the tasks in the order they complete.  Returns [results] and the
    lines printed; [None] is a [KeyError] on [item['code']] or
    [item['name']]. *)
Fixpoint drain (items : list (option record)) (results : list record)
    (console : list string) : option (list record * list string) :=
  match items with
  | [] => Some (results, console)
  | None :: rest => drain rest results console
  | Some [] :: rest => drain rest results console
  | Some item :: rest =>
      match dict_get item k_code, dict_get item k_name with
      | Some code, Some name =>
          drain rest (results ++ [item]) (console ++ [ok_line code name])
      | _, _ => None
      end
  end.

(** [asyncio.as_completed] yields the tasks in an order of its own: a
    schedule is any rearrangement of the list of tasks. *)
Definition schedule : Type := list string -> list string.

Definition rearranges (sched : schedule) : Prop := forall l, sched l ≡ₚ l.

(** [run()]: the seats still to fetch, one task per seat, the drain. *)
Definition run (net : network) (sched : schedule) (start end_ : Z)
    (seen : gset string) : option (list record * list string) :=
  let tasks := seats start end_ seen in
  drain ((fun seat => (fetch_one net seat).1) <$> sched tasks) [] [].

(** The error log of a run: the log lines of the workers (the order
    among workers is not fixed; each worker's lines are in order). *)
Definition error_log (net : network) (tasks : list string) : list event :=
  List.filter (fun e => match e with EvLogError _ => true | _ => false end)
              (concat ((fun seat => (fetch_one net seat).2) <$> tasks)).

(* ===================================================================== *)
(** ** 4) Combining old and new, rewriting the spreadsheet *)
(* ===================================================================== *)

Definition as_str (v : value) : option string :=
  match v with VStr s => Some s | _ => None end.

Definition as_int (v : value) : option Z :=
  match v with VInt n => Some n | _ => None end.

(** [sorted(l)] on distinct values: strings are ordered by code point,
    integers by value; comparing [None] with anything, or an integer
    with a string, is a [TypeError] ([None] here).  A list of at most
    one element is never compared. *)
Definition py_sorted (l : list value) : option (list value) :=
  match l with
  | [] | [_] => Some l
  | _ =>
      match mapM as_str l with
      | Some ss => Some (VStr <$> merge_sort String.le ss)
      | None =>
          match mapM as_int l with
          | Some ns => Some (VInt <$> merge_sort Z.le ns)
          | None => None
          end
      end
  end.

(** [hdrs]: the union of [r.keys()] over [all_records], as a list without
    repetition. *)
Definition union_keys (all_records : list record) : list value :=
  remove_dups (concat (keys <$> all_records)).

(** [h not in ("name", "code")] *)
Definition not_pinned (h : value) : bool :=
  negb (bool_decide (h = k_name)) && negb (bool_decide (h = k_code)).

(** [["name", "code"] + sorted(h for h in hdrs if h not in ("name", "code"))] *)
Definition headers (all_records : list record) : option (list value) :=
  (fun rest => k_name :: k_code :: rest)
    <$> py_sorted (List.filter not_pinned (union_keys all_records)).

(** [rec.get(h, "")] for every header. *)
Definition row_of (hs : list value) (rec : record) : list value :=
  (fun h => default (VStr EmptyString) (dict_get rec h)) <$> hs.

(** The sheet a later run reads from a file that was written with the
    header cells [hs] and the data rows [rows], each cell read back as
    [stored_cell] has it. *)
Definition stored_sheet (hs : list value) (rows : list (list value)) : sheet :=
  Sheet (stored_cell <$> hs) ((fun row : list value => stored_cell <$> row) <$> rows).

(** The same sheet, where the reading back is described: the header
    cells are exact (none is blank, so that the sheet keeps its width)
    and the data cells are storable.  [None]: not described. *)
Definition read_back (hs : list value) (rows : list (list value)) : option sheet :=
  if forallb exact_cell hs && forallb (forallb storable) rows
  then Some (stored_sheet hs rows) else None.

(** How step 4 ends: nothing to write, a [TypeError] in [sorted], or the
    workbook with its header cells [hs] and its [rows], the cells handed
    to [ws.write] one by one, and the summary printed after [wb.close()]. *)
Inductive write_outcome : Type :=
  | NothingToWrite (console : list string)
  | SortError
  | Written (hs : list value) (rows : list (list value)) (console : list string).

Definition no_new_records : string := "No new records fetched.".

Definition newline : string := String (ascii_of_N 10) EmptyString.

(** The summary line (the hint about the error log that follows it is
    left out). *)
Definition wrote_message (n : nat) : string :=
  newline +:+ "Wrote " +:+ str_int (Z.of_nat n) +:+ " total records to " +:+ OUTPUT_XLSX.

Definition combine_and_write (existing results : list record) : write_outcome :=
  let all_records := existing ++ results in
  match all_records with
  | [] => NothingToWrite [no_new_records]
  | _ :: _ =>
      match headers all_records with
      | None => SortError
      | Some hs => Written hs (row_of hs <$> all_records) [wrote_message (length all_records)]
      end
  end.

(** The file after step 4, every cell being stored as [stored_sheet] has
    it: untouched unless the workbook was written. *)
Definition file_after (old : option sheet) (out : write_outcome) : option sheet :=
  match out with
  | Written hs rows _ => Some (stored_sheet hs rows)
  | _ => old
  end.

(** Some cell of the workbook makes [ws.write] raise. *)
Definition write_raises (hs : list value) (rows : list (list value)) : bool :=
  existsb ws_write_raises (hs ++ concat rows).

(** The whole script on a given spreadsheet file (if any): the new state
    of the file and the records fetched by this run.  [None]: an
    exception inside [run] or inside [ws.write], or a workbook whose
    reading back is not described. *)
Definition main (net : network) (sched : schedule) (start end_ : Z)
    (file : option sheet) : option (option sheet * list record) :=
  let st := (load_existing file).1 in
  match run net sched start end_ (seen_codes st) with
  | None => None
  | Some (results, _) =>
      match combine_and_write (existing st) results with
      | Written hs rows _ =>
          if write_raises hs rows then None
          else (fun sh => (Some sh, results)) <$> read_back hs rows
      | out => Some (file_after file out, results)
      end
  end.

(* ===================================================================== *)
(** ** Vocabulary of the statements, and examples *)
(* ===================================================================== *)

(** The number a string of digits denotes, continuing from [acc]. *)
Fixpoint digits_value (s : string) (acc : Z) : Z :=
  match s with
  | EmptyString => acc
  | String c r => digits_value r (10 * acc + default 0 (digit_val c))
  end.

(** The integer [str(int(v))] goes through for: the one [int] returns,
    when [str] prints it. *)
Definition code_of_cell (v : value) : option Z :=
  n ← py_int v; if Z.abs n <? str_limit then Some n else None.

(** The integer in the code column of a data row, when the row reaches
    that column and the cell holds such an integer. *)
Definition row_code (code_col : nat) (row : list value) : option Z :=
  row !! code_col ≫= code_of_cell.

Definition row_record (hdr row : list value) : record := dict_of_pairs (zip hdr row).

Definition sheet_with_bad_rows : sheet :=
  Sheet [VStr "name"; VStr " Code "]
        [[VStr "x"; VInt 5]; [VStr "y"]; [VStr "z"; VStr "abc"];
         [VStr "w"; VNone]; [VStr "v"; VStr "12"]].

Definition sheet_without_code : sheet :=
  Sheet [VStr "name"; VNone; VStr "Math"] [[VStr "A"; VInt 7; VStr "90"]].

(** The subject key of a table row: two-column rows only. *)
Definition row_key (cols : list string) : option string :=
  match cols with
  | [c0; _] => Some (strip (before_first "/" c0))
  | _ => None
  end.

(** The code found in the labelled span of a section, if any. *)
Definition asserted_code (sec : node) : option Z :=
  span ← find_code_span sec;
  m ← re_search_digits (get_text span);
  Some (digits_value m 0).

(** The digits found in the labelled span of a section, if any. *)
Definition asserted_digits (sec : node) : option string :=
  span ← find_code_span sec; re_search_digits (get_text span).

(** A [span] labelled as the code: its string is not empty and contains
    [code] once lowered. *)
Definition labelled_span (n : node) : Prop :=
  exists attrs contents t,
    n = Elem "span" attrs contents /\ node_string n = Some t
    /\ t <> EmptyString /\ contains "code" (lower t) = true.

(** [m] is the first run of digits of [text]: no digit comes before it,
    and it ends with the text or at a character that is no digit. *)
Definition first_digit_run (text m : string) : Prop :=
  exists pre post,
    text = pre +:+ m +:+ post
    /\ all_chars (fun c => negb (is_digit c)) pre = true
    /\ all_chars is_digit m = true /\ m <> EmptyString
    /\ (forall c r, post = String c r -> is_digit c = false).

(** What a section asserts: the first run of digits in the text of its
    first labelled span, in document order; nothing when it has no
    labelled span or when the first one holds no digit. *)
Definition asserts (sec : node) (a : option string) : Prop :=
  match a with
  | Some m =>
      exists before span after,
        descendants sec = before ++ span :: after
        /\ (forall n, n ∈ before -> ~ labelled_span n)
        /\ labelled_span span /\ first_digit_run (get_text span) m
  | None =>
      (forall n, n ∈ descendants sec -> ~ labelled_span n)
      \/ exists before span after,
           descendants sec = before ++ span :: after
           /\ (forall n, n ∈ before -> ~ labelled_span n)
           /\ labelled_span span
           /\ all_chars (fun c => negb (is_digit c)) (get_text span) = true
  end.

(** The code of a record: the number of the asserted digits, or else the
    requested seat. *)
Definition code_of (requested : Z) (a : option string) : Z :=
  match a with
  | Some m => digits_value m 0
  | None => requested
  end.

(** The name the worker reads: the text of the first [h2], or nothing. *)
Definition display_name (sec : node) : string :=
  match find "h2" sec with
  | Some name_tag => get_text_strip name_tag
  | None => EmptyString
  end.

(** What attempts [i], [i+1], ... leave in the trace when each of them
    raises: the request, the log line of the error, the half second of
    sleep. *)
Fixpoint failed_attempts (seat : string) (err : nat -> string) (i n : nat) : list event :=
  match n with
  | O => []
  | S k =>
      EvGet seat :: log_attempt seat (err i) :: EvSleep 500
        :: failed_attempts seat err (S i) k
  end.

(** The worker as [run] sees it: the value of the task. *)
Definition worker (net : network) (seat : string) : option record :=
  (fetch_one net seat).1.

(** The [[OK]] line of a record. *)
Definition record_line (rec : record) : string :=
  ok_line (default VNone (dict_get rec k_code)) (default VNone (dict_get rec k_name)).

(** Example documents. *)
Definition td (s : string) : node := Elem "td" [] [Text s].

Definition result_section (name label : string) (rows : list node) : node :=
  Elem "section" [("id", "student_result")]
    [Elem "h2" [] [Text name]; Elem "span" [] [Text label]; Elem "table" [] rows].

Definition result_page (name label : string) (rows : list node) : node :=
  Elem "html" [] [result_section name label rows].

Definition page_without_section : node :=
  Elem "html" [] [Elem "p" [] [Text "no result"]].

Definition page_without_table : node :=
  Elem "html" [] [Elem "section" [("id", "student_result")] [Elem "h2" [] [Text "Ali"]]].

(** A page that asserts code 7 and whose table has a row labelled [code]. *)
Definition rows_code_row : list node :=
  [Elem "tr" [] [td "Math / x"; td "90"];
   Elem "tr" [] [td "code"; td "A+"];
   Elem "tr" [] [td "alone"]].

Definition page_code_row : node := result_page "  Ali  " "Code: 7" rows_code_row.

(** A page that asserts code 2. *)
Definition rows_science : list node := [Elem "tr" [] [td "Science"; td "85"]].

Definition page_code_2 : node := result_page "B" "code 2" rows_science.

Definition net_code_2 : network := fun _ _ => Page page_code_2.
Definition net_code_row : network := fun _ _ => Page page_code_row.
Definition net_without_section : network := fun _ _ => Page page_without_section.
Definition net_without_table : network := fun _ _ => Page page_without_table.

(** A page whose result section has no table and asserts a code of 4301
    digits. *)
Definition page_long_code : node :=
  Elem "html" []
    [Elem "section" [("id", "student_result")]
       [Elem "span" [] [Text ("code " +:+ repeat_char "1" 4301)]]].

Definition net_long_code : network := fun _ _ => Page page_long_code.

Definition net_always_failing : network := fun _ _ => Failed "timeout".

(** The seat 000042 always times out; every other seat is answered with a
    page that asserts code 42. *)
Definition net_code_42 : network :=
  fun seat _ =>
    if decide (seat = "000042") then Failed "timeout"
    else Page (result_page "B" "code 42" rows_science).

(** Every field name of every record is a string. *)
Definition string_keyed (records : list record) : Prop :=
  forall rec k, rec ∈ records -> k ∈ keys rec -> exists s, k = VStr s.

(** A Record of the data model: the field names are strings. *)
Definition fields : Type := list (string * value).

(** The dict of a Record. *)
Definition as_dict (r : fields) : record := (fun kv => (VStr kv.1, kv.2)) <$> r.

(** The example of the specification. *)
Definition prior_example : list fields :=
  [[("name", VStr "A"); ("code", VInt 1); ("Math", VStr "90")]].

Definition new_example : list fields :=
  [[("name", VStr "B"); ("code", VInt 2); ("Science", VStr "85")]].

(** A prior sheet with two columns headed by the numbers 10 and 9. *)
Definition sheet_numeric_headers : sheet :=
  Sheet [VStr "name"; VStr "code"; VInt 10; VInt 9]
        [[VStr "A"; VInt 1; VStr "x"; VStr "y"]].

(** The integer a record carries as its code, if it carries one. *)
Definition record_code (rec : record) : option Z := dict_get rec k_code ≫= code_of_cell.

(** A record whose field names are exact cells and whose values are
    storable ones. *)
Definition storable_record (rec : record) : Prop :=
  forall k v, (k, v) ∈ rec -> exact_cell k = true /\ storable v = true.

(** The record every seat gets from [net_code_2], and the sheet holding
    it once and twice. *)
Definition record_code_2 : record :=
  [(k_name, VStr "B"); (k_code, VInt 2); (VStr "Science", VStr "85")].

Definition sheet_code_2 (n : nat) : sheet :=
  Sheet [k_name; k_code; VStr "Science"] (replicate n [VStr "B"; VInt 2; VStr "85"]).

(** The requests, the sleeps and the log lines of a trace. *)
Definition requests (tr : list event) : nat :=
  length (List.filter (fun e => match e with EvGet _ => true | _ => false end) tr).

Definition sleeps (tr : list event) : nat :=
  length (List.filter (fun e => match e with EvSleep _ => true | _ => false end) tr).

Definition log_lines (tr : list event) : list string :=
  omap (fun e => match e with EvLogError msg => Some msg | _ => None end) tr.

(** A remote side that times out on the first attempt and answers the
    second one. *)
Definition net_second_try : network :=
  fun _ i => match i with O => Failed "timeout" | S _ => Page page_code_2 end.

(** [len(cols) == 2] *)
Definition two_columns (cols : list string) : bool :=
  match cols with
  | [_; _] => true
  | _ => false
  end.

(** A page whose table has rows of one, two and three cells, twice the
    subject Math, and no span. *)
Definition page_mixed_rows : node :=
  Elem "html" []
    [Elem "section" [("id", "student_result")]
       [Elem "table" []
          [Elem "tr" [] [Elem "th" [] [Text "Subject"]; Elem "th" [] [Text "Grade"]];
           Elem "tr" [] [td "Math"; td "10"];
           Elem "tr" [] [td "Total"];
           Elem "tr" [] [td "Art"; td "7"; td "note"];
           Elem "tr" [] [td " Math /50 "; td "45"]]]].

Definition net_mixed_rows : network := fun _ _ => Page page_mixed_rows.

(** A remote side with a result for the even seats 2, 4, 6 only. *)
Definition net_some_seats : network :=
  fun seat _ =>
    if decide (seat = "000002") then Page page_code_2
    else if decide (seat = "000004") then Page page_mixed_rows
    else Page page_without_section.

(** A sheet with a blank header cell between the pinned columns and a
    subject. *)
Definition sheet_blank_header : sheet :=
  Sheet [VStr "name"; VStr "code"; VNone; VStr "Math"]
        [[VStr "A"; VInt 1; VStr "x"; VStr "90"]].

(** A sheet with the subject Math in two columns, and a row that stops
    before the second one. *)
Definition sheet_twice_math : sheet :=
  Sheet [VStr "name"; VStr "code"; VStr "Math"; VStr "Math"]
        [[VStr "A"; VInt 1; VStr "10"; VStr "45"]; [VStr "B"; VInt 2; VStr "30"]].

(** A sheet whose code column is headed [Code]. *)
Definition sheet_capital_code : sheet :=
  Sheet [VStr "name"; VStr "Code"; VStr "Math"]
        [[VStr "A"; VInt 1; VStr "90"]; [VStr "B"; VInt 2; VStr "80"]].

(** A table whose first row has an empty subject cell. *)
Definition rows_blank_subject : list node :=
  [Elem "tr" [] [td ""; td "5"]; Elem "tr" [] [td "Math"; td "90"]].

Definition net_blank_subject : network :=
  fun _ _ => Page (result_page "B" "code 1" rows_blank_subject).

(** The sheet read back from what the first run writes for it: the empty
    subject is a blank header cell. *)
Definition sheet_blank_subject : sheet :=
  Sheet [VStr "name"; VStr "code"; VNone; VStr "Math"]
        [[VStr "B"; VInt 1; VStr "5"; VStr "90"]].

(* ===================================================================== *)
(** * Properties *)
(* ===================================================================== *)

(** ** Strings *)

Lemma length_append (s t : string) :
  String.length (s +:+ t) = (String.length s + String.length t)%nat.
Proof. induction s as [|c s IH]; simpl; [done|]. by rewrite IH. Qed.

Lemma length_repeat_char c n : String.length (repeat_char c n) = n.
Proof. induction n as [|n IH]; simpl; [done|]. by rewrite IH. Qed.

Lemma length_zfill w s : String.length (zfill w s) = Nat.max w (String.length s).
Proof.
  unfold zfill. destruct (Nat.leb_spec w (String.length s)) as [Hle|Hlt]; [lia|].
  destruct s as [|c r]; simpl in *.
  - rewrite length_repeat_char. lia.
  - repeat case_match; simpl;
      rewrite length_append, length_repeat_char; simpl; lia.
Qed.

Lemma all_chars_app p s t :
  all_chars p (s +:+ t) = all_chars p s && all_chars p t.
Proof. induction s as [|c s IH]; simpl; [done|]. by rewrite IH, andb_assoc. Qed.

Lemma all_chars_impl (p q : ascii -> bool) s :
  (forall c, p c = true -> q c = true) -> all_chars p s = true -> all_chars q s = true.
Proof.
  intros Hpq. induction s as [|c s IH]; simpl; [done|].
  intros [Hc Hs]%andb_true_iff. rewrite (Hpq _ Hc). simpl. auto.
Qed.

Lemma all_chars_repeat p c n : p c = true -> all_chars p (repeat_char c n) = true.
Proof. intros Hc. induction n as [|n IH]; simpl; [done|]. by rewrite Hc, IH. Qed.

Lemma lstrip_id c s : is_space c = false -> lstrip (String c s) = String c s.
Proof. intros H. simpl. by rewrite H. Qed.

Lemma rstrip_id s : all_chars (fun c => negb (is_space c)) s = true -> rstrip s = s.
Proof.
  induction s as [|c s IH]; simpl; [done|].
  intros [Hc Hs]%andb_true_iff. rewrite (IH Hs).
  apply negb_true_iff in Hc. by rewrite Hc.
Qed.

Lemma strip_id s : all_chars (fun c => negb (is_space c)) s = true -> strip s = s.
Proof.
  intros H. unfold strip. destruct s as [|c s]; [done|].
  pose proof H as H'. simpl in H'. apply andb_true_iff in H' as [Hc _].
  apply negb_true_iff in Hc. rewrite (lstrip_id _ _ Hc). by apply rstrip_id.
Qed.

Lemma rstrip_by_id p s : all_chars (fun c => negb (p c)) s = true -> rstrip_by p s = s.
Proof.
  induction s as [|c s IH]; simpl; [done|].
  intros [Hc Hs]%andb_true_iff. rewrite (IH Hs).
  apply negb_true_iff in Hc. by rewrite Hc.
Qed.

Lemma strip_by_id p s : all_chars (fun c => negb (p c)) s = true -> strip_by p s = s.
Proof.
  intros H. unfold strip_by. destruct s as [|c s]; [done|].
  pose proof H as H'. simpl in H'. apply andb_true_iff in H' as [Hc _].
  apply negb_true_iff in Hc. simpl lstrip_by. rewrite Hc. by apply rstrip_by_id.
Qed.

(** ** Digits *)

Lemma digit_cases d : 0 <= d < 10 ->
  d = 0 \/ d = 1 \/ d = 2 \/ d = 3 \/ d = 4 \/ d = 5 \/ d = 6 \/ d = 7 \/ d = 8 \/ d = 9.
Proof. lia. Qed.

Lemma digit_val_digit_char d : 0 <= d < 10 -> digit_val (digit_char d) = Some d.
Proof.
  intros H. destruct (digit_cases d H) as [->|[->|[->|[->|[->|[->|[->|[->|[->| ->]]]]]]]]];
    reflexivity.
Qed.

Lemma is_digit_digit_char d : 0 <= d < 10 -> is_digit (digit_char d) = true.
Proof. intros H. unfold is_digit. by rewrite digit_val_digit_char. Qed.

Lemma digit_val_bounds c d : digit_val c = Some d -> 0 <= d < 10.
Proof.
  unfold digit_val. destruct (_ && _) eqn:E; [|done].
  intros [= <-]. apply andb_true_iff in E as [?%Z.leb_le ?%Z.leb_le]. lia.
Qed.

Lemma digit_not_space c : is_digit c = true -> is_space c = false.
Proof.
  unfold is_digit, digit_val, is_space.
  destruct (_ && _) eqn:E; [|done]. intros _.
  apply andb_true_iff in E as [?%Z.leb_le ?%Z.leb_le].
  repeat (apply orb_false_iff; split); try apply andb_false_iff; lia.
Qed.

Lemma digit_not_int_space c : is_digit c = true -> is_int_space c = false.
Proof.
  unfold is_digit, digit_val, is_int_space.
  destruct (_ && _) eqn:E; [|done]. intros _.
  apply andb_true_iff in E as [?%Z.leb_le ?%Z.leb_le].
  repeat (apply orb_false_iff; split); try apply andb_false_iff; lia.
Qed.

Lemma digit_not_sign c :
  is_digit c = true -> c <> "-"%char /\ c <> "+"%char /\ c <> "_"%char.
Proof. intros H. repeat split; intros ->; discriminate H. Qed.

Lemma log2_div10 n : 10 <= n -> Z.log2 (n / 10) < Z.log2 n.
Proof.
  intros Hn. assert (0 < n / 10) by (apply Z.div_str_pos; lia).
  apply Z.log2_lt_pow2; [done|].
  pose proof (Z.log2_spec n ltac:(lia)) as [_ Hhi].
  rewrite Z.pow_succ_r in Hhi by apply Z.log2_nonneg.
  apply Z.div_lt_upper_bound; lia.
Qed.

Lemma digits_all_digit fuel n :
  0 <= n -> all_chars is_digit (digits fuel n) = true.
Proof.
  revert n. induction fuel as [|f IH]; intros n Hn; simpl; [done|].
  destruct (Z.ltb_spec n 10).
  - simpl. rewrite is_digit_digit_char by lia. done.
  - rewrite all_chars_app, IH by (apply Z.div_pos; lia). simpl.
    rewrite is_digit_digit_char; [done|]. apply Z.mod_pos_bound. lia.
Qed.

Lemma digits_nonempty fuel n : (0 < fuel)%nat -> (0 < String.length (digits fuel n))%nat.
Proof.
  destruct fuel as [|f]; [lia|]. intros _. simpl.
  destruct (n <? 10); simpl; [lia|]. rewrite length_append. simpl. lia.
Qed.

(** Upper bound: a number below [10^k] has at most [k] digits. *)
Lemma digits_length_le fuel n (k : nat) :
  0 <= n < 10 ^ Z.of_nat k -> (1 <= k)%nat ->
  (String.length (digits fuel n) <= k)%nat.
Proof.
  revert n k. induction fuel as [|f IH]; intros n k Hn Hk; simpl; [lia|].
  destruct (Z.ltb_spec n 10); simpl; [lia|].
  rewrite length_append. simpl.
  destruct k as [|k]; [lia|].
  destruct k as [|k]; [simpl in Hn; lia|].
  assert (String.length (digits f (n / 10)) <= S k)%nat; [|lia].
  apply IH; [|lia]. split; [apply Z.div_pos; lia|].
  apply Z.div_lt_upper_bound; [lia|].
  rewrite <- Z.pow_succ_r by lia. rewrite <- Nat2Z.inj_succ. lia.
Qed.

(** Lower bound, with enough fuel: a number from [10^k] on has more than
    [k] digits. *)
Lemma digits_length_gt fuel n (k : nat) :
  10 ^ Z.of_nat k <= n -> Z.log2 n < Z.of_nat fuel ->
  (k < String.length (digits fuel n))%nat.
Proof.
  revert n k. induction fuel as [|f IH]; intros n k Hn Hf.
  { pose proof (Z.log2_nonneg n). lia. }
  simpl. destruct (Z.ltb_spec n 10); simpl.
  - destruct k as [|k]; [lia|].
    assert (10 ^ 1 <= 10 ^ Z.of_nat (S k)) by (apply Z.pow_le_mono_r; lia). lia.
  - rewrite length_append. simpl. destruct k as [|k]; [lia|].
    assert (k < String.length (digits f (n / 10)))%nat; [|lia].
    apply IH.
    + apply Z.div_le_lower_bound; [lia|].
      rewrite <- Z.pow_succ_r by lia. rewrite <- Nat2Z.inj_succ. lia.
    + pose proof (log2_div10 n ltac:(lia)). lia.
Qed.

Lemma digits_fuel_enough n : Z.log2 n < Z.of_nat (digits_fuel n).
Proof. unfold digits_fuel. pose proof (Z.log2_nonneg n). lia. Qed.

(** ** Counting digits *)

Lemma digit_count_app s t : digit_count (s +:+ t) = (digit_count s + digit_count t)%nat.
Proof.
  induction s as [|c s IH]; simpl; [done|]. destruct (is_digit c); simpl; by rewrite IH.
Qed.

Lemma digit_count_le_length s : (digit_count s <= String.length s)%nat.
Proof. induction s as [|c s IH]; simpl; [done|]. destruct (is_digit c); lia. Qed.

Lemma digit_count_all_digit s :
  all_chars is_digit s = true -> digit_count s = String.length s.
Proof.
  induction s as [|c s IH]; simpl; [done|].
  intros [-> Hs]%andb_true_iff. by rewrite IH.
Qed.

Lemma digit_count_lstrip_by p s : (digit_count (lstrip_by p s) <= digit_count s)%nat.
Proof.
  induction s as [|c s IH]; simpl; [done|].
  destruct (p c); simpl; destruct (is_digit c); lia.
Qed.

Lemma digit_count_rstrip_by p s : (digit_count (rstrip_by p s) <= digit_count s)%nat.
Proof.
  induction s as [|c s IH]; simpl; [done|].
  destruct (p c && _); simpl; destruct (is_digit c); lia.
Qed.

Lemma digit_count_strip_by p s : (digit_count (strip_by p s) <= digit_count s)%nat.
Proof.
  unfold strip_by. pose proof (digit_count_rstrip_by p (lstrip_by p s)).
  pose proof (digit_count_lstrip_by p s). lia.
Qed.

Lemma MAX_STR_DIGITS_nonneg : 0 <= MAX_STR_DIGITS.
Proof. done. Qed.

Lemma str_limit_eq : str_limit = 10 ^ Z.of_nat (Z.to_nat MAX_STR_DIGITS).
Proof. unfold str_limit. by rewrite Z2Nat.id by apply MAX_STR_DIGITS_nonneg. Qed.

(** A number [str] prints has at most [MAX_STR_DIGITS] digits. *)
Lemma digits_within_limit fuel n :
  0 <= n < str_limit -> Z.of_nat (String.length (digits fuel n)) <= MAX_STR_DIGITS.
Proof.
  intros Hn. rewrite str_limit_eq in Hn.
  pose proof (digits_length_le fuel n (Z.to_nat MAX_STR_DIGITS) Hn) as H.
  assert (1 <= Z.to_nat MAX_STR_DIGITS)%nat as H1 by (vm_compute; lia).
  specialize (H H1). pose proof MAX_STR_DIGITS_nonneg.
  apply Nat2Z.inj_le in H. rewrite Z2Nat.id in H by done. exact H.
Qed.

Lemma digits_value_app s t acc :
  digits_value (s +:+ t) acc = digits_value t (digits_value s acc).
Proof. revert acc. induction s as [|c s IH]; intros acc; simpl; [done|]. apply IH. Qed.

Lemma digits_value_zeros k : digits_value (repeat_char "0" k) 0 = 0.
Proof. induction k as [|k IH]; simpl; [done|]. apply IH. Qed.

Lemma digits_value_digits fuel n :
  0 <= n -> Z.log2 n < Z.of_nat fuel -> digits_value (digits fuel n) 0 = n.
Proof.
  revert n. induction fuel as [|f IH]; intros n Hn Hf.
  { pose proof (Z.log2_nonneg n). lia. }
  simpl. destruct (Z.ltb_spec n 10).
  - simpl. rewrite digit_val_digit_char by lia. simpl. lia.
  - rewrite digits_value_app. simpl.
    rewrite digit_val_digit_char by (apply Z.mod_pos_bound; lia). simpl.
    rewrite IH.
    + pose proof (Z.div_mod n 10 ltac:(lia)). lia.
    + apply Z.div_pos; lia.
    + pose proof (log2_div10 n ltac:(lia)). lia.
Qed.

Lemma parse_digits_all_digit s acc b :
  all_chars is_digit s = true ->
  parse_digits s acc b =
    if b || negb (str_empty s) then Some (digits_value s acc) else None.
Proof.
  revert acc b. induction s as [|c s IH]; intros acc b; simpl.
  - intros _. by destruct b.
  - intros [Hc Hs]%andb_true_iff. unfold is_digit in Hc.
    destruct (digit_val c) as [d|] eqn:Hd; [|done]. simpl.
    rewrite IH by done. simpl. by rewrite orb_true_r.
Qed.

(** [int] reads a non-empty string of digits as its value. *)
Lemma int_literal_digits s :
  all_chars is_digit s = true -> str_empty s = false ->
  int_literal s = Some (digits_value s 0).
Proof.
  intros Hs Hne. unfold int_literal.
  rewrite strip_by_id by (eapply all_chars_impl; [|exact Hs];
    intros c Hc; by rewrite (digit_not_int_space c Hc)).
  destruct s as [|c r]; [done|].
  pose proof Hs as Hs'. simpl in Hs'. apply andb_true_iff in Hs' as [Hc _].
  destruct (digit_not_sign c Hc) as (Hm & Hp & _).
  destruct (ascii_dec c "-") as [->|_]; [done|].
  destruct (ascii_dec c "+") as [->|_]; [done|].
  by rewrite parse_digits_all_digit.
Qed.

Lemma int_literal_neg_digits s :
  all_chars is_digit s = true -> str_empty s = false ->
  int_literal (String "-" s) = Some (- digits_value s 0).
Proof.
  intros Hs Hne. unfold int_literal.
  rewrite strip_by_id.
  - simpl. rewrite parse_digits_all_digit by done. by rewrite Hne.
  - simpl. eapply all_chars_impl; [|exact Hs].
    intros c Hc; by rewrite (digit_not_int_space c Hc).
Qed.

Lemma int_of_str_literal s n : int_of_str s = Some n -> int_literal s = Some n.
Proof. unfold int_of_str. by destruct (_ <=? _). Qed.

Lemma int_of_str_within s :
  Z.of_nat (digit_count s) <= MAX_STR_DIGITS -> int_of_str s = int_literal s.
Proof. intros H. unfold int_of_str. by destruct (Z.leb_spec (Z.of_nat (digit_count s)) MAX_STR_DIGITS); [|lia]. Qed.

Lemma int_of_str_beyond s :
  MAX_STR_DIGITS < Z.of_nat (digit_count s) -> int_of_str s = None.
Proof. intros H. unfold int_of_str. by destruct (Z.leb_spec (Z.of_nat (digit_count s)) MAX_STR_DIGITS); [lia|]. Qed.

(** [int] of a non-empty string of digits: its value up to
    [MAX_STR_DIGITS] digits, a [ValueError] beyond. *)
Lemma int_of_str_digits s :
  all_chars is_digit s = true -> str_empty s = false ->
  int_of_str s =
    if Z.of_nat (String.length s) <=? MAX_STR_DIGITS then Some (digits_value s 0)
    else None.
Proof.
  intros Hs Hne. unfold int_of_str. rewrite (digit_count_all_digit s Hs).
  destruct (_ <=? _); [|done]. by apply int_literal_digits.
Qed.

Lemma str_empty_length s : str_empty s = false <-> (0 < String.length s)%nat.
Proof. destruct s; simpl; split; (done || lia). Qed.

Lemma str_empty_app s t : str_empty (s +:+ t) = str_empty s && str_empty t.
Proof. by destruct s. Qed.

(** The shape of a zero-filled number. *)
Lemma zfill_digits w s :
  all_chars is_digit s = true -> str_empty s = false ->
  exists k, zfill w s = repeat_char "0" k +:+ s.
Proof.
  intros Hs Hne. unfold zfill. destruct (w <=? String.length s)%nat.
  { by exists 0%nat. }
  destruct s as [|c r]; [done|].
  simpl in Hs. apply andb_true_iff in Hs as [Hc _].
  destruct (digit_not_sign c Hc) as (Hm & Hp & _).
  destruct (ascii_dec c "+"); [done|]. destruct (ascii_dec c "-"); [done|].
  by eexists.
Qed.

Lemma zfill_minus w s :
  exists k, zfill w (String "-" s) = String "-" (repeat_char "0" k +:+ s).
Proof.
  unfold zfill. destruct (w <=? String.length _)%nat.
  { by exists 0%nat. }
  simpl. by eexists.
Qed.

Lemma str_int_nonneg n : 0 <= n -> str_int n = digits (digits_fuel n) n.
Proof. intros H. unfold str_int. destruct (Z.ltb_spec n 0); [lia|done]. Qed.

Lemma str_int_neg n : n < 0 -> str_int n = String "-" (digits (digits_fuel (- n)) (- n)).
Proof. intros H. unfold str_int. destruct (Z.ltb_spec n 0); [done|lia]. Qed.

Lemma digits_str_empty n : str_empty (digits (digits_fuel n) n) = false.
Proof. apply str_empty_length, digits_nonempty. unfold digits_fuel. lia. Qed.

(** The literal [str(n).zfill(w)] denotes [n], for every integer and
    width. *)
Lemma int_literal_zfill_str w n : int_literal (zfill w (str_int n)) = Some n.
Proof.
  destruct (Z.lt_ge_cases n 0) as [Hneg|Hpos].
  - rewrite str_int_neg by done.
    destruct (zfill_minus w (digits (digits_fuel (- n)) (- n))) as [k ->].
    rewrite int_literal_neg_digits.
    + rewrite digits_value_app, digits_value_zeros,
        digits_value_digits by (lia || apply digits_fuel_enough).
      f_equal. lia.
    + rewrite all_chars_app, all_chars_repeat, andb_true_l by done.
      apply digits_all_digit. lia.
    + rewrite str_empty_app, digits_str_empty. apply andb_false_r.
  - rewrite str_int_nonneg by done.
    destruct (zfill_digits w (digits (digits_fuel n) n)) as [k ->].
    { by apply digits_all_digit. } { apply digits_str_empty. }
    rewrite int_literal_digits.
    + by rewrite digits_value_app, digits_value_zeros,
        digits_value_digits by (lia || apply digits_fuel_enough).
    + rewrite all_chars_app, all_chars_repeat, andb_true_l by done.
      by apply digits_all_digit.
    + rewrite str_empty_app, digits_str_empty. apply andb_false_r.
Qed.

Lemma int_literal_seat_str n : int_literal (seat_str n) = Some n.
Proof. apply int_literal_zfill_str. Qed.

Lemma seat_str_inj n m : seat_str n = seat_str m -> n = m.
Proof.
  intros H. pose proof (int_literal_seat_str n) as Hn.
  rewrite H, int_literal_seat_str in Hn. congruence.
Qed.

(** The digits of a seat string: its characters, a sign apart. *)
Lemma digit_count_seat_str n :
  Z.abs n < str_limit -> Z.of_nat (digit_count (seat_str n)) <= MAX_STR_DIGITS.
Proof.
  intros Hn. unfold seat_str.
  pose proof (length_zfill 6 (str_int n)) as Hlen.
  destruct (Z.lt_ge_cases n 0) as [Hneg|Hpos].
  - rewrite str_int_neg in * by done.
    pose proof (digits_within_limit (digits_fuel (- n)) (- n) ltac:(lia)) as Hd.
    destruct (zfill_minus 6 (digits (digits_fuel (- n)) (- n))) as [k Hk].
    rewrite Hk in *.
    change (digit_count (String "-" ?s)) with (digit_count s).
    change (String.length (String "-" ?s)) with (S (String.length s)) in Hlen.
    pose proof (digit_count_le_length (repeat_char "0" k +:+ digits (digits_fuel (- n)) (- n))).
    unfold MAX_STR_DIGITS in *. lia.
  - rewrite str_int_nonneg in * by done.
    pose proof (digits_within_limit (digits_fuel n) n ltac:(lia)) as Hd.
    pose proof (digit_count_le_length (zfill 6 (digits (digits_fuel n) n))).
    unfold MAX_STR_DIGITS in *. lia.
Qed.

(** [int(str(n).zfill(6)) = n] for every integer [str] prints. *)
Lemma int_of_seat_str n : Z.abs n < str_limit -> int_of_str (seat_str n) = Some n.
Proof.
  intros Hn. rewrite int_of_str_within by by apply digit_count_seat_str.
  apply int_literal_seat_str.
Qed.

(** The value of a literal is below [10 ^ d] for its [d] digits. *)
Lemma parse_digits_bound s acc b v :
  0 <= acc -> parse_digits s acc b = Some v ->
  0 <= v < (acc + 1) * 10 ^ Z.of_nat (digit_count s).
Proof.
  revert acc b. induction s as [|c s IH]; intros acc b Hacc; simpl.
  - destruct b; [|done]. intros [= <-]. lia.
  - unfold is_digit. destruct (digit_val c) as [d|] eqn:Hd.
    + intros Hv. pose proof (digit_val_bounds _ _ Hd).
      apply IH in Hv; [|lia]. rewrite Nat2Z.inj_succ, Z.pow_succ_r by lia.
      assert (0 < 10 ^ Z.of_nat (digit_count s)) by (apply Z.pow_pos_nonneg; lia).
      nia.
    + destruct (ascii_dec c "_"); [|done]. destruct b; [|done]. by apply IH.
Qed.

Lemma int_literal_bound s n :
  int_literal s = Some n -> Z.abs n < 10 ^ Z.of_nat (digit_count s).
Proof.
  unfold int_literal. pose proof (digit_count_strip_by is_int_space s) as Hle.
  destruct (strip_by is_int_space s) as [|c r] eqn:Hs; [done|].
  assert (10 ^ Z.of_nat (digit_count (String c r)) <= 10 ^ Z.of_nat (digit_count s))
    as Hpow by (apply Z.pow_le_mono_r; lia).
  assert (forall t v, parse_digits t 0 false = Some v ->
            (digit_count t <= digit_count (String c r))%nat ->
            0 <= v < 10 ^ Z.of_nat (digit_count s)) as Hb.
  { intros t v Hv Ht. apply parse_digits_bound in Hv; [|lia].
    assert (10 ^ Z.of_nat (digit_count t) <= 10 ^ Z.of_nat (digit_count (String c r)))
      by (apply Z.pow_le_mono_r; lia). lia. }
  assert (digit_count r <= digit_count (String c r))%nat as Hr
    by (simpl; destruct (is_digit c); lia).
  destruct (ascii_dec c "-"); [|destruct (ascii_dec c "+")].
  - destruct (parse_digits r 0 false) as [v|] eqn:Hv; [|done].
    intros [= <-]. specialize (Hb r v Hv Hr). lia.
  - intros Hv. specialize (Hb r n Hv Hr). lia.
  - intros Hv. specialize (Hb _ n Hv ltac:(lia)). lia.
Qed.

(** What [int] returns, [str] prints. *)
Lemma int_of_str_prints s n : int_of_str s = Some n -> Z.abs n < str_limit.
Proof.
  unfold int_of_str. destruct (Z.leb_spec (Z.of_nat (digit_count s)) MAX_STR_DIGITS); [|done].
  intros Hn%int_literal_bound. unfold str_limit.
  assert (10 ^ Z.of_nat (digit_count s) <= 10 ^ MAX_STR_DIGITS)
    by (apply Z.pow_le_mono_r; lia). lia.
Qed.

Lemma length_str_int_nonneg n (k : nat) :
  0 <= n -> (String.length (str_int n) <= k)%nat <-> n < 10 ^ Z.of_nat k /\ (1 <= k)%nat.
Proof.
  intros Hn. rewrite str_int_nonneg by done. split.
  - intros Hlen. split.
    + destruct (Z.lt_ge_cases n (10 ^ Z.of_nat k)) as [|Hge]; [done|].
      pose proof (digits_length_gt _ n k Hge (digits_fuel_enough n)). lia.
    + pose proof (digits_nonempty (digits_fuel n) n). unfold digits_fuel in *. lia.
  - intros [Hlt Hk]. by apply digits_length_le.
Qed.

(** A seat string has at least six characters, and exactly six for the
    numbers from -99999 to 999999. *)
Lemma length_seat_str_ge n : (6 <= String.length (seat_str n))%nat.
Proof. unfold seat_str. rewrite length_zfill. lia. Qed.

Lemma length_seat_str n :
  String.length (seat_str n) = 6%nat <-> -99999 <= n <= 999999.
Proof.
  unfold seat_str. rewrite length_zfill.
  destruct (Z.lt_ge_cases n 0) as [Hneg|Hpos].
  - rewrite str_int_neg by done.
    pose proof (length_str_int_nonneg (- n) 5 ltac:(lia)) as H.
    rewrite str_int_nonneg in H by lia.
    change (10 ^ Z.of_nat 5) with 100000 in H.
    change (String.length (String "-" ?s)) with (S (String.length s)).
    lia.
  - pose proof (length_str_int_nonneg n 6 Hpos) as H.
    change (10 ^ Z.of_nat 6) with 1000000 in H. lia.
Qed.

(** ** The seat enumeration *)

Lemma filter_all {A} (P : A -> Prop) `{forall x, Decision (P x)} (l : list A) :
  (forall x, P x) -> filter P l = l.
Proof.
  intros HP. induction l as [|x l IH]; [done|].
  by rewrite filter_cons_True, IH.
Qed.

Lemma seats_nothing_seen start end_ :
  seats start end_ ∅ = seat_str <$> seqZ start (end_ + 1 - start).
Proof.
  unfold seats, py_range. f_equal. apply filter_all. intros s. set_solver.
Qed.

Lemma elem_of_seats start end_ seen s :
  s ∈ seats start end_ seen <->
  exists n, s = seat_str n /\ start <= n <= end_ /\ s ∉ seen.
Proof.
  unfold seats, py_range. rewrite list_elem_of_fmap. split.
  - intros (n & -> & Hn). apply list_elem_of_filter in Hn as [Hseen Hn].
    apply elem_of_seqZ in Hn. exists n. repeat split; (done || lia).
  - intros (n & -> & Hn & Hseen). exists n. split; [done|].
    apply list_elem_of_filter. split; [done|]. apply elem_of_seqZ. lia.
Qed.

(** C1 (amended): for bounds with [start <= end_], a run that has seen
    nothing enumerates the numbers from [start] to [end_] in ascending
    order, one string [str(s).zfill(6)] each, [end_ - start + 1] of them.
    Each string denotes its number, has at least six characters, and has
    exactly six precisely for the numbers from -99999 to 999999. *)
Theorem seats_ascending_inclusive (start end_ : Z) :
  start <= end_ ->
  length (seats start end_ ∅) = Z.to_nat (end_ - start + 1)
  /\ (forall i : nat, Z.of_nat i <= end_ - start ->
        seats start end_ ∅ !! i = Some (seat_str (start + Z.of_nat i)))
  /\ (forall s, s ∈ seats start end_ ∅ ->
        exists n, start <= n <= end_ /\ s = zfill 6 (str_int n)
                  /\ int_literal s = Some n
                  /\ (6 <= String.length s)%nat
                  /\ (String.length s = 6%nat <-> -99999 <= n <= 999999)).
Proof.
  intros Hle. rewrite seats_nothing_seen. repeat split.
  - rewrite length_fmap, length_seqZ. f_equal. lia.
  - intros i Hi. rewrite list_lookup_fmap, lookup_seqZ_lt by lia. done.
  - intros s (n & -> & Hn)%list_elem_of_fmap. apply elem_of_seqZ in Hn.
    exists n. split; [lia|]. split; [done|]. split; [apply int_literal_seat_str|].
    split; [apply length_seat_str_ge|apply length_seat_str].
Qed.

Lemma seats_ascending_inclusive_witness :
  3 <= 6 /\ length (seats 3 6 ∅) = 4%nat /\ seats 3 6 ∅ !! 1%nat = Some "000004".
Proof.
  assert (3 <= 6) as Hle by lia.
  destruct (seats_ascending_inclusive 3 6 Hle) as (Hlen & Hnth & _).
  split; [exact Hle|]. split; [exact Hlen|]. apply (Hnth 1%nat); simpl; lia.
Defined.

(** C1 fails as stated: a seat string is not always of six characters,
    the number 1000000 is enumerated as a string of seven. *)
Lemma seat_of_seven_digits_has_seven_characters :
  seats 1000000 1000000 ∅ = ["1000000"]
  /\ String.length "1000000" <> 6%nat.
Proof. split; by vm_compute. Qed.

(** The bounds the script is configured with: the start lies above the
    end, and [range(START_SEAT, END_SEAT + 1)] is empty. *)
Lemma configured_range_is_empty :
  END_SEAT < START_SEAT /\ seats START_SEAT END_SEAT ∅ = [].
Proof. split; by vm_compute. Qed.

(** ** The prior-result loader *)

Lemma load_row_eq hdr c st row :
  load_row hdr c st row =
    match row_code c row with
    | None => st
    | Some n => Loaded (existing st ++ [row_record hdr row])
                       ({[ seat_str n ]} ∪ seen_codes st)
    end.
Proof.
  unfold load_row, row_code.
  destruct (Nat.leb_spec (length row) c) as [Hshort|Hlong].
  - by rewrite (lookup_ge_None_2 row c) by lia.
  - destruct (row !! c) as [v|]; simpl; [|done].
    unfold code_of_cell, str_of_int, seat_str.
    destruct v as [|n|s]; simpl; [done| |].
    + by destruct (Z.abs n <? str_limit).
    + destruct (int_of_str s) as [n|]; simpl; [|done].
      by destruct (Z.abs n <? str_limit).
Qed.

(** A string cell counts whenever [int] accepts it: what [int] returns,
    [str] prints. *)
Lemma code_of_cell_str s : code_of_cell (VStr s) = int_of_str s.
Proof.
  unfold code_of_cell. simpl. destruct (int_of_str s) as [n|] eqn:Hn; simpl; [|done].
  apply int_of_str_prints in Hn. by destruct (Z.ltb_spec (Z.abs n) str_limit); [|lia].
Qed.

Lemma code_of_cell_py_int v n : code_of_cell v = Some n -> py_int v = Some n.
Proof.
  unfold code_of_cell. destruct (py_int v) as [m|]; simpl; [|done].
  by destruct (_ <? _); intros [= <-].
Qed.

Lemma load_rows_fold hdr c rows st :
  let st' := fold_left (load_row hdr c) rows st in
  existing st' =
    existing st ++ (row_record hdr <$> filter (fun row => is_Some (row_code c row)) rows)
  /\ seen_codes st' =
    seen_codes st ∪ list_to_set (seat_str <$> omap (row_code c) rows).
Proof.
  revert st. induction rows as [|row rows IH]; intros st; simpl.
  { split; [by rewrite app_nil_r|set_solver]. }
  destruct (IH (load_row hdr c st row)) as [IH1 IH2].
  rewrite IH1, IH2, load_row_eq. clear IH IH1 IH2.
  destruct (row_code c row) as [n|] eqn:Hrow; simpl.
  - rewrite filter_cons_True by (by rewrite Hrow).
    rewrite fmap_cons, <- app_assoc. split; [done|]. set_solver.
  - rewrite filter_cons_False by (rewrite Hrow; by intros [??]). done.
Qed.

Lemma find_code_col_from hs idx c :
  find_code_col hs idx = Some c <->
  exists j h, c = (idx + j)%nat /\ hs !! j = Some h /\ is_code_header h = true
              /\ forall i h', (i < j)%nat -> hs !! i = Some h' -> is_code_header h' = false.
Proof.
  revert idx. induction hs as [|h hs IH]; intros idx; simpl.
  { split; [done|]. by intros (j & h & _ & ? & _). }
  destruct (is_code_header h) eqn:Hh.
  - split.
    + intros [= <-]. exists 0%nat, h. repeat split; [lia|done|lia].
    + intros (j & h' & -> & Hj & Hh' & Hfirst). destruct j as [|j]; [f_equal; lia|].
      specialize (Hfirst 0%nat h ltac:(lia) eq_refl). congruence.
  - rewrite IH. split.
    + intros (j & h' & -> & Hj & Hh' & Hfirst). exists (S j), h'.
      repeat split; [lia|done|done|].
      intros [|i] h'' Hi Hlook; simpl in Hlook; [congruence|].
      eapply Hfirst; [|done]. lia.
    + intros (j & h' & -> & Hj & Hh' & Hfirst). destruct j as [|j].
      { simpl in Hj. congruence. }
      exists j, h'. repeat split; [lia|done|done|].
      intros i h'' Hi Hlook. apply (Hfirst (S i) h''); [lia|done].
Qed.

Lemma find_code_col_None hs idx :
  find_code_col hs idx = None <-> forall h, h ∈ hs -> is_code_header h = false.
Proof.
  revert idx. induction hs as [|h hs IH]; intros idx; simpl.
  { split; [|done]. intros _ h Hh. by apply elem_of_nil in Hh. }
  destruct (is_code_header h) eqn:Hh.
  - split; [done|]. intros H. specialize (H h ltac:(left)). congruence.
  - rewrite IH. split.
    + intros H h' [->|Hin]%elem_of_cons; auto.
    + intros H h' Hin. apply H. by right.
Qed.

(** A header that reads [code] once trimmed and lowered is a non-empty
    string: the truth test in front of the comparison never decides. *)
Lemma is_code_header_eq h :
  is_code_header h = bool_decide (lower (strip (py_str h)) = "code").
Proof.
  unfold is_code_header. destruct h as [|n|s]; simpl.
  - done.
  - destruct (Z.eqb_spec n 0) as [->|]; [done|]. done.
  - by destruct s.
Qed.

(** C7: when the code column is found (it is the first column whose
    header reads [code] once trimmed and lowered), the loader keeps
    exactly the data rows that reach that column with a cell on which
    [str(int(code))] goes through: the prior records are those rows, in
    order, each zipped against the header row, and the seen-set holds
    exactly their codes as [str(int(code)).zfill(6)].  A row that stops
    before the code column, and a row whose code cell is empty or
    something [int] refuses, adds nothing to either; a row whose code
    cell [int] accepts is kept ([str] prints the integer: what [int]
    reads from a string has at most 4300 digits, as has every integer
    a sheet is read with). *)
Theorem loader_keeps_rows_with_integer_code (sh : sheet) (code_col : nat) :
  find_code_col (header_row sh) 0 = Some code_col ->
  let st := (load_existing (Some sh)).1 in
  let kept := filter (fun row => is_Some (row_code code_col row)) (data_rows sh) in
  (exists h, header_row sh !! code_col = Some h
             /\ lower (strip (py_str h)) = "code")
  /\ existing st = (fun row => dict_of_pairs (zip (header_row sh) row)) <$> kept
  /\ (forall s, s ∈ seen_codes st <->
        exists row n, row ∈ data_rows sh /\ row_code code_col row = Some n
                      /\ s = zfill 6 (str_int n))
  /\ (forall row, (length row <= code_col)%nat -> row ∉ kept)
  /\ (forall row v, row !! code_col = Some v -> py_int v = None -> row ∉ kept)
  /\ (forall row v n, row ∈ data_rows sh -> row !! code_col = Some v ->
        py_int v = Some n -> Z.abs n < str_limit ->
        row ∈ kept /\ row_code code_col row = Some n)
  /\ (forall s n, int_of_str s = Some n -> Z.abs n < str_limit)
  /\ (forall n, 0 <= n <= 999999 -> String.length (zfill 6 (str_int n)) = 6%nat).
Proof.
  intros Hcol st kept. subst st. unfold load_existing. rewrite Hcol. simpl.
  destruct (load_rows_fold (header_row sh) code_col (data_rows sh) nothing_loaded)
    as [Hex Hseen].
  split; [|split; [|split; [|split; [|split; [|split; [|split]]]]]].
  - apply find_code_col_from in Hcol as (j & h & -> & Hj & Hh & _).
    exists h. split; [done|]. rewrite is_code_header_eq in Hh.
    by apply bool_decide_eq_true in Hh.
  - rewrite Hex. done.
  - intros s. rewrite Hseen. simpl. rewrite elem_of_union, elem_of_list_to_set.
    rewrite list_elem_of_fmap. setoid_rewrite list_elem_of_omap. split.
    + intros [[]%elem_of_empty|(n & -> & row & Hrow & Hn)]. by exists row, n.
    + intros (row & n & Hrow & Hn & ->). right. exists n. split; [done|]. by exists row.
  - intros row Hshort [Hkept _]%list_elem_of_filter.
    unfold row_code in Hkept. rewrite (lookup_ge_None_2 row code_col) in Hkept by lia.
    simpl in Hkept. by destruct Hkept.
  - intros row v Hv Hint [Hkept _]%list_elem_of_filter.
    unfold row_code in Hkept. rewrite Hv in Hkept. simpl in Hkept.
    unfold code_of_cell in Hkept. rewrite Hint in Hkept. by destruct Hkept.
  - intros row v n Hrow Hv Hint Hn.
    assert (row_code code_col row = Some n) as Hcode.
    { unfold row_code. rewrite Hv. simpl. unfold code_of_cell. rewrite Hint. simpl.
      by destruct (Z.ltb_spec (Z.abs n) str_limit); [|lia]. }
    split; [|done]. apply list_elem_of_filter. by rewrite Hcode.
  - apply int_of_str_prints.
  - intros n Hn. apply length_seat_str. lia.
Qed.

Lemma loader_keeps_rows_with_integer_code_witness :
  existing (load_existing (Some sheet_with_bad_rows)).1 =
    [[(VStr "name", VStr "x"); (VStr " Code ", VInt 5)];
     [(VStr "name", VStr "v"); (VStr " Code ", VStr "12")]]
  /\ "000005" ∈ seen_codes (load_existing (Some sheet_with_bad_rows)).1.
Proof.
  destruct (loader_keeps_rows_with_integer_code sheet_with_bad_rows 1)
    as (_ & Hex & Hseen & _); [reflexivity|].
  split.
  - rewrite Hex. reflexivity.
  - apply Hseen. exists [VStr "x"; VInt 5], 5. split; [|split; reflexivity].
    unfold sheet_with_bad_rows; simpl. left.
Defined.

(** C8: when no header of the existing file reads [code] once trimmed
    and lowered, the loader prints its warning, keeps no prior record and
    an empty seen-set, so that every seat of the range is scheduled. *)
Theorem loader_without_code_column (sh : sheet) (start end_ : Z) :
  (forall h, h ∈ header_row sh -> lower (strip (py_str h)) <> "code") ->
  load_existing (Some sh) = (Loaded [] ∅, [warn_no_code_column])
  /\ seats start end_ (seen_codes (load_existing (Some sh)).1)
     = seat_str <$> py_range start (end_ + 1).
Proof.
  intros Hno.
  assert (find_code_col (header_row sh) 0 = None) as Hnone.
  { apply find_code_col_None. intros h Hh. rewrite is_code_header_eq.
    apply bool_decide_eq_false. by apply Hno. }
  unfold load_existing. rewrite Hnone. split; [done|].
  simpl. by rewrite seats_nothing_seen.
Qed.

Lemma loader_without_code_column_witness :
  load_existing (Some sheet_without_code) = (Loaded [] ∅, [warn_no_code_column])
  /\ seats 7 8 (seen_codes (load_existing (Some sheet_without_code)).1)
     = ["000007"; "000008"].
Proof.
  destruct (loader_without_code_column sheet_without_code 7 8) as [H1 H2].
  - intros h Hh. unfold sheet_without_code in Hh; simpl in Hh.
    repeat (apply elem_of_cons in Hh as [->|Hh]; [by vm_compute|]).
    by apply elem_of_nil in Hh.
  - split; [exact H1|]. rewrite H2. reflexivity.
Defined.

(** ** Dicts *)

Lemma dict_get_set_eq d k v : dict_get (dict_set d k v) k = Some v.
Proof.
  induction d as [|[k' v'] d IH]; simpl.
  - by rewrite decide_True.
  - destruct (decide (k' = k)) as [->|Hne]; simpl.
    + by rewrite decide_True.
    + by rewrite decide_False.
Qed.

Lemma dict_get_set_ne d k k' v : k <> k' -> dict_get (dict_set d k v) k' = dict_get d k'.
Proof.
  intros Hne. induction d as [|[k0 v0] d IH]; simpl.
  - by rewrite decide_False.
  - destruct (decide (k0 = k)) as [->|Hne0]; simpl.
    + by rewrite !decide_False.
    + destruct (decide (k0 = k')); [done|apply IH].
Qed.

Lemma keys_dict_set d k v k' : k' ∈ keys (dict_set d k v) <-> k' = k \/ k' ∈ keys d.
Proof.
  unfold keys. induction d as [|[k0 v0] d IH]; simpl.
  - rewrite list_elem_of_singleton. set_solver.
  - destruct (decide (k0 = k)) as [->|Hne]; simpl.
    + set_solver.
    + rewrite !elem_of_cons, IH. tauto.
Qed.

Lemma dict_get_is_Some d k : is_Some (dict_get d k) <-> k ∈ keys d.
Proof.
  unfold keys. induction d as [|[k0 v0] d IH]; simpl.
  - split; [by intros [??]|by intros ?%elem_of_nil].
  - destruct (decide (k0 = k)) as [->|Hne].
    + split; [left|eauto].
    + rewrite IH, elem_of_cons. naive_solver.
Qed.

(** ** The table rows *)

Lemma add_row_keyed d c0 c1 :
  add_row d [c0; c1] = dict_set d (VStr (strip (before_first "/" c0))) (VStr c1).
Proof. done. Qed.

Lemma add_row_get_other d cols k :
  row_key cols <> Some k -> dict_get (add_row d cols) (VStr k) = dict_get d (VStr k).
Proof.
  intros Hk. destruct cols as [|c0 [|c1 [|c2 cols]]]; try done.
  simpl in *. apply dict_get_set_ne. congruence.
Qed.

Lemma add_rows_get_other rows d k :
  (forall cols, cols ∈ rows -> row_key cols <> Some k) ->
  dict_get (fold_left add_row rows d) (VStr k) = dict_get d (VStr k).
Proof.
  revert d. induction rows as [|cols rows IH]; intros d Hrows; simpl; [done|].
  rewrite IH by (intros; apply Hrows; by right).
  apply add_row_get_other, Hrows. left.
Qed.

(** The last two-column row with a given key decides the value. *)
Lemma add_rows_get_last before c0 c1 after d :
  (forall cols, cols ∈ after -> row_key cols <> row_key [c0; c1]) ->
  dict_get (fold_left add_row (before ++ [c0; c1] :: after) d)
           (VStr (strip (before_first "/" c0))) = Some (VStr c1).
Proof.
  intros Hafter. rewrite fold_left_app. simpl fold_left.
  rewrite add_rows_get_other by done.
  apply dict_get_set_eq.
Qed.

Lemma add_rows_keys rows d k :
  k ∈ keys (fold_left add_row rows d) ->
  k ∈ keys d \/ exists s, k = VStr s.
Proof.
  revert d. induction rows as [|cols rows IH]; intros d; simpl; [auto|].
  intros [Hk|Hk]%IH; [|auto].
  destruct cols as [|c0 [|c1 [|c2 cols]]]; simpl in Hk; auto.
  apply keys_dict_set in Hk as [->|Hk]; eauto.
Qed.

Lemma add_rows_keeps rows d k :
  k ∈ keys d -> k ∈ keys (fold_left add_row rows d).
Proof.
  revert d. induction rows as [|cols rows IH]; intros d Hk; simpl; [done|].
  apply IH. destruct cols as [|c0 [|c1 [|c2 cols]]]; simpl; auto.
  apply keys_dict_set. auto.
Qed.

(** ** The code a response asserts *)

Lemma take_digits_all_digit s : all_chars is_digit (take_digits s) = true.
Proof.
  induction s as [|c s IH]; simpl; [done|].
  destruct (is_digit c) eqn:Hc; simpl; [by rewrite Hc|done].
Qed.

Lemma re_search_digits_Some s m :
  re_search_digits s = Some m -> all_chars is_digit m = true /\ str_empty m = false.
Proof.
  induction s as [|c s IH]; simpl; [done|].
  destruct (is_digit c) eqn:Hc; [|done].
  intros [= <-]. split; [|done].
  simpl. rewrite Hc. apply take_digits_all_digit.
Qed.

Lemma asserted_code_digits sec :
  asserted_code sec = (fun m => digits_value m 0) <$> asserted_digits sec.
Proof.
  unfold asserted_code, asserted_digits.
  destruct (find_code_span sec) as [span|]; simpl; [|done].
  by destruct (re_search_digits (get_text span)).
Qed.

Lemma asserted_digits_Some sec m :
  asserted_digits sec = Some m -> all_chars is_digit m = true /\ str_empty m = false.
Proof.
  unfold asserted_digits. destruct (find_code_span sec) as [span|]; simpl; [|done].
  apply re_search_digits_Some.
Qed.

(** The code of a response: the asserted digits when [int] takes them,
    a [ValueError] when they are more than [MAX_STR_DIGITS], the
    requested seat when nothing is asserted. *)
Lemma resolve_code_eq requested sec :
  resolve_code requested sec =
    match asserted_digits sec with
    | Some m =>
        if Z.of_nat (String.length m) <=? MAX_STR_DIGITS
        then inl (digits_value m 0) else inr (int_error m)
    | None => inl requested
    end.
Proof.
  unfold resolve_code, asserted_digits.
  destruct (find_code_span sec) as [span|]; simpl; [|done].
  destruct (re_search_digits (get_text span)) as [m|] eqn:Hm; simpl; [|done].
  apply re_search_digits_Some in Hm as [Hd Hne]. rewrite int_of_str_digits by done.
  by destruct (_ <=? _).
Qed.

Lemma resolve_code_inl requested sec code :
  resolve_code requested sec = inl code ->
  code = default requested (asserted_code sec).
Proof.
  rewrite resolve_code_eq, asserted_code_digits.
  destruct (asserted_digits sec) as [m|]; simpl.
  - destruct (_ <=? _); congruence.
  - congruence.
Qed.

Lemma resolve_code_within requested sec :
  (forall m, asserted_digits sec = Some m ->
             Z.of_nat (String.length m) <= MAX_STR_DIGITS) ->
  resolve_code requested sec = inl (default requested (asserted_code sec)).
Proof.
  intros H. rewrite resolve_code_eq, asserted_code_digits.
  destruct (asserted_digits sec) as [m|]; simpl; [|done].
  specialize (H m eq_refl).
  by destruct (Z.leb_spec (Z.of_nat (String.length m)) MAX_STR_DIGITS); [|lia].
Qed.

Lemma resolve_code_beyond requested sec m :
  asserted_digits sec = Some m -> MAX_STR_DIGITS < Z.of_nat (String.length m) ->
  resolve_code requested sec = inr (int_error m).
Proof.
  intros Hm Hlen. rewrite resolve_code_eq, Hm.
  by destruct (Z.leb_spec (Z.of_nat (String.length m)) MAX_STR_DIGITS); [lia|].
Qed.

(** ** What a section asserts, stated on the document *)

Lemma labelled_span_iff n :
  labelled_span n <-> has_tag "span" n && code_label n = true.
Proof.
  unfold labelled_span, code_label. split.
  - intros (attrs & contents & t & -> & Ht & Hne & Hc).
    rewrite Ht, Hc. destruct t; [done|]. vm_compute. reflexivity.
  - intros [Htag Hlab]%andb_true_iff.
    destruct n as [s|tag attrs contents]; [done|].
    simpl in Htag. apply bool_decide_eq_true in Htag as ->.
    destruct (node_string (Elem "span" attrs contents)) as [t|] eqn:Ht; [|done].
    apply andb_true_iff in Hlab as [Hne Hc].
    exists attrs, contents, t. repeat split; try done. by intros ->.
Qed.

Lemma head_filter_Some {A} (p : A -> bool) (l : list A) (x : A) :
  head (List.filter p l) = Some x <->
  exists before after,
    l = before ++ x :: after /\ (forall n, n ∈ before -> p n = false) /\ p x = true.
Proof.
  induction l as [|y l IH]; simpl.
  - split; [done|]. intros (before & after & Hl & _). by destruct before.
  - destruct (p y) eqn:Hy; simpl.
    + split.
      * intros [= ->]. exists [], l. split; [done|]. split; [|done].
        by intros n ?%elem_of_nil.
      * intros (before & after & Hl & Hb & Hx). destruct before as [|b before].
        { by injection Hl as -> _. }
        injection Hl as -> _. specialize (Hb b ltac:(left)). congruence.
    + rewrite IH. split.
      * intros (before & after & -> & Hb & Hx). exists (y :: before), after.
        split; [done|]. split; [|done]. by intros n [->|?]%elem_of_cons; auto.
      * intros (before & after & Hl & Hb & Hx). destruct before as [|b before].
        { injection Hl as -> _. congruence. }
        injection Hl as -> ->. exists before, after. split; [done|]. split; [|done].
        intros n Hn. apply Hb. by right.
Qed.

Lemma head_filter_None {A} (p : A -> bool) (l : list A) :
  head (List.filter p l) = None <-> forall n, n ∈ l -> p n = false.
Proof.
  induction l as [|y l IH]; simpl.
  - split; [|done]. by intros _ n ?%elem_of_nil.
  - destruct (p y) eqn:Hy; simpl.
    + split; [done|]. intros H. specialize (H y ltac:(left)). congruence.
    + rewrite IH. split.
      * by intros H n [->|?]%elem_of_cons; auto.
      * intros H n Hn. apply H. by right.
Qed.

Lemma take_digits_run m post :
  all_chars is_digit m = true ->
  (forall c r, post = String c r -> is_digit c = false) ->
  take_digits (m +:+ post) = m.
Proof.
  intros Hm Hpost. induction m as [|c m IH]; simpl in *.
  - destruct post as [|c r]; [done|]. simpl. by rewrite (Hpost c r eq_refl).
  - apply andb_true_iff in Hm as [Hc Hm]. rewrite Hc. by rewrite IH.
Qed.

Lemma take_digits_split s :
  exists post, s = take_digits s +:+ post
    /\ forall c r, post = String c r -> is_digit c = false.
Proof.
  induction s as [|c s (post & IH & Hpost)]; simpl.
  - exists EmptyString. split; [done|]. by intros c r.
  - destruct (is_digit c) eqn:Hc.
    + exists post. split; [|done]. change (String c s = String c (take_digits s +:+ post)).
      by f_equal.
    + exists (String c s). split; [done|]. by intros c' r [= <- _].
Qed.

Lemma re_search_digits_run text m :
  re_search_digits text = Some m <-> first_digit_run text m.
Proof.
  unfold first_digit_run. split.
  - induction text as [|c text IH]; simpl; [done|].
    destruct (is_digit c) eqn:Hc.
    + intros [= <-]. destruct (take_digits_split text) as (post & Htext & Hpost).
      exists EmptyString, post.
      split; [change (String c text = String c (take_digits text +:+ post)); by f_equal|].
      split; [done|].
      split; [simpl; by rewrite Hc, take_digits_all_digit|]. by split.
    + intros (pre & post & -> & Hpre & Hm)%IH.
      exists (String c pre), post. split; [done|]. split; [|done].
      simpl. by rewrite Hc.
  - intros (pre & post & -> & Hpre & Hm & Hne & Hpost).
    induction pre as [|c pre IH]; simpl in *.
    + destruct m as [|c m]; [done|]. simpl in *.
      apply andb_true_iff in Hm as [Hc Hm]. rewrite Hc. f_equal. f_equal.
      by apply take_digits_run.
    + apply andb_true_iff in Hpre as [Hc Hpre]. apply negb_true_iff in Hc.
      rewrite Hc. by apply IH.
Qed.

Lemma re_search_digits_None text :
  re_search_digits text = None <->
  all_chars (fun c => negb (is_digit c)) text = true.
Proof.
  induction text as [|c text IH]; simpl; [done|].
  destruct (is_digit c); simpl; [done|]. exact IH.
Qed.

Lemma find_code_span_Some sec span :
  find_code_span sec = Some span <->
  exists before after,
    descendants sec = before ++ span :: after
    /\ (forall n, n ∈ before -> ~ labelled_span n) /\ labelled_span span.
Proof.
  unfold find_code_span. rewrite head_filter_Some.
  split; intros (before & after & Hd & Hb & Hs); exists before, after;
    (split; [done|]); (split; [|by apply labelled_span_iff]);
    intros n Hn; specialize (Hb n Hn).
  - rewrite labelled_span_iff. by rewrite Hb.
  - rewrite labelled_span_iff in Hb. by apply not_true_is_false.
Qed.

(** The worker's search and the statement on the document agree. *)
Lemma asserts_digits sec a : asserts sec a <-> asserted_digits sec = a.
Proof.
  unfold asserted_digits. destruct a as [m|]; simpl.
  - split.
    + intros (before & span & after & Hd & Hb & Hs & Hm).
      assert (find_code_span sec = Some span) as ->
        by (apply find_code_span_Some; eauto).
      simpl. by apply re_search_digits_run.
    + destruct (find_code_span sec) as [span|] eqn:Hspan; simpl; [|done].
      intros Hm%re_search_digits_run.
      apply find_code_span_Some in Hspan as (before & after & Hd & Hb & Hs).
      by exists before, span, after.
  - split.
    + intros [Hnone|(before & span & after & Hd & Hb & Hs & Hm)].
      * assert (find_code_span sec = None) as ->; [|done].
        apply head_filter_None. intros n Hn. apply not_true_is_false.
        rewrite <- labelled_span_iff. by apply Hnone.
      * assert (find_code_span sec = Some span) as ->
          by (apply find_code_span_Some; eauto).
        simpl. by apply re_search_digits_None.
    + destruct (find_code_span sec) as [span|] eqn:Hspan; simpl.
      * intros Hm%re_search_digits_None.
        apply find_code_span_Some in Hspan as (before & after & Hd & Hb & Hs).
        right. by exists before, span, after.
      * intros _. left. intros n Hn Hlab.
        unfold find_code_span in Hspan.
        pose proof (proj1 (head_filter_None _ _) Hspan n Hn) as Hf.
        apply labelled_span_iff in Hlab. congruence.
Qed.

Lemma resolve_code_asserts requested sec :
  (forall m, asserts sec (Some m) -> Z.of_nat (String.length m) <= MAX_STR_DIGITS) ->
  resolve_code requested sec = inl (default requested (asserted_code sec)).
Proof.
  intros H. apply resolve_code_within. intros m Hm. by apply H, asserts_digits.
Qed.

(** ** One attempt *)

Lemma parse_page_no_section seat soup :
  find_section soup = None -> parse_page seat soup = Return None.
Proof. intros H. unfold parse_page. by rewrite H. Qed.

Lemma parse_page_no_table seat soup sec requested code :
  find_section soup = Some sec -> int_of_str seat = Some requested ->
  resolve_code requested sec = inl code ->
  find "table" sec = None -> parse_page seat soup = Return None.
Proof.
  intros Hsec Hseat Hcode Htab. unfold parse_page.
  by rewrite Hsec, Hseat, Hcode, Htab.
Qed.

Lemma parse_page_record seat soup sec requested code table :
  find_section soup = Some sec -> int_of_str seat = Some requested ->
  resolve_code requested sec = inl code ->
  find "table" sec = Some table ->
  parse_page seat soup =
    Return (Some (fold_left add_row (table_rows table)
                    [(k_name, VStr (display_name sec));
                     (k_code, VInt (default requested (asserted_code sec)))])).
Proof.
  intros Hsec Hseat Hcode Htab. unfold parse_page, display_name.
  rewrite Hsec, Hseat, Hcode, Htab. by rewrite (resolve_code_inl _ _ _ Hcode).
Qed.

(** Every record a page yields comes from a section with a table. *)
Lemma parse_page_Some seat soup rec :
  parse_page seat soup = Return (Some rec) ->
  exists sec requested table,
    find_section soup = Some sec /\ int_of_str seat = Some requested
    /\ resolve_code requested sec = inl (default requested (asserted_code sec))
    /\ find "table" sec = Some table
    /\ rec = fold_left add_row (table_rows table)
               [(k_name, VStr (display_name sec));
                (k_code, VInt (default requested (asserted_code sec)))].
Proof.
  unfold parse_page, display_name.
  destruct (find_section soup) as [sec|] eqn:Hsec; [|done].
  destruct (int_of_str seat) as [requested|] eqn:Hseat; [|done].
  destruct (resolve_code requested sec) as [code|err] eqn:Hcode; [|done].
  destruct (find "table" sec) as [table|] eqn:Htab; [|done].
  intros [= <-]. exists sec, requested, table.
  by rewrite <- (resolve_code_inl _ _ _ Hcode).
Qed.

(** An attempt raises on a page exactly when a section is found and
    [int] refuses the seat string or the digits the section asserts. *)
Lemma parse_page_Raise seat soup :
  (exists err, parse_page seat soup = Raise err) <->
  exists sec, find_section soup = Some sec
    /\ (int_of_str seat = None
        \/ exists m, asserts sec (Some m)
                     /\ MAX_STR_DIGITS < Z.of_nat (String.length m)).
Proof.
  setoid_rewrite asserts_digits. unfold parse_page.
  destruct (find_section soup) as [sec|] eqn:Hsec.
  2:{ split; [by intros [??]|by intros (? & ? & _)]. }
  destruct (int_of_str seat) as [requested|] eqn:Hseat.
  2:{ split; [intros _; exists sec; auto|eauto]. }
  rewrite resolve_code_eq.
  destruct (asserted_digits sec) as [m|] eqn:Hm.
  - destruct (Z.leb_spec (Z.of_nat (String.length m)) MAX_STR_DIGITS).
    + split.
      * destruct (find "table" sec); by intros [??].
      * intros (sec' & ? & [?|(m' & ? & ?)]); simplify_eq; lia.
    + split; [|eauto]. intros _. exists sec. split; [done|]. right. exists m. split; [done|lia].
  - split.
    + destruct (find "table" sec); by intros [??].
    + intros (sec' & ? & [?|(m' & ? & ?)]); simplify_eq.
Qed.

(** ** The retry loop *)

Lemma fetch_loop_Some net seat i retries rec :
  (fetch_loop net seat i retries).1 = Some rec ->
  exists j soup, net seat j = Page soup /\ parse_page seat soup = Return (Some rec).
Proof.
  revert i. induction retries as [|r IH]; intros i; simpl; [done|].
  unfold try_once. destruct (net seat i) as [err|soup] eqn:Hnet; simpl.
  - apply IH.
  - destruct (parse_page seat soup) as [item|err] eqn:Hp; simpl.
    + intros ->. eauto.
    + apply IH.
Qed.

(** A record returned by a worker carries [name] and [code], and only
    strings as keys. *)
Lemma fetch_one_record net seat rec :
  (fetch_one net seat).1 = Some rec ->
  is_Some (dict_get rec k_name) /\ is_Some (dict_get rec k_code)
  /\ forall k, k ∈ keys rec -> exists s, k = VStr s.
Proof.
  intros (j & soup & _ & Hp)%fetch_loop_Some.
  apply parse_page_Some in Hp as (sec & requested & table & _ & _ & _ & _ & ->).
  split; [|split].
  - apply dict_get_is_Some, add_rows_keeps. unfold keys; simpl. left.
  - apply dict_get_is_Some, add_rows_keeps. unfold keys; simpl. right; left.
  - intros k [Hk|Hk]%add_rows_keys; [|done].
    unfold keys in Hk; simpl in Hk.
    apply elem_of_cons in Hk as [->|Hk]; [by eexists|].
    apply elem_of_cons in Hk as [->|Hk]; [by eexists|].
    by apply elem_of_nil in Hk.
Qed.

Lemma fetch_loop_all_raise net seat err i retries :
  (forall j, (i <= j < i + retries)%nat -> try_once net seat j = Raise (err j)) ->
  fetch_loop net seat i retries =
    (None, failed_attempts seat err i retries ++ [log_failed seat]).
Proof.
  revert i. induction retries as [|r IH]; intros i Hall; simpl; [done|].
  rewrite Hall by lia. rewrite IH by (intros; apply Hall; lia). done.
Qed.

Lemma fetch_loop_return net seat i r item :
  try_once net seat i = Return item ->
  fetch_loop net seat i (S r) = (item, [EvGet seat]).
Proof. intros H. simpl. by rewrite H. Qed.

Lemma drain_records items results console :
  (forall rec, Some rec ∈ items ->
     is_Some (dict_get rec k_name) /\ is_Some (dict_get rec k_code)) ->
  drain items results console =
    Some (results ++ omap id items, console ++ (record_line <$> omap id items)).
Proof.
  revert results console. induction items as [|item items IH]; intros results console Hkeys.
  { simpl. by rewrite !app_nil_r. }
  assert (forall rec, Some rec ∈ items ->
            is_Some (dict_get rec k_name) /\ is_Some (dict_get rec k_code)) as Hrest.
  { intros rec Hrec. apply Hkeys. by right. }
  destruct item as [rec|]; [|simpl; by apply IH].
  destruct (Hkeys rec ltac:(left)) as [[name Hname] [code Hcode]].
  destruct rec as [|kv rec]; [done|].
  cbn [drain]. rewrite Hname, Hcode. rewrite IH by done.
  cbn [omap list_omap id fmap list_fmap]. unfold record_line at 2.
  rewrite Hname, Hcode. simpl. by rewrite <- !app_assoc.
Qed.

Lemma omap_id_fmap {A B} (f : A -> option B) (l : list A) :
  omap id (f <$> l) = omap f l.
Proof. induction l as [|x l IH]; csimpl; [done|]. rewrite IH. by destruct (f x). Qed.

(** [run] always returns: its results are the records of the workers
    that returned one, in completion order. *)
Lemma run_returns net sched start end_ seen :
  run net sched start end_ seen =
    Some (omap (worker net) (sched (seats start end_ seen)),
          record_line <$> omap (worker net) (sched (seats start end_ seen))).
Proof.
  unfold run. rewrite drain_records.
  - by rewrite omap_id_fmap.
  - intros rec (s & Hs & _)%list_elem_of_fmap. symmetry in Hs.
    apply fetch_one_record in Hs. tauto.
Qed.

Lemma elem_of_run_results net sched start end_ seen rec :
  rearranges sched ->
  rec ∈ omap (worker net) (sched (seats start end_ seen)) <->
  exists s, s ∈ seats start end_ seen /\ worker net s = Some rec.
Proof.
  intros Hrearranges. rewrite list_elem_of_omap.
  by setoid_rewrite (Hrearranges (seats start end_ seen)).
Qed.

(** C9 (amended): a response without the result section, and a response
    whose result section has no table and asserts no code of more than
    [MAX_STR_DIGITS] digits, end the worker at once with [None], at
    whichever attempt they arrive: that attempt adds the one request to
    the trace, no error is logged, nothing is slept and no further
    attempt is made.  (In the second case the seat string is one [int]
    accepts, as the enumerated seat of every number of at most 4300
    digits is.) *)
Theorem no_result_ends_worker (net : network) (seat : string) (soup : node) (i : nat) :
  net seat i = Page soup ->
  find_section soup = None
  \/ (exists sec requested, find_section soup = Some sec
        /\ int_of_str seat = Some requested
        /\ (forall m, asserts sec (Some m) ->
                      Z.of_nat (String.length m) <= MAX_STR_DIGITS)
        /\ find "table" sec = None) ->
  (forall r, fetch_loop net seat i (S r) = (None, [EvGet seat]))
  /\ (i = 0%nat -> fetch_one net seat = (None, [EvGet seat])).
Proof.
  intros Hnet Hcase.
  assert (try_once net seat i = Return None) as Htry.
  { unfold try_once. rewrite Hnet.
    destruct Hcase as [Hno|(sec & requested & Hsec & Hseat & Hcode & Htab)].
    - by apply parse_page_no_section.
    - eapply parse_page_no_table; [done..| |done]. by apply resolve_code_asserts. }
  split; [intros r|intros ->]; by apply fetch_loop_return.
Qed.

Lemma no_result_ends_worker_witness :
  fetch_one net_without_section "000042" = (None, [EvGet "000042"])
  /\ fetch_one net_without_table "000042" = (None, [EvGet "000042"]).
Proof.
  split.
  - apply (no_result_ends_worker net_without_section
             "000042" page_without_section 0); [reflexivity|left; reflexivity|reflexivity].
  - apply (no_result_ends_worker net_without_table
             "000042" page_without_table 0); [reflexivity| |reflexivity].
    right. eexists _, 42. split; [reflexivity|]. split; [reflexivity|].
    split; [|reflexivity]. intros m Hm%asserts_digits. discriminate Hm.
Defined.

(** C9 fails as stated: a result section without table whose labelled
    span holds more digits than [int] converts makes every attempt raise
    before the table is looked for; each attempt is logged and slept on,
    and the seat is retried and logged as failed. *)
Lemma section_without_table_is_retried :
  (exists sec, find_section page_long_code = Some sec /\ find "table" sec = None)
  /\ int_of_str "000042" = Some 42
  /\ fetch_one net_long_code "000042" =
       (None, [EvGet "000042"; log_attempt "000042" (digit_limit_message 4301);
               EvSleep 500;
               EvGet "000042"; log_attempt "000042" (digit_limit_message 4301);
               EvSleep 500;
               log_failed "000042"])
  /\ fetch_one net_long_code "000042" <> (None, [EvGet "000042"]).
Proof.
  split; [eexists; split; vm_compute; reflexivity|].
  split; [vm_compute; reflexivity|].
  assert (fetch_one net_long_code "000042" =
       (None, [EvGet "000042"; log_attempt "000042" (digit_limit_message 4301);
               EvSleep 500;
               EvGet "000042"; log_attempt "000042" (digit_limit_message 4301);
               EvSleep 500;
               log_failed "000042"])) as H by (vm_compute; reflexivity).
  split; [exact H|]. rewrite H. discriminate.
Qed.

(** C10: the subject entries go into the dict that already holds [name]
    and [code], under whatever key the row gives.  When the last
    two-column row whose key (the text of its first column before the
    first slash, stripped) is [name] or [code] has grade [c1], the record
    the worker returns holds the string [c1] under that key, in place of
    the display name or of the resolved code, and the trace shows the
    request only.  (A record is assembled: the section asserts no code of
    more than [MAX_STR_DIGITS] digits.) *)
Theorem table_row_overwrites_name_or_code (net : network) (seat : string)
    (soup sec table : node) (requested : Z) (before after : list (list string))
    (c0 c1 : string) :
  net seat 0%nat = Page soup ->
  find_section soup = Some sec ->
  int_of_str seat = Some requested ->
  (forall m, asserts sec (Some m) -> Z.of_nat (String.length m) <= MAX_STR_DIGITS) ->
  find "table" sec = Some table ->
  table_rows table = before ++ [c0; c1] :: after ->
  (forall cols, cols ∈ after -> row_key cols <> row_key [c0; c1]) ->
  strip (before_first "/" c0) = "name" \/ strip (before_first "/" c0) = "code" ->
  exists rec,
    fetch_one net seat = (Some rec, [EvGet seat])
    /\ dict_get rec (VStr (strip (before_first "/" c0))) = Some (VStr c1).
Proof.
  intros Hnet Hsec Hseat Hcode Htab Hrows Hafter _.
  eexists. split.
  - apply fetch_loop_return. unfold try_once. rewrite Hnet.
    eapply parse_page_record; [done..| |done]. by apply resolve_code_asserts.
  - rewrite Hrows. by apply add_rows_get_last.
Qed.

Lemma table_row_overwrites_name_or_code_witness :
  exists rec,
    fetch_one net_code_row "000001" = (Some rec, [EvGet "000001"])
    /\ dict_get rec (VStr "code") = Some (VStr "A+").
Proof.
  apply (table_row_overwrites_name_or_code net_code_row "000001"
           page_code_row (result_section "  Ali  " "Code: 7" rows_code_row)
           (Elem "table" [] rows_code_row) 1 [["Math / x"; "90"]] [["alone"]] "code" "A+");
    try reflexivity.
  - intros m [= <-]%asserts_digits. done.
  - intros cols Hc. apply list_elem_of_singleton in Hc as ->. discriminate.
  - right. reflexivity.
Defined.

(** C3 (amended): every record a worker returns was assembled from a
    page that the remote side sent for the seat, with a result section
    and a table.  Unless a two-column row of that table is keyed [code],
    the record's [code] is the number of what the section asserts (the
    first run of digits in the text of its first labelled span), or else
    the integer of the requested seat; and in a written dataset the row
    of that record shows this code in the [code] column. *)
Theorem record_code_is_asserted_or_requested (net : network) (seat : string)
    (rec : record) :
  worker net seat = Some rec ->
  exists j soup sec table requested,
    net seat j = Page soup
    /\ parse_page seat soup = Return (Some rec)
    /\ find_section soup = Some sec
    /\ find "table" sec = Some table
    /\ int_of_str seat = Some requested
    /\ (exists a, asserts sec a)
    /\ forall a, asserts sec a ->
         (forall cols, cols ∈ table_rows table -> row_key cols <> Some "code") ->
         dict_get rec k_code = Some (VInt (code_of requested a))
         /\ forall existing results hs rows console,
              combine_and_write existing results = Written hs rows console ->
              rec ∈ existing ++ results ->
              exists row, row ∈ rows
                /\ hs !! 1%nat = Some k_code
                /\ row !! 1%nat = Some (VInt (code_of requested a)).
Proof.
  intros (j & soup & Hnet & Hp)%fetch_loop_Some.
  pose proof Hp as Hp'.
  apply parse_page_Some in Hp' as (sec & requested & table & Hsec & Hseat & _ & Htab & Hrec).
  exists j, soup, sec, table, requested.
  do 5 (split; [done|]).
  split; [exists (asserted_digits sec); by apply asserts_digits|].
  intros a Ha%asserts_digits Hrows.
  assert (default requested (asserted_code sec) = code_of requested a) as Hcode_eq.
  { rewrite asserted_code_digits, Ha. by destruct a. }
  rewrite Hcode_eq in Hrec.
  assert (dict_get rec k_code = Some (VInt (code_of requested a))) as Hcode.
  { subst rec. unfold k_code. rewrite add_rows_get_other by done. reflexivity. }
  split; [done|].
  intros existing results hs rows console Hw Hin.
  unfold combine_and_write in Hw.
  destruct (existing ++ results) as [|r0 all] eqn:Hall; [done|].
  destruct (headers (r0 :: all)) as [hs'|] eqn:Hhs; [|done].
  injection Hw as <- <- <-.
  unfold headers in Hhs. destruct (py_sorted _) as [rest|]; [|done].
  injection Hhs as <-.
  exists (row_of (k_name :: k_code :: rest) rec). split; [|split; [done|]].
  - exact (list_elem_of_fmap_2 (row_of (k_name :: k_code :: rest)) (r0 :: all) rec Hin).
  - simpl. by rewrite Hcode.
Qed.

Lemma record_code_is_asserted_or_requested_witness :
  exists j soup sec table,
    net_code_2 "000001" j = Page soup
    /\ parse_page "000001" soup =
         Return (Some [(k_name, VStr "B"); (k_code, VInt 2); (VStr "Science", VStr "85")])
    /\ find_section soup = Some sec
    /\ find "table" sec = Some table
    /\ asserts sec (Some "2")
    /\ dict_get [(k_name, VStr "B"); (k_code, VInt 2); (VStr "Science", VStr "85")] k_code
       = Some (VInt (code_of 1 (Some "2"))).
Proof.
  destruct (record_code_is_asserted_or_requested net_code_2 "000001"
              [(k_name, VStr "B"); (k_code, VInt 2); (VStr "Science", VStr "85")]
              eq_refl)
    as (j & soup & sec & table & requested & Hnet & Hp & Hsec & Htab & Hseat & _ & Hcode).
  injection Hnet as <-.
  injection Hsec as <-. injection Htab as <-. injection Hseat as <-.
  assert (asserts (result_section "B" "code 2" rows_science) (Some "2")) as Ha
    by (apply asserts_digits; reflexivity).
  exists j, page_code_2, (result_section "B" "code 2" rows_science),
    (Elem "table" [] rows_science).
  split; [reflexivity|]. split; [exact Hp|]. split; [reflexivity|].
  split; [reflexivity|]. split; [exact Ha|].
  apply (Hcode (Some "2") Ha).
  intros cols Hc. apply list_elem_of_singleton in Hc as ->. discriminate.
Defined.

(** C3 fails as stated: the page asserts code 7 for the requested seat 1,
    yet the record's [code] is neither, but the grade of the table row
    labelled [code]; that string is what the dataset shows. *)
Lemma record_code_overwritten_by_table :
  exists sec,
    find_section page_code_row = Some sec
    /\ asserted_code sec = Some 7
    /\ parse_page "000001" page_code_row =
         Return (Some [(k_name, VStr "Ali"); (k_code, VStr "A+"); (VStr "Math", VStr "90")])
    /\ combine_and_write []
         [[(k_name, VStr "Ali"); (k_code, VStr "A+"); (VStr "Math", VStr "90")]]
       = Written [k_name; k_code; VStr "Math"] [[VStr "Ali"; VStr "A+"; VStr "90"]]
                 [wrote_message 1].
Proof. eexists. repeat split; vm_compute; reflexivity. Qed.

Lemma elem_of_error_log net tasks seat msg :
  seat ∈ tasks -> EvLogError msg ∈ (fetch_one net seat).2 ->
  EvLogError msg ∈ error_log net tasks.
Proof.
  intros Hseat Hmsg. unfold error_log.
  apply list_elem_of_In, filter_In. split; [|done].
  - apply in_concat. exists (fetch_one net seat).2. split.
    + apply list_elem_of_In, list_elem_of_fmap. by exists seat.
    + by apply list_elem_of_In.
Qed.

(** C4 (amended): a seat whose every attempt raises is tried [RETRIES]
    times (and as often as any other retry count asks); each attempt logs
    [<seat> → <error>] and sleeps half a second, then
    [<seat> → failed after retries] is logged and the worker returns
    [None] without raising.  The run returns all the same, and the error
    log of the run has the lines of the seat.  Nothing fetched for that
    seat enters the final dataset: each of its records is a prior record
    or the record another seat's worker returned (which may carry any
    code, the failing seat's number included). *)
Theorem failing_seat_is_logged_and_skipped (net : network) (sched : schedule)
    (start end_ : Z) (seen : gset string) (seat : string) (err : nat -> string) :
  rearranges sched ->
  (forall i, try_once net seat i = Raise (err i)) ->
  (forall retries,
     fetch_loop net seat 0 retries =
       (None, failed_attempts seat err 0 retries ++ [log_failed seat]))
  /\ fetch_one net seat =
       (None, [EvGet seat; log_attempt seat (err 0%nat); EvSleep 500;
               EvGet seat; log_attempt seat (err 1%nat); EvSleep 500;
               log_failed seat])
  /\ (seat ∈ seats start end_ seen ->
        log_failed seat ∈ error_log net (seats start end_ seen)
        /\ log_attempt seat (err 0%nat) ∈ error_log net (seats start end_ seen))
  /\ exists results console,
       run net sched start end_ seen = Some (results, console)
       /\ forall prior rec, rec ∈ prior ++ results ->
            rec ∈ prior
            \/ exists s, s ∈ seats start end_ seen /\ s <> seat /\ worker net s = Some rec.
Proof.
  intros Hrearranges Hfail.
  assert (forall retries,
     fetch_loop net seat 0 retries =
       (None, failed_attempts seat err 0 retries ++ [log_failed seat])) as Hloop.
  { intros retries. apply fetch_loop_all_raise. intros j _. apply Hfail. }
  assert (fetch_one net seat =
       (None, [EvGet seat; log_attempt seat (err 0%nat); EvSleep 500;
               EvGet seat; log_attempt seat (err 1%nat); EvSleep 500;
               log_failed seat])) as Hone.
  { unfold fetch_one. by rewrite Hloop. }
  split; [done|]. split; [done|]. split.
  - intros Hseat. split; apply (elem_of_error_log net _ seat); try done;
      rewrite Hone; simpl; set_solver.
  - eexists _, _. split; [apply run_returns|].
    intros prior rec [Hprior|Hnew]%elem_of_app; [by left|right].
    apply elem_of_run_results in Hnew as (s & Hs & Hrec); [|done].
    exists s. split; [done|]. split; [|done].
    intros ->. unfold worker in Hrec. rewrite Hone in Hrec. done.
Qed.

Lemma failing_seat_is_logged_and_skipped_witness :
  fetch_one net_always_failing "000042" =
    (None, [EvGet "000042"; EvLogError "000042 → timeout"; EvSleep 500;
            EvGet "000042"; EvLogError "000042 → timeout"; EvSleep 500;
            EvLogError "000042 → failed after retries"])
  /\ run net_always_failing id 42 42 ∅ = Some ([], []).
Proof.
  destruct (failing_seat_is_logged_and_skipped net_always_failing id 42 42 ∅
              "000042" (fun _ => "timeout")) as (_ & Hone & _ & _).
  - intros l. reflexivity.
  - intros i. reflexivity.
  - split; [exact Hone|reflexivity].
Defined.

(** C4 fails as stated: the seat 000042 fails at every attempt, yet the
    final dataset has a record under the code 42, fetched for the seat
    000043 whose response asserts that code, and the console shows it as
    000042. *)
Lemma failing_seat_number_enters_dataset :
  (forall i, try_once net_code_42 "000042" i = Raise "timeout")
  /\ run net_code_42 id 42 43 ∅ =
       Some ([[(k_name, VStr "B"); (k_code, VInt 42); (VStr "Science", VStr "85")]],
             ["[OK]   000042 → B"])
  /\ combine_and_write []
       [[(k_name, VStr "B"); (k_code, VInt 42); (VStr "Science", VStr "85")]]
     = Written [k_name; k_code; VStr "Science"] [[VStr "B"; VInt 42; VStr "85"]]
               [wrote_message 1].
Proof.
  split; [intros i; reflexivity|]. split; vm_compute; reflexivity.
Qed.

(** ** Headers *)

Global Instance VStr_inj : Inj (=) (=) VStr.
Proof. by intros s1 s2 [= ->]. Qed.

Lemma mapM_as_str ss : mapM as_str (VStr <$> ss) = Some ss.
Proof. by apply mapM_fmap_Some. Qed.

Lemma merge_sort_short (ss : list string) :
  (length ss <= 1)%nat -> merge_sort String.le ss = ss.
Proof. destruct ss as [|s [|s' ss]]; simpl; (done || lia). Qed.

Lemma py_sorted_strings ss :
  py_sorted (VStr <$> ss) = Some (VStr <$> merge_sort String.le ss).
Proof.
  destruct ss as [|s [|s' ss]]; try done.
  change (py_sorted (VStr <$> s :: s' :: ss)) with
    (match mapM as_str (VStr <$> s :: s' :: ss) with
     | Some ss0 => Some (VStr <$> merge_sort String.le ss0)
     | None => match mapM as_int (VStr <$> s :: s' :: ss) with
               | Some ns => Some (VInt <$> merge_sort Z.le ns)
               | None => None
               end
     end).
  by rewrite mapM_as_str.
Qed.

Lemma all_strings_fmap (l : list value) :
  (forall k, k ∈ l -> exists s, k = VStr s) -> exists ss, l = VStr <$> ss.
Proof.
  induction l as [|k l IH]; intros Hl.
  - by exists [].
  - destruct (Hl k ltac:(left)) as [s ->].
    destruct IH as [ss ->]; [intros; apply Hl; by right|].
    by exists (s :: ss).
Qed.

Lemma elem_of_union_keys records k :
  k ∈ union_keys records <-> exists rec, rec ∈ records /\ k ∈ keys rec.
Proof.
  unfold union_keys. rewrite elem_of_remove_dups, list_elem_of_In, in_concat. split.
  - intros (ks & Hks & Hk). apply list_elem_of_In, list_elem_of_fmap in Hks as (rec & -> & Hrec).
    exists rec. split; [done|]. by apply list_elem_of_In.
  - intros (rec & Hrec & Hk). exists (keys rec). split.
    + apply list_elem_of_In, list_elem_of_fmap. by exists rec.
    + by apply list_elem_of_In.
Qed.

Lemma not_pinned_str s :
  not_pinned (VStr s) = true <-> s <> "name" /\ s <> "code".
Proof.
  unfold not_pinned, k_name, k_code.
  rewrite andb_true_iff, !negb_true_iff, !bool_decide_eq_false. split.
  - intros [H1 H2]. split; congruence.
  - intros [H1 H2]. split; congruence.
Qed.

(** The header row of a dataset whose field names are strings: [name],
    [code], then the other field names, each once, in ascending order. *)
Lemma headers_string_keyed records :
  string_keyed records ->
  exists rest,
    headers records = Some (k_name :: k_code :: (VStr <$> rest))
    /\ Sorted String.le rest /\ NoDup rest
    /\ forall s, s ∈ rest <->
         s <> "name" /\ s <> "code" /\ exists rec, rec ∈ records /\ VStr s ∈ keys rec.
Proof.
  intros Hkeys. unfold headers.
  destruct (all_strings_fmap (List.filter not_pinned (union_keys records))) as [ss Hss].
  { intros k [Hk _]%list_elem_of_In%filter_In.
    apply list_elem_of_In, elem_of_union_keys in Hk as (rec & Hrec & Hk). eauto. }
  assert (NoDup ss) as Hnodup.
  { apply (NoDup_fmap_1 VStr). rewrite <- Hss.
    apply NoDup_ListNoDup, List.NoDup_filter, NoDup_ListNoDup, NoDup_remove_dups. }
  assert (forall s, s ∈ ss <->
            s <> "name" /\ s <> "code" /\ exists rec, rec ∈ records /\ VStr s ∈ keys rec) as Hmem.
  { intros s. rewrite <- (list_elem_of_fmap_inj VStr), <- Hss.
    rewrite list_elem_of_In, filter_In, <- list_elem_of_In, elem_of_union_keys,
      not_pinned_str. tauto. }
  rewrite Hss, py_sorted_strings. simpl.
  exists (merge_sort String.le ss). split; [done|]. split; [apply Sorted_merge_sort, _|].
  split.
  - by rewrite merge_sort_Permutation.
  - intros s. by rewrite merge_sort_Permutation.
Qed.

Lemma keys_as_dict r k : k ∈ keys (as_dict r) <-> exists s, k = VStr s /\ s ∈ r.*1.
Proof.
  unfold keys, as_dict. rewrite <- list_fmap_compose, list_elem_of_fmap. split.
  - intros ([s v] & -> & Hin). exists s. split; [done|].
    apply list_elem_of_fmap. by exists (s, v).
  - intros (s & -> & ([s' v] & -> & Hin)%list_elem_of_fmap). by exists (s', v).
Qed.

Lemma string_keyed_as_dict (rs : list fields) : string_keyed (as_dict <$> rs).
Proof.
  intros rec k (r & -> & _)%list_elem_of_fmap (s & -> & _)%keys_as_dict. by exists s.
Qed.

Lemma row_of_lookup hs rec j h :
  hs !! j = Some h ->
  row_of hs rec !! j = Some (default (VStr EmptyString) (dict_get rec h)).
Proof. intros Hh. unfold row_of. by rewrite list_lookup_fmap, Hh. Qed.

Lemma combine_and_write_nothing existing results :
  existing ++ results = [] ->
  combine_and_write existing results = NothingToWrite [no_new_records].
Proof. intros Hnil. unfold combine_and_write. by rewrite Hnil. Qed.

Lemma combine_and_write_string_keyed existing results :
  string_keyed (existing ++ results) -> existing ++ results <> [] ->
  exists hs,
    headers (existing ++ results) = Some hs
    /\ combine_and_write existing results =
         Written hs (row_of hs <$> (existing ++ results))
                 [wrote_message (length existing + length results)].
Proof.
  intros Hkeys Hne. destruct (headers_string_keyed _ Hkeys) as (rest & Hhs & _).
  exists (k_name :: k_code :: (VStr <$> rest)). split; [done|].
  unfold combine_and_write. destruct (existing ++ results) as [|r0 all] eqn:Hall; [done|].
  rewrite Hhs. do 3 f_equal. by rewrite <- Hall, length_app.
Qed.

(** On records whose field names are strings, the writer works on the
    prior records followed by the new ones, as they are.  When there is
    none it prints [No new records fetched.] and leaves the file alone.
    Otherwise it hands to the workbook the header row and one row per
    record, in that order and without dropping any, each row giving
    under every header the record's value, or the empty string when the
    record lacks the field. *)
Lemma writer_concatenates_and_rewrites (existing results : list fields)
    (old : option sheet) :
  let all_records := as_dict <$> (existing ++ results) in
  let out := combine_and_write (as_dict <$> existing) (as_dict <$> results) in
  (existing ++ results = [] ->
     out = NothingToWrite [no_new_records] /\ file_after old out = old)
  /\ (existing ++ results <> [] ->
      exists hs,
        headers all_records = Some hs
        /\ out = Written hs (row_of hs <$> all_records)
                   [wrote_message (length existing + length results)]
        /\ file_after old out = Some (stored_sheet hs (row_of hs <$> all_records))
        /\ length (row_of hs <$> all_records) = (length existing + length results)%nat
        /\ (forall i r, (existing ++ results) !! i = Some r ->
              (row_of hs <$> all_records) !! i = Some (row_of hs (as_dict r)))
        /\ (forall r j h, hs !! j = Some h ->
              row_of hs (as_dict r) !! j =
                Some (default (VStr EmptyString) (dict_get (as_dict r) h)))).
Proof.
  intros all_records out. subst all_records out.
  rewrite fmap_app. split.
  - intros Hnil. rewrite combine_and_write_nothing; [done|].
    by rewrite <- fmap_app, Hnil.
  - intros Hne.
    destruct (combine_and_write_string_keyed (as_dict <$> existing) (as_dict <$> results))
      as (hs & Hhs & Hw).
    { rewrite <- fmap_app. apply string_keyed_as_dict. }
    { rewrite <- fmap_app. by intros ?%fmap_nil_inv. }
    rewrite !length_fmap in Hw.
    exists hs. split; [done|]. split; [done|]. rewrite Hw. split; [done|].
    split; [by rewrite !length_fmap, length_app, !length_fmap|]. split.
    + intros i r Hi. by rewrite <- fmap_app, !list_lookup_fmap, Hi.
    + intros r j h. apply row_of_lookup.
Qed.

Lemma writer_concatenates_and_rewrites_witness :
  combine_and_write (as_dict <$> prior_example) (as_dict <$> new_example) =
    Written [k_name; k_code; VStr "Math"; VStr "Science"]
      [[VStr "A"; VInt 1; VStr "90"; VStr ""]; [VStr "B"; VInt 2; VStr ""; VStr "85"]]
      [wrote_message 2]
  /\ combine_and_write (as_dict <$> []) (as_dict <$> []) = NothingToWrite [no_new_records].
Proof.
  split.
  - destruct (writer_concatenates_and_rewrites prior_example new_example None) as [_ H].
    destruct H as (hs & Hhs & Hw & _); [discriminate|].
    rewrite Hw. injection Hhs as <-. reflexivity.
  - destruct (writer_concatenates_and_rewrites [] [] None) as [H _].
    destruct H as [Hw _]; [reflexivity|]. exact Hw.
Defined.

(** C6 (amended): for a non-empty dataset whose field names are strings,
    the header row written is [name], [code] (whether or not a record
    has them), then every other field name of any record, once each, in
    ascending order of their characters. *)
Theorem header_row_is_pinned_then_sorted (existing results : list fields) :
  existing ++ results <> [] ->
  exists rest rows console,
    combine_and_write (as_dict <$> existing) (as_dict <$> results) =
      Written (VStr "name" :: VStr "code" :: (VStr <$> rest)) rows console
    /\ Sorted String.le rest /\ NoDup rest
    /\ (forall s, s ∈ rest <->
          s <> "name" /\ s <> "code" /\ exists r, r ∈ existing ++ results /\ s ∈ r.*1)
    /\ rows = (fun r => row_of (VStr "name" :: VStr "code" :: (VStr <$> rest)) (as_dict r))
                <$> (existing ++ results).
Proof.
  intros Hne.
  destruct (headers_string_keyed _ (string_keyed_as_dict (existing ++ results)))
    as (rest & Hhs & Hsorted & Hnodup & Hmem).
  destruct (combine_and_write_string_keyed (as_dict <$> existing) (as_dict <$> results))
    as (hs & Hhs' & Hw).
  { rewrite <- fmap_app. apply string_keyed_as_dict. }
  { rewrite <- fmap_app. by intros ?%fmap_nil_inv. }
  rewrite <- fmap_app in Hhs', Hw. rewrite Hhs in Hhs'. injection Hhs' as <-.
  eexists rest, _, _. split; [exact Hw|]. split; [done|]. split; [done|]. split.
  - intros s. rewrite Hmem. do 2 (apply and_iff_compat_l). split.
    + intros (rec & (r & -> & Hr)%list_elem_of_fmap & (s' & [= <-] & Hs)%keys_as_dict).
      by exists r.
    + intros (r & Hr & Hs). exists (as_dict r). split; [by apply list_elem_of_fmap_2|].
      apply keys_as_dict. by exists s.
  - by rewrite <- list_fmap_compose.
Qed.

(** The example of the specification: the headers are exactly [name],
    [code], [Math], [Science], and the row of code 1 has an empty value
    under [Science]. *)
Lemma header_row_is_pinned_then_sorted_witness :
  (exists rest rows console,
     combine_and_write (as_dict <$> prior_example) (as_dict <$> new_example) =
       Written (VStr "name" :: VStr "code" :: (VStr <$> rest)) rows console
     /\ Sorted String.le rest)
  /\ combine_and_write (as_dict <$> prior_example) (as_dict <$> new_example) =
       Written [VStr "name"; VStr "code"; VStr "Math"; VStr "Science"]
         [[VStr "A"; VInt 1; VStr "90"; VStr ""]; [VStr "B"; VInt 2; VStr ""; VStr "85"]]
         [wrote_message 2].
Proof.
  split; [|reflexivity].
  destruct (header_row_is_pinned_then_sorted prior_example new_example)
    as (rest & rows & console & Hw & Hsorted & _).
  - discriminate.
  - exists rest, rows, console. split; assumption.
Defined.

(** C6 fails as stated: field names are not always ordered by their
    characters.  The prior record read under the numeric header cells 10
    and 9 has these numbers as field names, and the header row written
    has 9 before 10, the order of the numbers, where the order of their
    characters has 10 before 9. *)
Lemma numeric_field_names_are_sorted_by_value :
  existing (load_existing (Some sheet_numeric_headers)).1 =
    [[(k_name, VStr "A"); (k_code, VInt 1); (VInt 10, VStr "x"); (VInt 9, VStr "y")]]
  /\ combine_and_write (existing (load_existing (Some sheet_numeric_headers)).1) [] =
       Written [k_name; k_code; VInt 9; VInt 10]
               [[VStr "A"; VInt 1; VStr "y"; VStr "x"]] [wrote_message 1]
  /\ bool_decide (String.le (py_str (VInt 10)) (py_str (VInt 9))) = true
  /\ bool_decide (String.le (py_str (VInt 9)) (py_str (VInt 10))) = false.
Proof. repeat split; vm_compute; reflexivity. Qed.

(** ** Writing, then loading *)

Lemma py_int_stored_cell v : py_int (stored_cell v) = py_int v.
Proof. destruct v as [|n|[|c s]]; done. Qed.

Lemma code_of_cell_stored v : code_of_cell (stored_cell v) = code_of_cell v.
Proof. unfold code_of_cell. by rewrite py_int_stored_cell. Qed.

Lemma row_code_stored c row :
  row_code c (stored_cell <$> row) = row_code c row.
Proof.
  unfold row_code. rewrite list_lookup_fmap.
  destruct (row !! c) as [v|]; simpl; [apply code_of_cell_stored|done].
Qed.

Lemma find_code_col_written rest :
  find_code_col (stored_cell <$> k_name :: k_code :: rest) 0 = Some 1%nat.
Proof. reflexivity. Qed.

Lemma headers_shape records hs :
  headers records = Some hs -> exists rest, hs = k_name :: k_code :: rest.
Proof.
  unfold headers. destruct (py_sorted _) as [rest|]; [|done].
  intros [= <-]. by exists rest.
Qed.

Lemma combine_and_write_Written existing results hs rows console :
  combine_and_write existing results = Written hs rows console ->
  headers (existing ++ results) = Some hs
  /\ rows = row_of hs <$> (existing ++ results)
  /\ existing ++ results <> [].
Proof.
  unfold combine_and_write.
  destruct (existing ++ results) as [|r0 all] eqn:Hall; [done|].
  destruct (headers (r0 :: all)) as [hs'|] eqn:Hhs; [|done].
  by intros [= <- <- _].
Qed.

(** The seen-set read back from a written sheet: the codes of the code
    column, the second one, that [int] accepts. *)
Lemma seen_of_written hs rest rows s :
  hs = k_name :: k_code :: rest ->
  s ∈ seen_codes (load_existing (Some (stored_sheet hs rows))).1 <->
  exists row n, row ∈ rows /\ row_code 1 row = Some n /\ s = zfill 6 (str_int n).
Proof.
  intros ->. unfold load_existing, stored_sheet.
  cbn [header_row data_rows]. rewrite find_code_col_written. cbn [fst].
  destruct (load_rows_fold (stored_cell <$> k_name :: k_code :: rest) 1
              ((fun row : list value => stored_cell <$> row) <$> rows) nothing_loaded)
    as [_ ->].
  cbn [seen_codes nothing_loaded].
  rewrite elem_of_union, elem_of_list_to_set, list_elem_of_fmap.
  setoid_rewrite list_elem_of_omap. setoid_rewrite list_elem_of_fmap. split.
  - intros [[]%elem_of_empty|(n & -> & row' & (row & -> & Hrow) & Hn)].
    rewrite row_code_stored in Hn. by exists row, n.
  - intros (row & n & Hrow & Hn & ->). right. exists n. split; [done|].
    exists (stored_cell <$> row). split; [by exists row|]. by rewrite row_code_stored.
Qed.

Lemma row_code_row_of rest rec :
  row_code 1 (row_of (k_name :: k_code :: rest) rec) = dict_get rec k_code ≫= code_of_cell.
Proof.
  unfold row_code. cbn. destruct (dict_get rec k_code) as [v|]; [done|].
  reflexivity.
Qed.

(** ** Cells that are stored exactly *)

Lemma exact_is_storable v : exact_cell v = true -> storable v = true.
Proof. intros H. unfold storable. by rewrite H. Qed.

Lemma exact_int_prints n : Z.abs n <= 2 ^ 53 -> Z.abs n < str_limit.
Proof.
  intros H. assert (2 ^ 53 < str_limit) as Hlt by (vm_compute; reflexivity).
  revert H Hlt. generalize (2 ^ 53) str_limit. intros; lia.
Qed.

(** On a storable cell [str(int(v))] goes through whenever [int(v)]
    does. *)
Lemma code_of_cell_storable v : storable v = true -> code_of_cell v = py_int v.
Proof.
  unfold storable, code_of_cell. destruct v as [|n|s]; [done| |].
  - intros [Hn|Hn]%orb_true_iff; [|by apply bool_decide_eq_true in Hn].
    simpl in Hn |- *. apply Z.leb_le, exact_int_prints in Hn.
    by destruct (Z.ltb_spec (Z.abs n) str_limit); [|lia].
  - intros _. apply (code_of_cell_str s).
Qed.

Lemma storable_not_raises v : storable v = true -> ws_write_raises v = false.
Proof.
  unfold storable. destruct v as [|n|s]; [done| |done].
  intros [Hn|Hn]%orb_true_iff; [|by apply bool_decide_eq_true in Hn].
  simpl in Hn |- *. apply Z.leb_le in Hn.
  assert (2 ^ 53 < 2 ^ 1024 - 2 ^ 970) as Hlt by reflexivity.
  apply Z.leb_gt. revert Hn Hlt. generalize (2 ^ 53) (2 ^ 1024 - 2 ^ 970). intros; lia.
Qed.

Lemma read_back_Some hs rows sh :
  read_back hs rows = Some sh <->
  sh = stored_sheet hs rows
  /\ Forall (fun h => exact_cell h = true) hs
  /\ Forall (Forall (fun v => storable v = true)) rows.
Proof.
  unfold read_back. destruct (forallb exact_cell hs && _) eqn:E.
  - apply andb_true_iff in E as [Hhs Hrows]. split.
    + intros [= <-]. split; [done|]. split.
      * apply Forall_forall. intros h Hh%list_elem_of_In.
        by apply (proj1 (forallb_forall _ _) Hhs).
      * apply Forall_forall. intros row Hrow%list_elem_of_In.
        apply Forall_forall. intros v Hv%list_elem_of_In.
        pose proof (proj1 (forallb_forall _ _) Hrows row Hrow) as Hr.
        by apply (proj1 (forallb_forall _ _) Hr).
    + by intros (-> & _).
  - split; [done|]. intros (_ & Hhs & Hrows). exfalso.
    apply andb_false_iff in E as [E|E].
    + apply not_true_iff_false in E. apply E, forallb_forall.
      intros h Hh%list_elem_of_In. by apply (proj1 (Forall_forall _ _) Hhs).
    + apply not_true_iff_false in E. apply E, forallb_forall.
      intros row Hrow%list_elem_of_In. apply forallb_forall.
      intros v Hv%list_elem_of_In.
      by apply (proj1 (Forall_forall _ _) (proj1 (Forall_forall _ _) Hrows row Hrow)).
Qed.

Lemma read_back_not_raises hs rows sh :
  read_back hs rows = Some sh -> write_raises hs rows = false.
Proof.
  intros (_ & Hhs & Hrows)%read_back_Some. unfold write_raises.
  apply not_true_iff_false. intros (v & Hv & Hraise)%existsb_exists.
  apply list_elem_of_In, elem_of_app in Hv as [Hv|Hv].
  - rewrite storable_not_raises in Hraise; [done|].
    apply exact_is_storable. by apply (proj1 (Forall_forall _ _) Hhs).
  - apply list_elem_of_In, in_concat in Hv as (row & Hrow%list_elem_of_In & Hv%list_elem_of_In).
    rewrite storable_not_raises in Hraise; [done|].
    by apply (proj1 (Forall_forall _ _) (proj1 (Forall_forall _ _) Hrows row Hrow)).
Qed.

Lemma seen_of_dataset existing results old s :
  string_keyed (existing ++ results) ->
  s ∈ seen_codes (load_existing (file_after old (combine_and_write existing results))).1
  <-> (existing ++ results <> [] /\
       exists rec n, rec ∈ existing ++ results /\ record_code rec = Some n
                     /\ s = zfill 6 (str_int n))
      \/ (existing ++ results = [] /\ s ∈ seen_codes (load_existing old).1).
Proof.
  intros Hkeys.
  destruct (decide (existing ++ results = [])) as [Hall|Hall].
  - rewrite combine_and_write_nothing by done. cbn [file_after]. split; [by right|].
    intros [[? _]|[_ ?]]; done.
  - destruct (combine_and_write_string_keyed _ _ Hkeys Hall) as (hs & Hhs & ->).
    cbn [file_after].
    destruct (headers_shape _ _ Hhs) as [rest ->].
    rewrite (seen_of_written _ rest) by done. split.
    + intros (row & n & (rec & -> & Hrec)%list_elem_of_fmap & Hn & ->).
      left. split; [done|]. exists rec, n. by rewrite row_code_row_of in Hn.
    + intros [[_ (rec & n & Hrec & Hn & ->)]|[? _]]; [|done].
      exists (row_of (k_name :: k_code :: rest) rec), n.
      split; [by apply list_elem_of_fmap_2|]. by rewrite row_code_row_of.
Qed.

Lemma run_results_string_keyed net l : string_keyed (omap (worker net) l).
Proof.
  intros rec k (s & _ & Hs)%list_elem_of_omap Hk.
  apply fetch_one_record in Hs as (_ & _ & Hkeys). by apply Hkeys.
Qed.

Lemma main_eq net sched start end_ file :
  main net sched start end_ file =
    let st := (load_existing file).1 in
    let results := omap (worker net) (sched (seats start end_ (seen_codes st))) in
    match combine_and_write (existing st) results with
    | Written hs rows _ =>
        if write_raises hs rows then None
        else (fun sh => (Some sh, results)) <$> read_back hs rows
    | out => Some (file_after file out, results)
    end.
Proof. unfold main. by rewrite run_returns. Qed.

(** When the workbook, if one is written, is read back as described, the
    script ends with the file [file_after] gives. *)
Lemma main_described net sched start end_ file :
  let st := (load_existing file).1 in
  let results := omap (worker net) (sched (seats start end_ (seen_codes st))) in
  let out := combine_and_write (existing st) results in
  (forall hs rows console, out = Written hs rows console -> is_Some (read_back hs rows)) ->
  main net sched start end_ file = Some (file_after file out, results).
Proof.
  intros st results out. subst out. rewrite main_eq. cbv zeta. fold st. fold results.
  destruct (combine_and_write (existing st) results) as [console| |hs rows console];
    [done|done|].
  intros Hdesc. destruct (Hdesc hs rows console eq_refl) as [sh Hsh].
  rewrite (read_back_not_raises _ _ _ Hsh), Hsh.
  apply read_back_Some in Hsh as (-> & _). done.
Qed.

Lemma dict_get_elem d k v : dict_get d k = Some v -> (k, v) ∈ d.
Proof.
  induction d as [|[k' v'] d IH]; simpl; [done|].
  destruct (decide (k' = k)) as [->|Hne].
  - intros [= ->]. left.
  - intros H. right. by apply IH.
Qed.

Lemma keys_elem (d : record) k : k ∈ keys d -> exists v, (k, v) ∈ d.
Proof.
  unfold keys. intros ([k' v] & -> & Hin)%list_elem_of_fmap. by exists v.
Qed.

(** The cells of a workbook of storable records with string field names
    are read back as described. *)
Lemma storable_records_described existing results hs rows console :
  string_keyed (existing ++ results) ->
  (forall rec, rec ∈ existing ++ results -> storable_record rec) ->
  combine_and_write existing results = Written hs rows console ->
  read_back hs rows = Some (stored_sheet hs rows).
Proof.
  intros Hkeys Hst Hw.
  destruct (combine_and_write_Written _ _ _ _ _ Hw) as (Hhs & -> & _).
  destruct (headers_string_keyed _ Hkeys) as (rest & Hhs' & _ & _ & Hmem).
  rewrite Hhs in Hhs'. injection Hhs' as ->.
  apply read_back_Some. split; [done|].
  assert (Forall (fun h => exact_cell h = true) (k_name :: k_code :: (VStr <$> rest)))
    as Hexact.
  { repeat (apply Forall_cons; split; [reflexivity|]).
    apply Forall_forall. intros h (s & -> & Hs)%list_elem_of_fmap.
    apply Hmem in Hs as (_ & _ & rec & Hrec & Hk).
    destruct (keys_elem _ _ Hk) as [v Hv]. by destruct (Hst rec Hrec _ _ Hv). }
  split; [done|].
  apply Forall_forall. intros row (rec & -> & Hrec)%list_elem_of_fmap.
  apply Forall_forall. intros v (h & -> & Hh)%list_elem_of_fmap.
  destruct (dict_get rec h) as [v|] eqn:Hv; simpl; [|reflexivity].
  apply dict_get_elem in Hv. by destruct (Hst rec Hrec _ _ Hv).
Qed.

Lemma omap_nil_iff {A B} (f : A -> option B) (l : list A) :
  omap f l = [] <-> forall x, x ∈ l -> f x = None.
Proof.
  split.
  - intros Hnil x Hx. destruct (f x) as [y|] eqn:Hy; [|done].
    assert (y ∈ omap f l) as Hin by (apply list_elem_of_omap; eauto).
    rewrite Hnil in Hin. by apply elem_of_nil in Hin.
  - intros Hnone. destruct (omap f l) as [|y k] eqn:Hk; [done|].
    assert (y ∈ omap f l) as (x & Hx & Hy)%list_elem_of_omap by (rewrite Hk; left).
    rewrite (Hnone x Hx) in Hy. done.
Qed.

(** C2 (amended).  Round trip: when the workbook just written is read
    back as described (exact header cells, storable data cells), the
    seen-set the loader builds from it holds exactly the seat strings
    [str(int(v)).zfill(6)] of the cells [v] of the [code] column that
    [int] accepts.  Resume: after a first run that starts without an
    output file and fetches storable records, a second run over the same
    remote side schedules exactly the seats of the range whose string is
    the code of no first-run record.  So it does not schedule a seat
    whose first-run record carries the number of that very seat as its
    code, and it fetches no record at all when every first-run record
    does. *)
Theorem resume_skips_seats_recorded_under_their_code (net : network)
    (sched1 sched2 : schedule) (start end_ : Z) :
  rearranges sched1 -> rearranges sched2 ->
  (forall s rec, s ∈ seats start end_ ∅ -> worker net s = Some rec ->
                 storable_record rec) ->
  (forall existing results hs rows console sh s,
     combine_and_write existing results = Written hs rows console ->
     read_back hs rows = Some sh ->
     hs !! 1%nat = Some k_code
     /\ (s ∈ seen_codes (load_existing (Some sh)).1
         <-> exists row v n, row ∈ rows /\ row !! 1%nat = Some v
                             /\ py_int v = Some n /\ s = zfill 6 (str_int n)))
  /\ exists file1 results1 results2 console2,
       main net sched1 start end_ None = Some (file1, results1)
       /\ results1 ≡ₚ omap (worker net) (seats start end_ ∅)
       /\ run net sched2 start end_ (seen_codes (load_existing file1).1)
          = Some (results2, console2)
       /\ (forall s,
             s ∈ seats start end_ (seen_codes (load_existing file1).1) <->
             s ∈ seats start end_ ∅
             /\ ~ exists s' rec n,
                   s' ∈ seats start end_ ∅ /\ worker net s' = Some rec
                   /\ record_code rec = Some n /\ seat_str n = s)
       /\ (forall s rec n,
             s ∈ seats start end_ ∅ -> worker net s = Some rec ->
             record_code rec = Some n -> seat_str n = s ->
             s ∉ seats start end_ (seen_codes (load_existing file1).1))
       /\ ((forall s rec,
              s ∈ seats start end_ ∅ -> worker net s = Some rec ->
              exists n, record_code rec = Some n /\ seat_str n = s) ->
           results2 = []).
Proof.
  intros Hrearranges1 Hrearranges2 Hst. split.
  { intros existing results hs rows console sh s Hw Hsh.
    destruct (combine_and_write_Written _ _ _ _ _ Hw) as (Hhs & -> & _).
    destruct (headers_shape _ _ Hhs) as [rest ->]. split; [done|].
    apply read_back_Some in Hsh as (-> & _ & Hrows).
    rewrite (seen_of_written _ rest) by done.
    assert (forall row v, row ∈ row_of (k_name :: k_code :: rest) <$> existing ++ results ->
              row !! 1%nat = Some v -> code_of_cell v = py_int v) as Hcell.
    { intros row v Hrow Hv. apply code_of_cell_storable.
      pose proof (proj1 (Forall_forall _ _) Hrows row Hrow) as Hr.
      apply (proj1 (Forall_forall _ _) Hr). by eapply list_elem_of_lookup_2. }
    unfold row_code. split.
    - intros (row & n & Hrow & Hn & ->).
      destruct (row !! 1%nat) as [v|] eqn:Hv; [|done]. simpl in Hn.
      exists row, v, n. by rewrite <- (Hcell row v).
    - intros (row & v & n & Hrow & Hv & Hn & ->). exists row, n.
      rewrite Hv. simpl. by rewrite (Hcell row v). }
  set (results1 := omap (worker net) (sched1 (seats start end_ ∅))).
  set (file1 := file_after None (combine_and_write [] results1)).
  assert (forall rec, rec ∈ [] ++ results1 -> storable_record rec) as Hst1.
  { intros rec (s & Hs & Hrec)%elem_of_run_results; [|done]. by eapply Hst. }
  assert (main net sched1 start end_ None = Some (file1, results1)) as Hmain.
  { apply (main_described net sched1 start end_ None).
    cbn [load_existing fst nothing_loaded seen_codes existing]. fold results1.
    intros hs rows console Hw. eexists.
    eapply storable_records_described; [|exact Hst1|exact Hw].
    apply run_results_string_keyed. }
  eexists file1, results1, _, _. split; [done|].
  split; [subst results1; by rewrite (Hrearranges1 _)|].
  split; [apply run_returns|].
  assert (forall s rec n, s ∈ seats start end_ ∅ -> worker net s = Some rec ->
            record_code rec = Some n -> seat_str n ∈ seen_codes (load_existing file1).1)
    as Hseen.
  { intros s rec n Hs Hrec Hn. subst file1.
    apply (seen_of_dataset [] results1 None); [apply run_results_string_keyed|].
    assert (rec ∈ results1) as Hin.
    { apply elem_of_run_results; [done|]. by exists s. }
    left. split; [intros Hnil; simpl in Hnil; rewrite Hnil in Hin; by apply elem_of_nil in Hin|].
    by exists rec, n. }
  split; [|split].
  - intros s. rewrite !elem_of_seats.
    assert (s ∈ seen_codes (load_existing file1).1 <->
            exists s' rec n, s' ∈ seats start end_ ∅ /\ worker net s' = Some rec
                             /\ record_code rec = Some n /\ seat_str n = s) as Hin.
    { subst file1.
      rewrite (seen_of_dataset [] results1 None) by apply run_results_string_keyed.
      cbn [load_existing fst nothing_loaded seen_codes app]. split.
      - intros [[_ (rec & n & Hrec & Hn & ->)]|[_ []%elem_of_empty]].
        apply elem_of_run_results in Hrec as (s' & Hs' & Hrec); [|done].
        by exists s', rec, n.
      - intros (s' & rec & n & Hs' & Hrec & Hn & <-). left.
        assert (rec ∈ results1) as Hres.
        { apply elem_of_run_results; [done|]. by exists s'. }
        split; [intros Hnil; rewrite Hnil in Hres; by apply elem_of_nil in Hres|].
        by exists rec, n. }
    rewrite <- Hin. split.
    + intros (n & -> & Hn & Hnot). split; [|done]. exists n. set_solver.
    + intros [(n & -> & Hn & _) Hnot]. by exists n.
  - intros s rec n Hs Hrec Hn Heq (m & _ & _ & Hnot)%elem_of_seats.
    apply Hnot. rewrite <- Heq. by eapply Hseen.
  - intros Hown. apply omap_nil_iff. intros s Hs.
    rewrite (Hrearranges2 _) in Hs.
    destruct (worker net s) as [rec|] eqn:Hrec; [|done]. exfalso.
    apply elem_of_seats in Hs as (m & -> & Hm & Hnot).
    assert (seat_str m ∈ seats start end_ ∅) as Hs0.
    { apply elem_of_seats. exists m. set_solver. }
    destruct (Hown _ _ Hs0 Hrec) as (n & Hn & Heq).
    apply Hnot. rewrite <- Heq. by eapply Hseen.
Qed.

Lemma worker_net_code_2 s rec :
  s ∈ seats 2 2 ∅ -> worker net_code_2 s = Some rec -> rec = record_code_2.
Proof.
  intros Hs. assert (s = "000002") as ->.
  { vm_compute in Hs. by apply list_elem_of_singleton in Hs. }
  by intros [= <-].
Qed.

(** The seat 2 answers with code 2: the first run writes its record, and
    the second run, which reads it back, fetches nothing. *)
Lemma resume_skips_seats_recorded_under_their_code_witness :
  exists file1 console2,
    main net_code_2 id 2 2 None = Some (file1, [record_code_2])
    /\ run net_code_2 id 2 2 (seen_codes (load_existing file1).1) = Some ([], console2)
    /\ "000002" ∉ seats 2 2 (seen_codes (load_existing file1).1).
Proof.
  destruct (resume_skips_seats_recorded_under_their_code net_code_2 id id 2 2)
    as (_ & file1 & results1 & results2 & console2 & H1 & _ & H2 & _ & Hskip & Hall).
  - intros l. reflexivity.
  - intros l. reflexivity.
  - intros s rec Hs Hrec. rewrite (worker_net_code_2 s rec Hs Hrec).
    intros k v Hkv. unfold record_code_2 in Hkv.
    repeat (apply elem_of_cons in Hkv as [[= -> ->]|Hkv]; [split; reflexivity|]).
    by apply elem_of_nil in Hkv.
  - assert (results1 = [record_code_2]) as ->.
    { assert (main net_code_2 id 2 2 None
              = Some (Some (sheet_code_2 1), [record_code_2])) as H by (vm_compute; reflexivity).
      rewrite H in H1. by injection H1 as _ <-. }
    rewrite (Hall) in H2.
    + exists file1, console2. split; [exact H1|]. split; [exact H2|].
      apply (Hskip "000002" record_code_2 2); reflexivity || (vm_compute; left).
    + intros s rec Hs Hrec. rewrite (worker_net_code_2 s rec Hs Hrec).
      assert (s = "000002") as ->.
      { vm_compute in Hs. by apply list_elem_of_singleton in Hs. }
      exists 2. split; reflexivity.
Defined.

(** C2 fails as stated: every page asserts code 2.  The run over seat 1
    writes one record, under code 2; the loader then sees 000002 only, so
    the second run schedules seat 1 again and fetches a new record, which
    the dataset then holds twice. *)
Lemma second_run_refetches_reasserted_seat :
  main net_code_2 id 1 1 None = Some (Some (sheet_code_2 1), [record_code_2])
  /\ elements (seen_codes (load_existing (Some (sheet_code_2 1))).1) = ["000002"]
  /\ seats 1 1 (seen_codes (load_existing (Some (sheet_code_2 1))).1) = ["000001"]
  /\ main net_code_2 id 1 1 (Some (sheet_code_2 1))
     = Some (Some (sheet_code_2 2), [record_code_2]).
Proof. repeat split; vm_compute; reflexivity. Qed.

(** * Further properties of the script *)

(** ** Seat strings *)

Lemma seat_str_digits n : 0 <= n -> all_chars is_digit (seat_str n) = true.
Proof.
  intros Hn. unfold seat_str. rewrite str_int_nonneg by done.
  destruct (zfill_digits 6 (digits (digits_fuel n) n)) as [k ->].
  { by apply digits_all_digit. } { apply digits_str_empty. }
  rewrite all_chars_app, all_chars_repeat, andb_true_l by done.
  by apply digits_all_digit.
Qed.

(** X1: [str(s).zfill(6)] names a seat faithfully: two numbers have the
    same seat string only if they are equal, the string is a literal of
    the number, which [int] gives back (for every number [str] prints,
    those of at most 4300 digits), and from 0 to 999999 the string is
    six decimal digits. *)
Theorem seat_strings_identify_seats (n m : Z) :
  (seat_str n = seat_str m <-> n = m)
  /\ int_literal (seat_str n) = Some n
  /\ (Z.abs n < str_limit -> int_of_str (seat_str n) = Some n)
  /\ (0 <= n <= 999999 ->
        String.length (seat_str n) = 6%nat /\ all_chars is_digit (seat_str n) = true).
Proof.
  split; [|split; [|split]].
  - split; [apply seat_str_inj|by intros ->].
  - apply int_literal_seat_str.
  - apply int_of_seat_str.
  - intros Hn. split; [apply length_seat_str; lia|apply seat_str_digits; lia].
Qed.

Lemma seat_strings_identify_seats_witness :
  String.length (seat_str 42) = 6%nat /\ all_chars is_digit (seat_str 42) = true.
Proof.
  destruct (seat_strings_identify_seats 42 42) as (_ & _ & _ & H). apply H. lia.
Defined.

(** X2: the seats [run] schedules are the enumeration of the range with
    the seen ones taken out: same order, nothing repeated, and a seat
    string is scheduled exactly when its number lies in the range and
    the string is not in the seen-set. *)
Theorem scheduled_seats_are_the_unseen_of_the_range (start end_ : Z) (seen : gset string) :
  (seats start end_ seen) `sublist_of` (seats start end_ ∅)
  /\ NoDup (seats start end_ seen)
  /\ (forall s, s ∈ seats start end_ seen <->
        (s ∉ seen) /\ exists n, start <= n <= end_ /\ s = zfill 6 (str_int n))
  /\ (forall n, seat_str n ∈ seats start end_ seen <->
        start <= n <= end_ /\ seat_str n ∉ seen).
Proof.
  split; [|split; [|split]].
  - rewrite seats_nothing_seen. unfold seats, py_range.
    apply fmap_sublist, sublist_filter.
  - unfold seats. apply NoDup_fmap_2_strong.
    + intros n m _ _. apply seat_str_inj.
    + apply NoDup_filter, NoDup_seqZ.
  - intros s. rewrite elem_of_seats. split.
    + intros (n & -> & Hn & Hs). split; [done|]. by exists n.
    + intros (Hs & n & Hn & ->). by exists n.
  - intros n. rewrite elem_of_seats. split.
    + intros (m & Heq & Hm & Hs). apply seat_str_inj in Heq as ->. done.
    + intros [Hn Hs]. by exists n.
Qed.

(** X3: the code column is the first column whose header reads [code]
    once converted to a string, stripped and lowered: no column at all
    when no header does. *)
Theorem code_column_is_first_match (hs : list value) (c : nat) :
  (find_code_col hs 0 = Some c <->
     (exists h, hs !! c = Some h /\ lower (strip (py_str h)) = "code")
     /\ forall i h, (i < c)%nat -> hs !! i = Some h -> lower (strip (py_str h)) <> "code")
  /\ (find_code_col hs 0 = None <->
        forall h, h ∈ hs -> lower (strip (py_str h)) <> "code").
Proof.
  split.
  - rewrite find_code_col_from. split.
    + intros (j & h & -> & Hj & Hh & Hfirst). split.
      * exists h. split; [done|]. rewrite is_code_header_eq in Hh.
        by apply bool_decide_eq_true in Hh.
      * intros i h' Hi Hh'. specialize (Hfirst i h' Hi Hh').
        rewrite is_code_header_eq in Hfirst. by apply bool_decide_eq_false in Hfirst.
    + intros [(h & Hc & Hh) Hfirst]. exists c, h. split; [done|]. split; [done|].
      split.
      * rewrite is_code_header_eq. by apply bool_decide_eq_true.
      * intros i h' Hi Hh'. rewrite is_code_header_eq.
        apply bool_decide_eq_false. by eapply Hfirst.
  - rewrite find_code_col_None. split.
    + intros H h Hh. specialize (H h Hh). rewrite is_code_header_eq in H.
      by apply bool_decide_eq_false in H.
    + intros H h Hh. rewrite is_code_header_eq. apply bool_decide_eq_false. by apply H.
Qed.

(** X4: loader and enumeration together: with a code column, the seat of
    a number of the range is scheduled exactly when no data row carries
    that number in the code column, be it as an integer or as a string
    [int] reads as that number. *)
Theorem seat_is_skipped_iff_some_row_has_its_code (sh : sheet) (c : nat)
    (start end_ m : Z) :
  find_code_col (header_row sh) 0 = Some c ->
  seat_str m ∈ seats start end_ (seen_codes (load_existing (Some sh)).1) <->
  start <= m <= end_ /\ forall row, row ∈ data_rows sh -> row_code c row <> Some m.
Proof.
  intros Hcol. rewrite elem_of_seats.
  unfold load_existing. rewrite Hcol. cbn [fst].
  destruct (load_rows_fold (header_row sh) c (data_rows sh) nothing_loaded) as [_ ->].
  cbn [seen_codes nothing_loaded]. split.
  - intros (n & Heq & Hn & Hseen). apply seat_str_inj in Heq as <-. split; [done|].
    intros row Hrow Hcode. apply Hseen.
    apply elem_of_union_r, elem_of_list_to_set, list_elem_of_fmap.
    exists m. split; [done|]. apply list_elem_of_omap. by exists row.
  - intros [Hm Hrows]. exists m. split; [done|]. split; [done|].
    intros [[]%elem_of_empty|Hin]%elem_of_union.
    apply elem_of_list_to_set, list_elem_of_fmap in Hin as (n & Heq & Hn).
    apply seat_str_inj in Heq as <-.
    apply list_elem_of_omap in Hn as (row & Hrow & Hcode). by eapply Hrows.
Qed.

Lemma seat_is_skipped_iff_some_row_has_its_code_witness :
  (seat_str 12 ∉ seats 5 13 (seen_codes (load_existing (Some sheet_with_bad_rows)).1))
  /\ (seat_str 13 ∈ seats 5 13 (seen_codes (load_existing (Some sheet_with_bad_rows)).1)).
Proof.
  split.
  - intros H.
    apply (seat_is_skipped_iff_some_row_has_its_code sheet_with_bad_rows 1 5 13 12
             eq_refl) in H as [_ H].
    apply (H [VStr "v"; VStr "12"]); [|reflexivity].
    unfold sheet_with_bad_rows. cbn [data_rows]. do 4 right. left.
  - apply (seat_is_skipped_iff_some_row_has_its_code sheet_with_bad_rows 1 5 13 13
             eq_refl).
    split; [lia|]. intros row Hrow. unfold sheet_with_bad_rows in Hrow.
    cbn [data_rows] in Hrow.
    repeat (apply elem_of_cons in Hrow as [->|Hrow]; [by vm_compute|]).
    by apply elem_of_nil in Hrow.
Defined.

(** ** The worker *)

Lemma fetch_loop_recovers net seat err item k i r :
  (forall j, (i <= j < i + k)%nat -> try_once net seat j = Raise (err j)) ->
  try_once net seat (i + k) = Return item ->
  fetch_loop net seat i (k + S r) =
    (item, failed_attempts seat err i k ++ [EvGet seat]).
Proof.
  revert i. induction k as [|k IH]; intros i Hfail Hret.
  - rewrite Nat.add_0_r in Hret. simpl. by rewrite Hret.
  - cbn [Nat.add fetch_loop failed_attempts]. rewrite Hfail by lia.
    rewrite IH.
    + done.
    + intros j Hj. apply Hfail. lia.
    + by replace (S i + k)%nat with (i + S k)%nat by lia.
Qed.

Lemma failed_attempts_counts seat err i k :
  requests (failed_attempts seat err i k) = k
  /\ sleeps (failed_attempts seat err i k) = k
  /\ log_lines (failed_attempts seat err i k)
     = (fun j => seat +:+ " → " +:+ err j) <$> seq i k.
Proof.
  revert i. induction k as [|k IH]; intros i; [done|].
  destruct (IH (S i)) as (Hreq & Hsl & Hlog). cbn [failed_attempts].
  split; [|split].
  - unfold requests in *. simpl. by rewrite Hreq.
  - unfold sleeps in *. simpl. by rewrite Hsl.
  - unfold log_lines in *. cbn. by rewrite Hlog.
Qed.

Lemma requests_app tr1 tr2 : requests (tr1 ++ tr2) = (requests tr1 + requests tr2)%nat.
Proof. unfold requests. by rewrite List.filter_app, length_app. Qed.

Lemma sleeps_app tr1 tr2 : sleeps (tr1 ++ tr2) = (sleeps tr1 + sleeps tr2)%nat.
Proof. unfold sleeps. by rewrite List.filter_app, length_app. Qed.

Lemma log_lines_app tr1 tr2 : log_lines (tr1 ++ tr2) = log_lines tr1 ++ log_lines tr2.
Proof. unfold log_lines. apply omap_app. Qed.

(** X5: a failed attempt is made good by a later one.  When the first
    [k] attempts raise and attempt [k], still within the retry count, goes
    through, the worker returns what that attempt returns; the trace has
    [k] times request, error line and sleep, then the last request: [k+1]
    requests, [k] sleeps, and as log lines the [k] errors only. *)
Theorem later_attempt_makes_good (net : network) (seat : string) (err : nat -> string)
    (item : option record) (k retries : nat) :
  (k < retries)%nat ->
  (forall j, (j < k)%nat -> try_once net seat j = Raise (err j)) ->
  try_once net seat k = Return item ->
  fetch_loop net seat 0 retries = (item, failed_attempts seat err 0 k ++ [EvGet seat])
  /\ requests (fetch_loop net seat 0 retries).2 = S k
  /\ sleeps (fetch_loop net seat 0 retries).2 = k
  /\ log_lines (fetch_loop net seat 0 retries).2
     = (fun j => seat +:+ " → " +:+ err j) <$> seq 0 k.
Proof.
  intros Hk Hfail Hret.
  assert (fetch_loop net seat 0 retries =
            (item, failed_attempts seat err 0 k ++ [EvGet seat])) as Heq.
  { replace retries with (k + S (retries - S k))%nat by lia.
    apply fetch_loop_recovers; [|done]. intros j Hj. apply Hfail. lia. }
  rewrite Heq. cbn [snd]. split; [done|].
  destruct (failed_attempts_counts seat err 0 k) as (Hreq & Hsl & Hlog).
  rewrite requests_app, sleeps_app, log_lines_app, Hreq, Hsl, Hlog.
  split; [|split].
  - unfold requests. simpl. lia.
  - unfold sleeps. simpl. lia.
  - unfold log_lines. simpl. by rewrite app_nil_r.
Qed.

Lemma later_attempt_makes_good_witness :
  fetch_one net_second_try "000001" =
    (Some record_code_2,
     [EvGet "000001"; EvLogError "000001 → timeout"; EvSleep 500; EvGet "000001"]).
Proof.
  destruct (later_attempt_makes_good net_second_try "000001" (fun _ => "timeout")
              (Some record_code_2) 1 RETRIES) as (H & _).
  - unfold RETRIES. lia.
  - intros j Hj. assert (j = 0%nat) as -> by lia. reflexivity.
  - reflexivity.
  - exact H.
Defined.

(** X6: whatever the remote side does, a worker sends at least one and
    at most [retries] requests, sleeps once per failed attempt, logs one
    line per failed attempt and one more when every attempt failed, and
    never sleeps or logs after an attempt that returned. *)
Theorem worker_effort_is_bounded (net : network) (seat : string) (i retries : nat) :
  let tr := (fetch_loop net seat i retries).2 in
  (requests tr <= retries)%nat
  /\ ((0 < retries)%nat -> (1 <= requests tr)%nat)
  /\ (sleeps tr <= requests tr)%nat
  /\ (length (log_lines tr) <= S (sleeps tr))%nat
  /\ (is_Some (fetch_loop net seat i retries).1 ->
        length (log_lines tr) = sleeps tr /\ requests tr = S (sleeps tr)).
Proof.
  revert i. induction retries as [|r IH]; intros i.
  - cbn. split; [lia|]. split; [lia|]. split; [lia|]. split; [lia|]. by intros [??].
  - cbn [fetch_loop]. destruct (try_once net seat i) as [item|err].
    + cbn. split; [lia|]. split; [lia|]. split; [lia|]. split; [lia|]. done.
    + destruct (IH (S i)) as (H1 & H2 & H3 & H4 & H5).
      cbn [snd fst]. unfold requests, sleeps, log_lines in *. cbn.
      split; [lia|]. split; [lia|]. split; [lia|]. split; [lia|].
      intros Hsome. destruct (H5 Hsome) as [-> ->]. done.
Qed.

Lemma worker_effort_is_bounded_witness :
  (1 <= requests (fetch_one net_always_failing "000042").2 <= RETRIES)%nat.
Proof.
  destruct (worker_effort_is_bounded net_always_failing "000042" 0 RETRIES)
    as (H1 & H2 & _).
  split; [apply H2; unfold RETRIES; lia|exact H1].
Defined.

(** X7: what makes the parsing of a page raise: a result section met
    with a seat string [int] refuses, or with an asserted run of digits
    longer than [int] converts; nothing else.  So for a seat of the
    enumeration, of a number of at most 4300 digits, a page raises in the
    second case only, and an attempt raises when the request fails or
    the page is such a page. *)
Theorem parsing_raises_on_what_int_refuses (seat : string) (soup : node) :
  ((exists err, parse_page seat soup = Raise err) <->
     exists sec, find_section soup = Some sec
       /\ (int_of_str seat = None
           \/ exists m, asserts sec (Some m)
                        /\ MAX_STR_DIGITS < Z.of_nat (String.length m)))
  /\ (forall n, Z.abs n < str_limit ->
        ((exists err, parse_page (seat_str n) soup = Raise err) <->
           exists sec m, find_section soup = Some sec /\ asserts sec (Some m)
                         /\ MAX_STR_DIGITS < Z.of_nat (String.length m)))
  /\ (forall net n i, Z.abs n < str_limit ->
        ((exists err, try_once net (seat_str n) i = Raise err) <->
           (exists err, net (seat_str n) i = Failed err)
           \/ exists page sec m,
                net (seat_str n) i = Page page /\ find_section page = Some sec
                /\ asserts sec (Some m)
                /\ MAX_STR_DIGITS < Z.of_nat (String.length m))).
Proof.
  assert (forall page n, Z.abs n < str_limit ->
        ((exists err, parse_page (seat_str n) page = Raise err) <->
           exists sec m, find_section page = Some sec /\ asserts sec (Some m)
                         /\ MAX_STR_DIGITS < Z.of_nat (String.length m))) as Hseat.
  { intros page n Hn. rewrite parse_page_Raise, int_of_seat_str by done. split.
    - intros (sec & Hsec & [?|(m & Hm & Hlen)]); [done|]. by exists sec, m.
    - intros (sec & m & Hsec & Hm & Hlen). exists sec. split; [done|]. right. by exists m. }
  split; [apply parse_page_Raise|]. split; [apply Hseat|].
  intros net n i Hn. unfold try_once.
  destruct (net (seat_str n) i) as [e|page].
  - split; [intros _; left; by exists e|intros _; by exists e].
  - rewrite Hseat by done. split.
    + intros (sec & m & H). right. by exists page, sec, m.
    + intros [[err [=]]|(page' & sec & m & [= <-] & H)]. by exists sec, m.
Qed.

Lemma keys_dict_set_new d k v : k ∉ keys d -> keys (dict_set d k v) = keys d ++ [k].
Proof.
  unfold keys. induction d as [|[k0 v0] d IH]; intros Hk; simpl; [done|].
  simpl in Hk. apply not_elem_of_cons in Hk as [Hne Hk].
  rewrite decide_False by done. simpl. f_equal. by apply IH.
Qed.

Lemma keys_dict_set_old d k v : k ∈ keys d -> keys (dict_set d k v) = keys d.
Proof.
  unfold keys. induction d as [|[k0 v0] d IH]; intros Hk; simpl.
  { by apply elem_of_nil in Hk. }
  destruct (decide (k0 = k)) as [->|Hne]; [done|]. simpl. f_equal. apply IH.
  simpl in Hk. apply elem_of_cons in Hk as [->|Hk]; [done|done].
Qed.

Lemma NoDup_keys_dict_set d k v : NoDup (keys d) -> NoDup (keys (dict_set d k v)).
Proof.
  intros Hd. destruct (decide (k ∈ keys d)) as [Hk|Hk].
  - by rewrite keys_dict_set_old.
  - rewrite keys_dict_set_new by done. apply NoDup_app. split; [done|].
    split; [|apply NoDup_singleton]. intros x Hx ->%list_elem_of_singleton. done.
Qed.

Lemma keys_dict_set_prefix d k v : keys d `prefix_of` keys (dict_set d k v).
Proof.
  destruct (decide (k ∈ keys d)) as [Hk|Hk].
  - by rewrite keys_dict_set_old.
  - rewrite keys_dict_set_new by done. by apply prefix_app_r.
Qed.

Lemma add_row_two_columns d cols : two_columns cols = false -> add_row d cols = d.
Proof. by destruct cols as [|c0 [|c1 [|c2 cols]]]. Qed.

Lemma add_rows_filter rows d :
  fold_left add_row rows d = fold_left add_row (List.filter two_columns rows) d.
Proof.
  revert d. induction rows as [|cols rows IH]; intros d; simpl; [done|].
  destruct (two_columns cols) eqn:Hc; simpl; [apply IH|].
  by rewrite add_row_two_columns.
Qed.

Lemma add_rows_shape rows d :
  NoDup (keys d) ->
  NoDup (keys (fold_left add_row rows d))
  /\ keys d `prefix_of` keys (fold_left add_row rows d)
  /\ forall k, k ∈ keys (fold_left add_row rows d) <->
       k ∈ keys d \/ exists cols s, cols ∈ rows /\ row_key cols = Some s /\ k = VStr s.
Proof.
  revert d. induction rows as [|cols rows IH]; intros d Hd; simpl.
  { split; [done|]. split; [done|]. intros k. split; [auto|].
    intros [?|(cols & s & []%elem_of_nil & _)]. done. }
  assert (NoDup (keys (add_row d cols))) as Hd'.
  { destruct cols as [|c0 [|c1 [|c2 cols]]]; simpl; try done.
    by apply NoDup_keys_dict_set. }
  destruct (IH _ Hd') as (Hnodup & Hpre & Hmem). split; [done|]. split.
  - etrans; [|exact Hpre].
    destruct cols as [|c0 [|c1 [|c2 cols]]]; simpl; try done.
    apply keys_dict_set_prefix.
  - intros k. rewrite Hmem. clear. split.
    + intros [Hk|(cols' & s & Hin & Hkey & ->)].
      * destruct cols as [|c0 [|c1 [|c2 cols]]]; simpl in Hk; auto.
        apply keys_dict_set in Hk as [->|Hk]; [|auto].
        right. eexists [c0; c1], _. split; [left|]. done.
      * right. exists cols', s. split; [by right|done].
    + intros [Hk|(cols' & s & Hin & Hkey & ->)].
      * left. destruct cols as [|c0 [|c1 [|c2 cols]]]; simpl; auto.
        apply keys_dict_set. auto.
      * apply elem_of_cons in Hin as [->|Hin]; [|right; by exists cols', s].
        left. destruct cols as [|c0 [|c1 [|c2 cols]]]; simpl in Hkey; try done.
        injection Hkey as <-. simpl. apply keys_dict_set. auto.
Qed.

(** X8: a record the worker returns is a dict in good order: it comes
    from a page with a result section and a table, its keys are
    distinct, [name] and [code] come first, and the other keys are
    exactly the subject keys of the table rows of two cells; rows of any
    other number of cells leave no trace.  Without a row keyed [name],
    the name is the stripped text of the first [h2], empty when there is
    none. *)
Theorem worker_record_is_well_formed (net : network) (seat : string) (rec : record) :
  worker net seat = Some rec ->
  exists soup sec table requested,
    (exists j, net seat j = Page soup)
    /\ find_section soup = Some sec /\ find "table" sec = Some table
    /\ int_of_str seat = Some requested
    /\ rec = fold_left add_row (List.filter two_columns (table_rows table))
               [(k_name, VStr (display_name sec));
                (k_code, VInt (default requested (asserted_code sec)))]
    /\ NoDup (keys rec)
    /\ take 2 (keys rec) = [k_name; k_code]
    /\ (forall k, k ∈ keys rec <->
          k = k_name \/ k = k_code
          \/ exists cols s, cols ∈ table_rows table /\ row_key cols = Some s /\ k = VStr s)
    /\ ((forall cols, cols ∈ table_rows table -> row_key cols <> Some "name") ->
        dict_get rec k_name = Some (VStr (display_name sec))).
Proof.
  intros (j & soup & Hnet & Hp)%fetch_loop_Some.
  apply parse_page_Some in Hp as (sec & requested & table & Hsec & Hseat & _ & Htab & Hrec).
  exists soup, sec, table, requested.
  split; [by exists j|]. do 3 (split; [done|]).
  split; [by rewrite <- add_rows_filter|].
  set (d := [(k_name, VStr (display_name sec));
             (k_code, VInt (default requested (asserted_code sec)))]) in *.
  assert (NoDup (keys d)) as Hd.
  { unfold keys, d. simpl. apply NoDup_cons. split.
    - intros Hin%list_elem_of_singleton. discriminate.
    - apply NoDup_singleton. }
  destruct (add_rows_shape (table_rows table) d Hd) as (Hnodup & [ks Hks] & Hmem).
  rewrite <- Hrec in Hnodup, Hks, Hmem.
  split; [done|]. split; [by rewrite Hks|]. split.
  - intros k. rewrite Hmem. unfold keys, d. simpl.
    rewrite !elem_of_cons, elem_of_nil. tauto.
  - intros Hrows. subst rec. unfold k_name. by rewrite add_rows_get_other.
Qed.

Lemma worker_record_is_well_formed_witness :
  exists rec, worker net_mixed_rows "000007" = Some rec
              /\ keys rec = [k_name; k_code; VStr "Math"].
Proof.
  destruct (worker_record_is_well_formed net_mixed_rows "000007"
              [(k_name, VStr ""); (k_code, VInt 7); (VStr "Math", VStr "45")] eq_refl) as (_ & _ & _ & _ & _).
  eexists. split; reflexivity.
Defined.

Lemma last_row_with_key (rows : list (list string)) (s : string) :
  (exists cols, cols ∈ rows /\ row_key cols = Some s) ->
  exists before c0 c1 after,
    rows = before ++ [c0; c1] :: after
    /\ strip (before_first "/" c0) = s
    /\ forall cols, cols ∈ after -> row_key cols <> Some s.
Proof.
  induction rows as [|cols rows IH]; intros (cols' & Hin & Hkey).
  { by apply elem_of_nil in Hin. }
  destruct (decide (Exists (fun r => row_key r = Some s) rows)) as [Hex|Hno].
  - apply Exists_exists in Hex as (r & Hr & Hrk).
    destruct IH as (before & c0 & c1 & after & -> & Hs & Hafter); [by exists r|].
    by exists (cols :: before), c0, c1, after.
  - assert (forall r, r ∈ rows -> row_key r <> Some s) as Hafter.
    { intros r Hr Hrk. apply Hno, Exists_exists. by exists r. }
    apply elem_of_cons in Hin as [->|Hin]; [|by destruct (Hafter _ Hin)].
    destruct cols as [|c0 [|c1 [|c2 cols]]]; try done.
    injection Hkey as Hkey. by exists [], c0, c1, rows.
Qed.

(** X9: every table row of two cells leaves its subject in the record,
    and when a subject occurs in several rows the last one decides: the
    grade under a subject key is the second cell of the last row with
    that key.  (A record is assembled: the section asserts no code of
    more than [MAX_STR_DIGITS] digits.) *)
Theorem last_row_of_a_subject_decides (seat : string) (soup sec table : node)
    (requested : Z) (cols : list string) (s : string) :
  find_section soup = Some sec ->
  int_of_str seat = Some requested ->
  (forall m, asserts sec (Some m) -> Z.of_nat (String.length m) <= MAX_STR_DIGITS) ->
  find "table" sec = Some table ->
  cols ∈ table_rows table ->
  row_key cols = Some s ->
  exists rec before c0 c1 after,
    parse_page seat soup = Return (Some rec)
    /\ table_rows table = before ++ [c0; c1] :: after
    /\ strip (before_first "/" c0) = s
    /\ (forall cols', cols' ∈ after -> row_key cols' <> Some s)
    /\ dict_get rec (VStr s) = Some (VStr c1).
Proof.
  intros Hsec Hseat Hcode Htab Hcols Hkey.
  destruct (last_row_with_key (table_rows table) s) as
    (before & c0 & c1 & after & Hrows & Hs & Hafter); [by exists cols|].
  eexists _, before, c0, c1, after.
  split; [eapply parse_page_record; [done..| |done]; by apply resolve_code_asserts|].
  split; [done|]. split; [done|].
  split; [done|]. rewrite Hrows, <- Hs. apply add_rows_get_last.
  intros cols' Hin. simpl. rewrite Hs. by apply Hafter.
Qed.

Lemma last_row_of_a_subject_decides_witness :
  exists rec, parse_page "000007" page_mixed_rows = Return (Some rec)
              /\ dict_get rec (VStr "Math") = Some (VStr "45").
Proof.
  destruct (last_row_of_a_subject_decides "000007" page_mixed_rows
              (Elem "section" [("id", "student_result")]
                 [Elem "table" []
                    [Elem "tr" [] [Elem "th" [] [Text "Subject"]; Elem "th" [] [Text "Grade"]];
                     Elem "tr" [] [td "Math"; td "10"];
                     Elem "tr" [] [td "Total"];
                     Elem "tr" [] [td "Art"; td "7"; td "note"];
                     Elem "tr" [] [td " Math /50 "; td "45"]]])
              (Elem "table" []
                    [Elem "tr" [] [Elem "th" [] [Text "Subject"]; Elem "th" [] [Text "Grade"]];
                     Elem "tr" [] [td "Math"; td "10"];
                     Elem "tr" [] [td "Total"];
                     Elem "tr" [] [td "Art"; td "7"; td "note"];
                     Elem "tr" [] [td " Math /50 "; td "45"]])
              7 ["Math"; "10"] "Math" eq_refl eq_refl)
    as (rec & before & c0 & c1 & after & Hp & _).
  - intros m Hm%asserts_digits. discriminate Hm.
  - reflexivity.
  - vm_compute. right. left.
  - reflexivity.
  - eexists. split; reflexivity.
Defined.

(** ** The run *)

(** X10: the order in which the tasks complete decides the order of the
    results and of the [[OK]] lines and nothing else: whatever the
    schedule, [run] returns, its results are a rearrangement of the
    records the workers give for the scheduled seats taken in order, and
    there is one [[OK]] line per result, in the same order. *)
Theorem completion_order_only_reorders_results (net : network) (sched : schedule)
    (start end_ : Z) (seen : gset string) :
  rearranges sched ->
  exists results console,
    run net sched start end_ seen = Some (results, console)
    /\ results ≡ₚ omap (worker net) (seats start end_ seen)
    /\ console = record_line <$> results
    /\ (length results <= length (seats start end_ seen))%nat.
Proof.
  intros Hsched. eexists _, _. split; [apply run_returns|].
  assert (omap (worker net) (sched (seats start end_ seen))
          ≡ₚ omap (worker net) (seats start end_ seen)) as Hperm.
  { by rewrite (Hsched _). }
  split; [done|]. split; [done|].
  rewrite Hperm. clear. induction (seats start end_ seen) as [|s l IH]; [done|].
  csimpl. destruct (worker net s); simpl; lia.
Qed.

Lemma completion_order_only_reorders_results_witness :
  exists results console,
    run net_some_seats reverse 1 5 ∅ = Some (results, console)
    /\ results ≡ₚ omap (worker net_some_seats) (seats 1 5 ∅).
Proof.
  destruct (completion_order_only_reorders_results net_some_seats reverse 1 5 ∅)
    as (results & console & Hrun & Hperm & _).
  - intros l. apply reverse_Permutation.
  - by exists results, console.
Defined.

Lemma dict_set_elem (d : record) k v k' v' :
  (k', v') ∈ dict_set d k v -> (k', v') ∈ d \/ (k' = k /\ v' = v).
Proof.
  induction d as [|[k0 v0] d IH]; simpl.
  - intros [= -> ->]%list_elem_of_singleton. by right.
  - destruct (decide (k0 = k)) as [->|Hne].
    + intros [[= -> ->]|Hin]%elem_of_cons; [by right|]. left. by right.
    + intros [[= -> ->]|Hin]%elem_of_cons; [left; left|].
      destruct (IH Hin) as [?|?]; [left; by right|by right].
Qed.

Lemma add_rows_values rows (d : record) k v :
  (k, v) ∈ fold_left add_row rows d -> (k, v) ∈ d \/ exists s, v = VStr s.
Proof.
  revert d. induction rows as [|cols rows IH]; intros d; simpl; [auto|].
  intros [Hin|?]%IH; [|by right].
  destruct cols as [|c0 [|c1 [|c2 cols]]]; simpl in Hin; auto.
  apply dict_set_elem in Hin as [?|[_ ->]]; eauto.
Qed.

(** The values of a fetched record are strings, but for the integer the
    code is resolved to. *)
Lemma worker_record_values net seat rec k v :
  worker net seat = Some rec -> (k, v) ∈ rec ->
  (exists s, v = VStr s) \/ (k = k_code /\ exists n, v = VInt n).
Proof.
  intros (j & soup & _ & Hp)%fetch_loop_Some Hin.
  apply parse_page_Some in Hp as (sec & requested & table & _ & _ & _ & _ & ->).
  apply add_rows_values in Hin as [Hin|?]; [|by left].
  apply elem_of_cons in Hin as [[= -> ->]|Hin]; [left; by eexists|].
  apply list_elem_of_singleton in Hin as [= -> ->]. right. split; [done|]. by eexists.
Qed.

(** X11: a run that starts without an output file never fails in
    [sorted]: the field names of fetched records are strings, so the
    headers can always be ordered.  When nothing was fetched the writer
    prints its line and stops; otherwise it hands to the workbook the
    header row [name], [code] and the subjects, and one row per fetched
    record, each as long as the header row, and [ws.write] raises on one
    of these cells exactly when some record carries as its code an
    integer beyond the range of a double. *)
Theorem fresh_run_headers_always_sort (net : network) (sched : schedule)
    (start end_ : Z) :
  exists results console,
    run net sched start end_ ∅ = Some (results, console)
    /\ combine_and_write [] results <> SortError
    /\ (results = [] -> combine_and_write [] results = NothingToWrite [no_new_records])
    /\ (results <> [] ->
        exists rest rows summary,
          combine_and_write [] results
            = Written (k_name :: k_code :: (VStr <$> rest)) rows summary
          /\ length rows = length results
          /\ (forall row, row ∈ rows -> length row = S (S (length rest)))
          /\ (write_raises (k_name :: k_code :: (VStr <$> rest)) rows = true <->
                exists rec n, rec ∈ results /\ dict_get rec k_code = Some (VInt n)
                              /\ 2 ^ 1024 - 2 ^ 970 <= Z.abs n)).
Proof.
  rewrite run_returns.
  set (results := omap (worker net) (sched (seats start end_ ∅))).
  eexists results, _. split; [done|].
  assert (string_keyed ([] ++ results)) as Hkeys by apply run_results_string_keyed.
  assert (forall rec, rec ∈ results -> exists s, worker net s = Some rec) as Hworker.
  { intros rec (s & _ & Hs)%list_elem_of_omap. by exists s. }
  destruct results as [|r0 results'] eqn:Hres.
  - split; [done|]. split; [done|]. done.
  - rewrite <- Hres in *.
    destruct (headers_string_keyed _ Hkeys) as (rest & Hhs' & _).
    destruct (combine_and_write_string_keyed [] results Hkeys) as (hs & Hhs & Hw).
    { rewrite Hres. done. }
    rewrite Hhs' in Hhs. injection Hhs as <-.
    rewrite Hw. split; [done|]. split; [by rewrite Hres|]. intros _.
    eexists rest, _, _. split; [done|]. split; [by rewrite length_fmap|].
    split.
    { intros row (rec & -> & _)%list_elem_of_fmap.
      unfold row_of. rewrite length_fmap. simpl. by rewrite length_fmap. }
    set (hs := k_name :: k_code :: (VStr <$> rest)).
    unfold write_raises. rewrite existsb_exists. fold hs. split.
    + intros (v & Hv%list_elem_of_In & Hraise).
      destruct v as [|n|s]; [done| |done]. simpl in Hraise. apply Z.leb_le in Hraise.
      apply elem_of_app in Hv as [Hv|Hv].
      { exfalso. subst hs.
        apply elem_of_cons in Hv as [?|Hv]; [done|].
        apply elem_of_cons in Hv as [?|Hv]; [done|].
        by apply list_elem_of_fmap in Hv as (s & ? & _). }
      apply list_elem_of_In, in_concat in Hv as (row & Hrow%list_elem_of_In & Hv%list_elem_of_In).
      apply list_elem_of_fmap in Hrow as (rec & -> & Hrec).
      apply list_elem_of_fmap in Hv as (h & Hv & Hh).
      destruct (dict_get rec h) as [v|] eqn:Hget; simpl in Hv; [subst v|done].
      destruct (Hworker rec Hrec) as [s Hs].
      pose proof (dict_get_elem _ _ _ Hget) as Hin.
      destruct (worker_record_values _ _ _ _ _ Hs Hin) as [[? ?]|[-> _]]; [done|].
      by exists rec, n.
    + intros (rec & n & Hrec & Hcode & Hn).
      exists (VInt n). split; [|by apply Z.leb_le].
      apply list_elem_of_In, elem_of_app. right.
      apply list_elem_of_In, in_concat. exists (row_of hs rec). split.
      * apply list_elem_of_In. by apply list_elem_of_fmap_2.
      * apply list_elem_of_In, (list_elem_of_lookup_2 _ 1%nat).
        subst hs. simpl. by rewrite Hcode.
Qed.

(** X12: [sorted] cannot order [None] against a string.  When some
    record has the key [None] (a prior record read under a blank header
    cell) and some record has another key besides [name] and [code], the
    writer fails before the workbook is created: no header row, no
    rows, and the file stays as it was. *)
Theorem blank_header_stops_the_writer (existing results : list record)
    (old : option sheet) (k : value) :
  (exists rec, rec ∈ existing ++ results /\ VNone ∈ keys rec) ->
  (exists rec, rec ∈ existing ++ results /\ k ∈ keys rec) ->
  k <> VNone -> k <> k_name -> k <> k_code ->
  headers (existing ++ results) = None
  /\ combine_and_write existing results = SortError
  /\ file_after old (combine_and_write existing results) = old.
Proof.
  intros (rec1 & Hrec1 & Hnone) (rec2 & Hrec2 & Hk) HkN Hkn Hkc.
  set (others := List.filter not_pinned (union_keys (existing ++ results))).
  assert (VNone ∈ others) as H1.
  { apply list_elem_of_In, filter_In. split; [|done].
    apply list_elem_of_In, elem_of_union_keys. by exists rec1. }
  assert (k ∈ others) as H2.
  { apply list_elem_of_In, filter_In. split.
    - apply list_elem_of_In, elem_of_union_keys. by exists rec2.
    - unfold not_pinned. by rewrite !bool_decide_eq_false_2. }
  assert (py_sorted others = None) as Hsorted.
  { assert (mapM as_str others = None) as Hstr.
    { apply mapM_None, Exists_exists. by exists VNone. }
    assert (mapM as_int others = None) as Hint.
    { apply mapM_None, Exists_exists. by exists VNone. }
    destruct others as [|a [|b others']].
    - by apply elem_of_nil in H1.
    - apply list_elem_of_singleton in H1. apply list_elem_of_singleton in H2. congruence.
    - unfold py_sorted. by rewrite Hstr, Hint. }
  assert (headers (existing ++ results) = None) as Hhs.
  { unfold headers. fold others. by rewrite Hsorted. }
  assert (combine_and_write existing results = SortError) as Hw.
  { unfold combine_and_write. destruct (existing ++ results) as [|r0 all] eqn:Hall.
    - by apply elem_of_nil in Hrec1.
    - by rewrite Hhs. }
  by rewrite Hw.
Qed.

Lemma blank_header_stops_the_writer_witness :
  combine_and_write (existing (load_existing (Some sheet_blank_header)).1) [] = SortError.
Proof.
  destruct (blank_header_stops_the_writer
              (existing (load_existing (Some sheet_blank_header)).1) []
              (Some sheet_blank_header) (VStr "Math")) as (_ & Hw & _).
  - eexists. split; [left|]. vm_compute. do 2 right. left.
  - eexists. split; [left|]. vm_compute. do 3 right. left.
  - discriminate.
  - discriminate.
  - discriminate.
  - exact Hw.
Defined.

(** X13: when every request of a run is answered with a page, and no
    page asserts a code of more digits than [int] converts, nothing is
    logged: each scheduled seat takes one request, and the error log of
    the run is empty.  (The bounds are numbers [str] prints.) *)
Theorem answered_run_logs_nothing (net : network) (start end_ : Z) (seen : gset string) :
  - str_limit < start -> end_ < str_limit ->
  (forall s, s ∈ seats start end_ seen ->
     exists soup, net s 0%nat = Page soup
       /\ forall sec m, find_section soup = Some sec -> asserts sec (Some m) ->
             Z.of_nat (String.length m) <= MAX_STR_DIGITS) ->
  error_log net (seats start end_ seen) = []
  /\ forall s, s ∈ seats start end_ seen -> (fetch_one net s).2 = [EvGet s].
Proof.
  intros Hstart Hend Hnet.
  assert (forall s, s ∈ seats start end_ seen -> (fetch_one net s).2 = [EvGet s]) as Hone.
  { intros s Hs. destruct (Hnet s Hs) as (soup & Hsoup & Hdigits).
    apply elem_of_seats in Hs as (n & -> & Hn & _).
    unfold fetch_one, RETRIES. cbn [fetch_loop]. unfold try_once. rewrite Hsoup.
    destruct (parse_page (seat_str n) soup) as [item|err] eqn:Hp; [done|]. exfalso.
    assert (exists err, parse_page (seat_str n) soup = Raise err) as Hraise by eauto.
    apply parse_page_Raise in Hraise as (sec & Hsec & [Hint|(m & Hm & Hlen)]).
    - rewrite int_of_seat_str in Hint by lia. done.
    - specialize (Hdigits sec m Hsec Hm). lia. }
  split; [|done]. unfold error_log.
  induction (seats start end_ seen) as [|s l IH]; [done|].
  csimpl. rewrite List.filter_app, Hone by left. simpl.
  apply IH.
  - intros s' Hs'. apply Hnet. by right.
  - intros s' Hs'. apply Hone. by right.
Qed.

Lemma answered_run_logs_nothing_witness : error_log net_some_seats (seats 1 5 ∅) = [].
Proof.
  destruct (answered_run_logs_nothing net_some_seats 1 5 ∅) as [H _]; [| | |exact H].
  - vm_compute. reflexivity.
  - vm_compute. reflexivity.
  - intros s Hs. unfold net_some_seats.
    repeat case_decide; eexists; (split; [reflexivity|]);
      intros sec m Hsec Hm%asserts_digits; vm_compute in Hsec;
      try discriminate Hsec; injection Hsec as <-; vm_compute in Hm;
      try discriminate Hm; injection Hm as <-; done.
Defined.

(** ** Writing, then loading: the records *)

Lemma dict_set_new d k v : k ∉ keys d -> dict_set d k v = d ++ [(k, v)].
Proof.
  unfold keys. induction d as [|[k0 v0] d IH]; intros Hk; simpl; [done|].
  simpl in Hk. apply not_elem_of_cons in Hk as [Hne Hk].
  rewrite decide_False by done. f_equal. by apply IH.
Qed.

Lemma dict_of_pairs_NoDup_from (l d : list (value * value)) :
  NoDup (keys d ++ l.*1) ->
  fold_left (fun d kv => dict_set d kv.1 kv.2) l d = d ++ l.
Proof.
  revert d. induction l as [|[k v] l IH]; intros d Hnodup; simpl.
  { by rewrite app_nil_r. }
  simpl in Hnodup. rewrite dict_set_new.
  - rewrite IH; [by rewrite <- app_assoc|].
    unfold keys. rewrite fmap_app. simpl. by rewrite <- app_assoc.
  - apply NoDup_app in Hnodup as (_ & Hdisj & _). intros Hk.
    apply (Hdisj k Hk). left.
Qed.

(** [dict(zip(keys, values))] of distinct keys is the list of pairs. *)
Lemma dict_of_pairs_NoDup (l : list (value * value)) :
  NoDup l.*1 -> dict_of_pairs l = l.
Proof. intros H. unfold dict_of_pairs. by rewrite dict_of_pairs_NoDup_from. Qed.

Lemma dict_get_lookup (l : list (value * value)) j k v :
  NoDup l.*1 -> l !! j = Some (k, v) -> dict_get l k = Some v.
Proof.
  revert j. induction l as [|[k0 v0] l IH]; intros j Hnodup Hj; [done|].
  simpl in Hnodup. apply NoDup_cons in Hnodup as [Hk0 Hnodup].
  destruct j as [|j]; simpl in *.
  - injection Hj as -> ->. by rewrite decide_True.
  - rewrite decide_False; [by eapply IH|].
    intros ->. apply Hk0. apply list_elem_of_fmap. exists (k, v).
    split; [done|]. by eapply list_elem_of_lookup_2.
Qed.

Lemma filter_Forall_id {A} (P : A -> Prop) `{forall x, Decision (P x)} (l : list A) :
  Forall P l -> filter P l = l.
Proof.
  induction 1 as [|x l Hx Hl IH]; [done|]. by rewrite filter_cons_True, IH.
Qed.

Lemma stored_cell_str_inj a b : stored_cell (VStr a) = stored_cell (VStr b) -> a = b.
Proof. destruct a, b; simpl; congruence. Qed.

Lemma NoDup_written_headers (rest : list string) :
  NoDup rest -> (forall s, s ∈ rest -> s <> "name" /\ s <> "code") ->
  NoDup (stored_cell <$> k_name :: k_code :: (VStr <$> rest)).
Proof.
  intros Hnodup Hrest. apply NoDup_fmap_2_strong.
  - intros x y Hx Hy Heq.
    assert (forall z, z ∈ k_name :: k_code :: (VStr <$> rest) -> exists s, z = VStr s) as Hstr.
    { intros z [->|[->|(s & -> & _)%list_elem_of_fmap]%elem_of_cons]%elem_of_cons;
        by eexists. }
    destruct (Hstr x Hx) as [a ->]. destruct (Hstr y Hy) as [b ->].
    f_equal. by apply stored_cell_str_inj.
  - apply NoDup_cons. split.
    + intros [Heq|(s & [= <-] & Hs)%list_elem_of_fmap]%elem_of_cons; [discriminate|].
      by destruct (Hrest _ Hs).
    + apply NoDup_cons. split.
      * intros (s & [= <-] & Hs)%list_elem_of_fmap. by destruct (Hrest _ Hs).
      * apply (NoDup_fmap_2 VStr). exact Hnodup.
Qed.

(** X14: what was written is read back, where the file stores it
    exactly.  For a dataset of storable records (exact field names,
    storable values) that all carry a code [int] accepts, the workbook
    is read back as described, and the next run's loader recovers one
    prior record per written record, in the same order; each has the
    header cells as its keys, in header order, and holds under every
    header the value the record had, an empty string and a missing field
    both read as [None]. *)
Theorem written_records_are_read_back (rs : list fields) :
  rs <> [] ->
  (forall r, r ∈ rs -> is_Some (record_code (as_dict r))) ->
  (forall r, r ∈ rs -> storable_record (as_dict r)) ->
  exists hs rows console,
    combine_and_write [] (as_dict <$> rs) = Written hs rows console
    /\ read_back hs rows = Some (stored_sheet hs rows)
    /\ length (existing (load_existing (Some (stored_sheet hs rows))).1) = length rs
    /\ forall i r, rs !! i = Some r ->
         exists prior,
           existing (load_existing (Some (stored_sheet hs rows))).1 !! i = Some prior
           /\ keys prior = stored_cell <$> hs
           /\ forall h, h ∈ hs ->
                dict_get prior (stored_cell h)
                = Some (stored_cell (default (VStr EmptyString) (dict_get (as_dict r) h))).
Proof.
  intros Hne Hcodes Hst.
  destruct (headers_string_keyed _ (string_keyed_as_dict rs))
    as (rest & Hhs & _ & Hnodup & Hmem).
  destruct (combine_and_write_string_keyed [] (as_dict <$> rs)) as (hs & Hhs' & Hw).
  { apply string_keyed_as_dict. } { simpl. by intros ?%fmap_nil_inv. }
  simpl in Hhs', Hw. rewrite Hhs in Hhs'. injection Hhs' as <-.
  set (hs := k_name :: k_code :: (VStr <$> rest)) in *.
  eexists hs, _, _. split; [exact Hw|].
  split.
  { eapply (storable_records_described [] (as_dict <$> rs)); [| |exact Hw].
    - apply string_keyed_as_dict.
    - intros rec (r & -> & Hr)%list_elem_of_fmap. by apply Hst. }
  assert (NoDup (stored_cell <$> hs)) as Hhdr.
  { apply NoDup_written_headers; [done|]. intros s Hs. apply Hmem in Hs. tauto. }
  assert (existing (load_existing (Some (stored_sheet hs (row_of hs <$> (as_dict <$> rs))))).1
          = (fun r => zip (stored_cell <$> hs) (stored_cell <$> row_of hs (as_dict r))) <$> rs)
    as Hex.
  { unfold load_existing, stored_sheet. cbn [header_row data_rows].
    unfold hs at 1. rewrite find_code_col_written. cbn [fst].
    destruct (load_rows_fold (stored_cell <$> hs) 1
                ((fun row : list value => stored_cell <$> row)
                   <$> (row_of hs <$> (as_dict <$> rs))) nothing_loaded) as [-> _].
    cbn [existing nothing_loaded app].
    rewrite filter_Forall_id.
    - rewrite <- !list_fmap_compose. apply list_fmap_ext. intros _ r _.
      unfold compose, row_record. apply dict_of_pairs_NoDup.
      rewrite fst_zip; [done|]. unfold row_of. by rewrite !length_fmap.
    - apply Forall_forall. intros row Hrow.
      apply list_elem_of_fmap in Hrow as (row' & -> & Hrow).
      apply list_elem_of_fmap in Hrow as (rec & -> & Hrow).
      apply list_elem_of_fmap in Hrow as (r & -> & Hr).
      rewrite row_code_stored. unfold hs. rewrite row_code_row_of. by apply Hcodes. }
  rewrite Hex. split; [by rewrite length_fmap|].
  intros i r Hi. eexists. split; [by rewrite list_lookup_fmap, Hi|]. split.
  - unfold keys. rewrite fst_zip; [done|]. unfold row_of. by rewrite !length_fmap.
  - intros h Hh. apply list_elem_of_lookup in Hh as [j Hj].
    apply (dict_get_lookup _ j).
    + rewrite fst_zip; [done|]. unfold row_of. by rewrite !length_fmap.
    + rewrite lookup_zip_with, !list_lookup_fmap.
      unfold row_of. rewrite list_lookup_fmap, Hj. done.
Qed.

Lemma written_records_are_read_back_witness :
  exists hs rows console,
    combine_and_write [] (as_dict <$> (prior_example ++ new_example))
      = Written hs rows console
    /\ read_back hs rows = Some (stored_sheet hs rows)
    /\ length (existing (load_existing (Some (stored_sheet hs rows))).1) = 2%nat.
Proof.
  destruct (written_records_are_read_back (prior_example ++ new_example))
    as (hs & rows & console & Hw & Hback & Hlen & _).
  - discriminate.
  - intros r Hr. unfold prior_example, new_example in Hr. simpl in Hr.
    repeat (apply elem_of_cons in Hr as [->|Hr]; [by eexists|]).
    by apply elem_of_nil in Hr.
  - intros r Hr k v Hkv. unfold prior_example, new_example in Hr. simpl in Hr.
    repeat (apply elem_of_cons in Hr as [->|Hr];
      [simpl in Hkv;
       repeat (apply elem_of_cons in Hkv as [[= -> ->]|Hkv]; [split; reflexivity|]);
       by apply elem_of_nil in Hkv|]).
    by apply elem_of_nil in Hr.
  - by exists hs, rows, console.
Defined.

(** ** Prior records *)

Lemma dict_get_fold_set (l d : list (value * value)) (k : value) :
  dict_get (fold_left (fun d kv => dict_set d kv.1 kv.2) l d) k =
    match last (filter (fun kv => kv.1 = k) l) with
    | Some kv => Some kv.2
    | None => dict_get d k
    end.
Proof.
  revert d. induction l as [|[k0 v0] l IH]; intros d; [done|].
  cbn [fold_left]. rewrite IH. rewrite filter_cons. cbn [fst snd].
  destruct (decide (k0 = k)) as [->|Hne].
  - destruct (filter _ l) as [|kv l']; [simpl; apply dict_get_set_eq|].
    change (last ((k, v0) :: kv :: l')) with (last (kv :: l')).
    destruct (last (kv :: l')) eqn:Hlast; [done|]. by apply last_None in Hlast.
  - destruct (last (filter _ l)); [done|]. by apply dict_get_set_ne.
Qed.

Lemma keys_dict_of_pairs (l : list (value * value)) k :
  k ∈ keys (dict_of_pairs l) <-> k ∈ l.*1.
Proof.
  unfold dict_of_pairs.
  assert (forall d, k ∈ keys (fold_left (fun d kv => dict_set d kv.1 kv.2) l d)
                    <-> k ∈ keys d \/ k ∈ l.*1) as H.
  { induction l as [|[k0 v0] l IH]; intros d; simpl.
    - rewrite elem_of_nil. tauto.
    - rewrite IH, keys_dict_set, elem_of_cons. tauto. }
  rewrite H. unfold keys. simpl. rewrite elem_of_nil. tauto.
Qed.

(** X15: a prior record is [dict(zip(header_row, row))]: its keys are
    header cells of columns the row reaches, and under a key it holds
    the cell of the last such column with that header, so that of two
    columns with the same header the earlier one is lost.  When the
    headers are distinct, it holds under each header the cell of its
    column. *)
Theorem prior_record_holds_last_column_of_a_header (hdr row : list value) (k : value) :
  (k ∈ keys (dict_of_pairs (zip hdr row)) <->
     exists j, (j < length row)%nat /\ hdr !! j = Some k)
  /\ dict_get (dict_of_pairs (zip hdr row)) k
     = snd <$> last (filter (fun kv => kv.1 = k) (zip hdr row))
  /\ (NoDup hdr -> forall j v, hdr !! j = Some k -> row !! j = Some v ->
        dict_get (dict_of_pairs (zip hdr row)) k = Some v).
Proof.
  split; [|split].
  - rewrite keys_dict_of_pairs, list_elem_of_fmap. split.
    + intros ([k' v] & -> & Hin). apply list_elem_of_lookup in Hin as [j Hj].
      rewrite lookup_zip_with in Hj.
      destruct (hdr !! j) as [h|] eqn:Hh; [|done].
      destruct (row !! j) as [c|] eqn:Hc; [|done]. injection Hj as <- <-.
      exists j. split; [by eapply lookup_lt_Some|done].
    + intros (j & Hlt & Hj). destruct (lookup_lt_is_Some_2 row j Hlt) as [v Hv].
      exists (k, v). split; [done|]. apply list_elem_of_lookup. exists j.
      by rewrite lookup_zip_with, Hj, Hv.
  - unfold dict_of_pairs. rewrite dict_get_fold_set.
    by destruct (last _).
  - intros Hnodup j v Hj Hv.
    assert (NoDup (zip hdr row).*1) as Hl.
    { apply (sublist_NoDup _ hdr); [done|].
      clear. revert row. induction hdr as [|h hdr IH]; intros [|c row]; simpl.
      - done.
      - done.
      - apply sublist_nil_l.
      - by apply sublist_skip. }
    assert (zip hdr row !! j = Some (k, v)) as Hlj.
    { by rewrite lookup_zip_with, Hj, Hv. }
    rewrite dict_of_pairs_NoDup by done. by eapply dict_get_lookup.
Qed.

Lemma prior_record_holds_last_column_of_a_header_witness :
  existing (load_existing (Some sheet_twice_math)).1 =
    [[(VStr "name", VStr "A"); (VStr "code", VInt 1); (VStr "Math", VStr "45")];
     [(VStr "name", VStr "B"); (VStr "code", VInt 2); (VStr "Math", VStr "30")]]
  /\ dict_get (dict_of_pairs (zip [VStr "name"; VStr "code"] [VStr "A"; VInt 1; VStr "x"]))
              (VStr "code") = Some (VInt 1).
Proof.
  split; [reflexivity|].
  destruct (prior_record_holds_last_column_of_a_header
              [VStr "name"; VStr "code"] [VStr "A"; VInt 1; VStr "x"] (VStr "code"))
    as (_ & _ & H).
  apply (H ltac:(repeat constructor; set_solver) 1%nat (VInt 1)); reflexivity.
Defined.

(** X16: the loader accepts a code header in any case and with spaces
    around it, but the writer reads the code of a record under the exact
    key [code].  So when the file has string headers, none of them
    exactly [code], and a run fetches nothing new, the prior records are
    rewritten with an empty [code] cell, and the run after that loads no
    prior record and sees no seat. *)
Theorem prior_records_are_lost_without_exact_code_header (sh : sheet) (c : nat) :
  find_code_col (header_row sh) 0 = Some c ->
  (forall h, h ∈ header_row sh -> exists s, h = VStr s /\ s <> "code") ->
  existing (load_existing (Some sh)).1 <> [] ->
  exists hs rows console,
    combine_and_write (existing (load_existing (Some sh)).1) [] = Written hs rows console
    /\ length rows = length (existing (load_existing (Some sh)).1)
    /\ (forall row, row ∈ rows -> row !! 1%nat = Some (VStr EmptyString))
    /\ load_existing (Some (stored_sheet hs rows)) = (Loaded [] ∅, [loaded_message 0]).
Proof.
  intros Hcol Hhdr Hne.
  set (prior := existing (load_existing (Some sh)).1) in *.
  assert (forall rec k, rec ∈ prior -> k ∈ keys rec -> exists s, k = VStr s /\ s <> "code")
    as Hkeys.
  { intros rec k Hrec Hk. subst prior. unfold load_existing in Hrec.
    rewrite Hcol in Hrec. cbn [fst] in Hrec.
    destruct (load_rows_fold (header_row sh) c (data_rows sh) nothing_loaded) as [Hex _].
    rewrite Hex in Hrec. cbn [existing nothing_loaded app] in Hrec.
    apply list_elem_of_fmap in Hrec as (row & -> & _).
    unfold row_record in Hk.
    apply (keys_dict_of_pairs (zip (header_row sh) row)) in Hk.
    apply list_elem_of_fmap in Hk as ([k' v] & -> & Hin).
    apply list_elem_of_lookup in Hin as [j Hj]. rewrite lookup_zip_with in Hj.
    destruct (header_row sh !! j) as [h|] eqn:Hh; [|done].
    destruct (row !! j); [|done]. injection Hj as <- <-.
    apply Hhdr. by eapply list_elem_of_lookup_2. }
  assert (forall rec, rec ∈ prior -> dict_get rec k_code = None) as Hnocode.
  { intros rec Hrec. destruct (dict_get rec k_code) as [v|] eqn:Hv; [|done].
    assert (k_code ∈ keys rec) as Hk by (apply dict_get_is_Some; eauto).
    destruct (Hkeys _ _ Hrec Hk) as (s & [= <-] & Hs). done. }
  destruct (combine_and_write_string_keyed prior []) as (hs & Hhs & Hw).
  { rewrite app_nil_r. intros rec k Hrec Hk.
    destruct (Hkeys _ _ Hrec Hk) as (s & -> & _). by exists s. }
  { by rewrite app_nil_r. }
  rewrite app_nil_r in Hhs, Hw. destruct (headers_shape _ _ Hhs) as [rest ->].
  eexists _, _, _. split; [exact Hw|]. split; [by rewrite length_fmap|]. split.
  { intros row (rec & -> & Hrec)%list_elem_of_fmap. cbn.
    by rewrite (Hnocode rec Hrec). }
  unfold load_existing, stored_sheet. cbn [header_row data_rows].
  rewrite find_code_col_written.
  set (rows := (fun row : list value => stored_cell <$> row)
                 <$> (row_of (k_name :: k_code :: rest) <$> prior)).
  assert (forall row, row ∈ rows -> row_code 1 row = None) as Hrows.
  { intros row (row' & -> & (rec & -> & Hrec)%list_elem_of_fmap)%list_elem_of_fmap.
    rewrite row_code_stored, row_code_row_of, (Hnocode rec Hrec). done. }
  destruct (load_rows_fold (stored_cell <$> k_name :: k_code :: rest) 1 rows nothing_loaded)
    as [Hex Hseen].
  assert (filter (fun row => is_Some (row_code 1 row)) rows = []) as Hfilter.
  { clear -Hrows. induction rows as [|row rows IH]; [done|].
    rewrite filter_cons_False; [apply IH; intros; apply Hrows; by right|].
    rewrite (Hrows row) by left. by intros [??]. }
  assert (omap (row_code 1) rows = []) as Homap by (by apply omap_nil_iff).
  rewrite Hfilter in Hex. rewrite Homap in Hseen.
  cbn [existing seen_codes nothing_loaded app fmap list_fmap list_to_set] in Hex, Hseen.
  destruct (fold_left _ rows nothing_loaded) as [ex seen]. cbn in Hex, Hseen.
  subst ex. rewrite Hseen. cbn. by do 2 f_equal.
Qed.

Lemma prior_records_are_lost_without_exact_code_header_witness :
  exists hs rows console,
    combine_and_write (existing (load_existing (Some sheet_capital_code)).1) []
      = Written hs rows console
    /\ length rows = 2%nat
    /\ load_existing (Some (stored_sheet hs rows)) = (Loaded [] ∅, [loaded_message 0]).
Proof.
  destruct (prior_records_are_lost_without_exact_code_header sheet_capital_code 1)
    as (hs & rows & console & Hw & Hlen & _ & Hload).
  - reflexivity.
  - intros h Hh. unfold sheet_capital_code in Hh. cbn [header_row] in Hh.
    repeat (apply elem_of_cons in Hh as [->|Hh]; [eexists; split; [reflexivity|discriminate]|]).
    by apply elem_of_nil in Hh.
  - discriminate.
  - exists hs, rows, console. split; [exact Hw|]. split; [exact Hlen|exact Hload].
Defined.

(** ** A subject without a name *)

(** C5 (the code at the failing input): a first run fetches for seat 1 a
    record with an empty subject and writes it; the header cell of that
    subject is blank.  The second run reads the record back under the
    key [None], schedules nothing, and its writer, instead of rewriting
    the file with the prior record, fails in [sorted] on [None] against
    [Math]: nothing is written. *)
Lemma blank_subject_stops_the_next_rewrite :
  run net_blank_subject id 1 1 ∅ =
    Some ([[(k_name, VStr "B"); (k_code, VInt 1); (VStr "", VStr "5");
            (VStr "Math", VStr "90")]],
          ["[OK]   000001 → B"])
  /\ combine_and_write []
       [[(k_name, VStr "B"); (k_code, VInt 1); (VStr "", VStr "5");
         (VStr "Math", VStr "90")]]
     = Written [k_name; k_code; VStr ""; VStr "Math"]
               [[VStr "B"; VInt 1; VStr "5"; VStr "90"]] [wrote_message 1]
  /\ stored_sheet [k_name; k_code; VStr ""; VStr "Math"]
                  [[VStr "B"; VInt 1; VStr "5"; VStr "90"]] = sheet_blank_subject
  /\ existing (load_existing (Some sheet_blank_subject)).1 =
       [[(k_name, VStr "B"); (k_code, VInt 1); (VNone, VStr "5");
         (VStr "Math", VStr "90")]]
  /\ run net_blank_subject id 1 1 (seen_codes (load_existing (Some sheet_blank_subject)).1)
     = Some ([], [])
  /\ combine_and_write (existing (load_existing (Some sheet_blank_subject)).1) []
     = SortError
  /\ file_after (Some sheet_blank_subject)
       (combine_and_write (existing (load_existing (Some sheet_blank_subject)).1) [])
     = Some sheet_blank_subject.
Proof. repeat split; vm_compute; reflexivity. Qed.
